(** * Lead-funnel orchestration engine: store, rate limiter, stage executor, cycle

    A shallow embedding of [scraper/database.py] (class [LeadDatabase]),
    [scraper/telegram_automator.py] (class [TelegramAutomator]) and the
    cycle of [scraper/autonomous_scraper.py] (class [AutonomousScraper]),
    followed by the properties of the design document that concern them.

    Conventions of the embedding.
    - A naive [datetime] is the number of microseconds since a fixed origin
      (the resolution of [datetime]); a [timedelta] is a number of
      microseconds.  A calendar date, which the code writes with
      [strftime('%Y-%m-%d')], is its day ordinal: the two are in one-to-one
      correspondence, consecutive ordinals are adjacent dates.
    - The outside world (clocks, the Telegram client, the discovery client,
      the index probe) is a script: the answer the world gives at each
      interaction, numbered from 0.  Every function that talks to the world
      consumes the next answer.  Nothing is assumed about the answers.
    - State (the SQLite tables, the automator's attributes) is threaded by a
      small state-and-exception monad; a raised Python exception keeps the
      state reached so far, as in Python.
    - SQL NULL and Python None are [None]; SQL [=] is never true on NULL. *)

From Stdlib Require Import ZArith List Bool String Ascii Lia Floats Permutation.
From Stdlib Require Import Numbers.DecimalString.
From Stdlib Require Import Sorted.
Import ListNotations.
Open Scope Z_scope.
Open Scope string_scope.

(* ====================================================================== *)
(** ** Python strings *)
(* ====================================================================== *)

(** [str(n)] for an integer, as an f-string prints it. *)
Definition str_of_int (n : Z) : string := NilZero.string_of_int (Z.to_int n).

(** Truth value of a string-or-None: [None] and [''] are false. *)
Definition truthy (v : option string) : bool :=
  match v with
  | Some s => negb (String.eqb s "")
  | None => false
  end.

Fixpoint drop (n : nat) (s : string) : string :=
  match n, s with
  | O, _ => s
  | S k, String _ s' => drop k s'
  | S _, EmptyString => EmptyString
  end.

(** [sub in s]. *)
Fixpoint str_contains (sub s : string) : bool :=
  if prefix sub s then true
  else match s with
       | EmptyString => false
       | String _ s' => str_contains sub s'
       end.

(** [s.replace(old, new)] for a non-empty [old]: the occurrences are found
    left to right and do not overlap.  [skip] counts the characters of an
    occurrence still to be passed over. *)
Fixpoint replace_from (old new : string) (skip : nat) (s : string) : string :=
  match s with
  | EmptyString => EmptyString
  | String c s' =>
      match skip with
      | S k => replace_from old new k s'
      | O =>
          if prefix old s
          then new ++ replace_from old new (String.length old - 1) s'
          else String c (replace_from old new 0 s')
      end
  end.

(** With an empty [old] Python puts [new] before every character and at the
    end. *)
Fixpoint intersperse (new s : string) : string :=
  match s with
  | EmptyString => new
  | String c s' => new ++ String c (intersperse new s')
  end.

Definition str_replace (s old new : string) : string :=
  match old with
  | EmptyString => intersperse new s
  | String _ _ => replace_from old new 0 s
  end.

Definition is_upper (c : ascii) : bool :=
  let n := nat_of_ascii c in (65 <=? n)%nat && (n <=? 90)%nat.

(** [s.lower()] on the characters the patterns below can capture (ASCII). *)
Fixpoint str_lower (s : string) : string :=
  match s with
  | EmptyString => EmptyString
  | String c s' =>
      String (if is_upper c then ascii_of_nat (nat_of_ascii c + 32) else c)
             (str_lower s')
  end.

(** The character class [[a-zA-Z0-9_]]. *)
Definition is_word (c : ascii) : bool :=
  let n := nat_of_ascii c in
  ((97 <=? n)%nat && (n <=? 122)%nat)
  || ((65 <=? n)%nat && (n <=? 90)%nat)
  || ((48 <=? n)%nat && (n <=? 57)%nat)
  || (n =? 95)%nat.

(** The longest run of class characters at the head of [s]: what the greedy
    group [([a-zA-Z0-9_]+)] captures when it matches there. *)
Fixpoint take_word (s : string) : string :=
  match s with
  | EmptyString => EmptyString
  | String c s' => if is_word c then String c (take_word s') else EmptyString
  end.

Definition match_here (lit s : string) : option string :=
  if prefix lit s
  then match take_word (drop (String.length lit) s) with
       | EmptyString => None
       | w => Some w
       end
  else None.

(** [re.search(lit + '([a-zA-Z0-9_]+)', s)], group 1 of the leftmost match;
    [lit] is the literal text the pattern starts with. *)
Fixpoint re_search_word (lit s : string) : option string :=
  match match_here lit s with
  | Some w => Some w
  | None =>
      match s with
      | EmptyString => None
      | String _ s' => re_search_word lit s'
      end
  end.

Definition str_in (s : string) (l : list string) : bool :=
  existsb (String.eqb s) l.

(** [TelegramAutomator._extract_username]: the patterns are tried in order;
    a pattern whose capture is one of the three reserved words is passed
    over. *)
Fixpoint first_username (patterns : list string) (url : string) : option string :=
  match patterns with
  | [] => None
  | lit :: rest =>
      match re_search_word lit url with
      | Some username =>
          if str_in (str_lower username) ["joinchat"; "share"; "addstickers"]
          then first_username rest url
          else Some username
      | None => first_username rest url
      end
  end.

Definition _extract_username (url : option string) : option string :=
  match url with
  | None => None
  | Some u =>
      if String.eqb u "" then None
      else first_username ["t.me/"; "telegram.me/"; "@"] u
  end.


(* ====================================================================== *)
(** ** Time *)
(* ====================================================================== *)

(** [datetime] values and [timedelta]s, in microseconds. *)
Definition datetime := Z.
(** Calendar dates as day ordinals. *)
Definition date := Z.
(** SQLite's [CURRENT_TIMESTAMP], in seconds. *)
Definition timestamp := Z.

Definition hour : Z := 3600000000.      (* timedelta(hours=1) *)
Definition day : Z := 86400000000.

(** [t.strftime('%Y-%m-%d')]. *)
Definition date_of (t : datetime) : date := t / day.
Arguments date_of : simpl never.

(** [int(d.total_seconds())] for a timedelta [d]: [total_seconds] divides
    the microseconds by 10**6 and [int] truncates toward zero.  The
    quotient of the floating-point division has the same integer part as
    the exact one for every timedelta whose microseconds fit in 53 bits
    (285 years). *)
Definition int_total_seconds (d : Z) : Z := Z.quot d 1000000.

(* ====================================================================== *)
(** ** The tables of [LeadDatabase._create_tables] *)
(* ====================================================================== *)

(** The values of [projects.status] listed in the schema. *)
Inductive Status := discovered | joined | contacted | responded | converted.

Definition Status_eqb (a b : Status) : bool :=
  match a, b with
  | discovered, discovered | joined, joined | contacted, contacted
  | responded, responded | converted, converted => true
  | _, _ => false
  end.

(** Table [projects]; column [c] is field [p_c]. *)
Record ProjectRow := mkProject {
  p_id : Z;
  p_contract_address : string;
  p_name : option string;
  p_symbol : option string;
  p_chain : option string;
  p_website : option string;
  p_telegram_url : option string;
  p_twitter_url : option string;
  p_dexscreener_url : option string;
  p_volume_24h : option float;
  p_liquidity : option float;
  p_market_cap : option float;
  p_age_hours : option float;
  p_is_indexed : option bool;
  p_index_checked_at : option timestamp;
  p_status : Status;
  p_discovered_at : timestamp;
  p_updated_at : timestamp;
  p_source_url : option string;
  p_source_page : option Z
}.

(** Table [telegram_groups]; column [c] is field [g_c]. *)
Record GroupRow := mkGroup {
  g_id : Z;
  g_project_id : option Z;
  g_telegram_url : string;
  g_group_username : option string;
  g_joined_at : option timestamp;
  g_join_success : bool;
  g_join_error : option string;
  g_member_count : option Z
}.

(** Table [admins]; column [c] is field [a_c]. *)
Record AdminRow := mkAdmin {
  a_id : Z;
  a_project_id : option Z;
  a_group_id : option Z;
  a_username : string;
  a_user_id : option string;
  a_first_name : option string;
  a_is_owner : bool;
  a_discovered_at : timestamp
}.

(** Table [messages]; column [c] is field [m_c]. *)
Record MessageRow := mkMessage {
  m_id : Z;
  m_project_id : option Z;
  m_admin_id : option Z;
  m_message_text : string;
  m_template_used : option string;
  m_sent_at : option timestamp;
  m_send_success : bool;
  m_send_error : option string;
  m_response_received : bool;
  m_response_text : option string;
  m_response_at : option timestamp;
  m_converted : bool;
  m_conversion_notes : option string
}.

(** The counter columns of table [daily_metrics]. *)
Inductive Metric :=
| tokens_found | tokens_with_telegram | unindexed_sites_found
| groups_joined | join_failures | admins_found
| dms_sent | dms_failed | responses_received | conversions.

(** Table [daily_metrics]; column [c] is field [dm_c]. *)
Record MetricRow := mkMetric {
  dm_id : Z;
  dm_date : date;
  dm_tokens_found : Z;
  dm_tokens_with_telegram : Z;
  dm_unindexed_sites_found : Z;
  dm_groups_joined : Z;
  dm_join_failures : Z;
  dm_admins_found : Z;
  dm_dms_sent : Z;
  dm_dms_failed : Z;
  dm_responses_received : Z;
  dm_conversions : Z
}.

(** Table [error_log]. *)
Record ErrorRow := mkError {
  e_id : Z;
  e_timestamp : timestamp;
  e_error_type : string;
  e_error_message : string;
  e_context : option string;
  e_resolved : bool
}.

(** The database: each table in insertion order, and for each table the
    largest rowid handed out so far (AUTOINCREMENT: the next row gets one
    more, rowids are never reused). *)
Record Db := mkDb {
  projects : list ProjectRow;
  projects_seq : Z;
  telegram_groups : list GroupRow;
  telegram_groups_seq : Z;
  admins : list AdminRow;
  admins_seq : Z;
  messages : list MessageRow;
  messages_seq : Z;
  daily_metrics : list MetricRow;
  daily_metrics_seq : Z;
  error_log : list ErrorRow;
  error_log_seq : Z
}.

(** A freshly created database file. *)
Definition empty_db : Db := mkDb [] 0 [] 0 [] 0 [] 0 [] 0 [] 0.

(** SQL [=] between a nullable column and a bound parameter. *)
Definition sql_eq (a b : option Z) : bool :=
  match a, b with
  | Some x, Some y => Z.eqb x y
  | _, _ => false
  end.

(** A token dict as the discovery client builds it
    ([DEXScreenerAPI._format_pair]); each field is what [token_data.get]
    of the key reads, [address] being
    [token_data.get('address', token_data.get('contract_address'))] and
    [chain] being [token_data.get('chain', 'solana')]. *)
Record Token := mkToken {
  address : option string;
  name : option string;
  symbol : option string;
  chain : option string;
  website : option string;
  telegram : option string;
  twitter : option string;
  dexscreener_url : option string;
  volume_24h : option float;
  liquidity : option float;
  market_cap : option float;
  age_hours : option float;
  source_url : option string;
  source_page : option Z
}.

(* ====================================================================== *)
(** ** The outside world *)
(* ====================================================================== *)

(** The exception classes the automator tells apart; [OtherException] is
    any other [Exception]. *)
Inductive TgErrorKind :=
| FloodWaitError (seconds : Z)
| UserPrivacyRestrictedError
| PeerFloodError
| UsernameInvalidError
| ChatAdminRequiredError
| ChannelPrivateError
| UserNotMutualContactError
| OtherException.

(** A raised exception [e]: its class and [str(e)]. *)
Record TgError := mkTgError { err_kind : TgErrorKind; err_str : string }.

(** What an awaited client call does. *)
Inductive Outcome (A : Type) :=
| Returns (a : A)
| Raises (e : TgError).
Arguments Returns {A} a.
Arguments Raises {A} e.

(** What [client.get_entity] resolves a name to. *)
Inductive Entity := Channel | Chat | User.

Definition is_group (e : Entity) : bool :=
  match e with Channel | Chat => true | User => false end.

(** One participant yielded by [client.iter_participants]. *)
Record Participant := mkParticipant {
  tl_username : option string;
  tl_id : Z;
  tl_first_name : option string;
  tl_bot : bool;
  tl_creator : bool        (* hasattr(p.participant, 'creator') and ...creator *)
}.

(** The script of the world: answer number [n] of each kind. *)
Record Script := mkScript {
  now_at : nat -> datetime;                    (* datetime.now() *)
  current_timestamp_at : nat -> timestamp;     (* SQL CURRENT_TIMESTAMP *)
  get_entity_at : nat -> Outcome Entity;
  get_participants_at : nat -> Outcome unit;   (* get_participants(entity, limit=1) *)
  join_channel_at : nat -> Outcome unit;       (* JoinChannelRequest(entity) *)
  iter_participants_at : nat -> list Participant * option TgError;
  send_message_at : nat -> Outcome unit;
  scrape_with_filters_at : nat -> list Token;
  check_indexed_at : nat -> option bool
}.

(** [TelegramAutomator.stats]; key [k] is field [st_k]. *)
Record Stats := mkStats {
  st_groups_joined : Z;
  st_join_failures : Z;
  st_dms_sent : Z;
  st_dm_failures : Z;
  st_admins_found : Z
}.

(** The attributes of a [TelegramAutomator] the model needs. *)
Record TelegramAutomator := mkAutomator {
  join_delay : Z;
  dm_delay : Z;
  max_joins_per_hour : Z;
  max_dms_per_hour : Z;
  join_times : list datetime;
  dm_times : list datetime;
  stats : Stats
}.

(** [TelegramAutomator.__init__]. *)
Definition new_automator (join_delay dm_delay max_joins max_dms : Z) : TelegramAutomator :=
  mkAutomator join_delay dm_delay max_joins max_dms [] [] (mkStats 0 0 0 0 0).

(** The whole state: the script and how far it has been consumed, the
    database, the automator, the arguments of the [asyncio.sleep] calls made
    so far (seconds, latest first) and the arguments of the
    [client.send_message] calls made so far (recipient and text, latest
    first). *)
Record World := mkWorld {
  script : Script;
  tick : nat;
  db : Db;
  automator : TelegramAutomator;
  slept : list Z;
  send_calls : list (string * string)
}.

Inductive Exn := ValueError (msg : string).

Inductive Result (A : Type) :=
| Ok (a : A)
| Raise (e : Exn).
Arguments Ok {A} a.
Arguments Raise {A} e.

(** Computations on the world that return or raise. *)
Definition M (A : Type) : Type := World -> Result A * World.

Definition ret {A : Type} (a : A) : M A := fun w => (Ok a, w).

Definition bind {A B : Type} (c : M A) (k : A -> M B) : M B :=
  fun w =>
    match c w with
    | (Ok a, w') => k a w'
    | (Raise e, w') => (Raise e, w')
    end.

Definition raise {A : Type} (e : Exn) : M A := fun w => (Raise e, w).

Declare Scope m_scope.
Delimit Scope m_scope with m.
Notation "x <- c ;; k" := (bind c (fun x => k))
  (at level 100, c at next level, right associativity) : m_scope.
Notation "c ;; k" := (bind c (fun _ => k))
  (at level 100, right associativity) : m_scope.
Open Scope m_scope.

(** The next answer of the script. *)
Definition next {A : Type} (f : Script -> nat -> A) : M A :=
  fun w => (Ok (f (script w) (tick w)),
            mkWorld (script w) (S (tick w)) (db w) (automator w) (slept w) (send_calls w)).

Definition datetime_now : M datetime := next now_at.
Definition CURRENT_TIMESTAMP : M timestamp := next current_timestamp_at.

Definition get_db : M Db := fun w => (Ok (db w), w).

Definition modify_db (f : Db -> Db) : M unit :=
  fun w => (Ok tt, mkWorld (script w) (tick w) (f (db w)) (automator w) (slept w) (send_calls w)).

Definition get_telegram : M TelegramAutomator := fun w => (Ok (automator w), w).

Definition modify_telegram (f : TelegramAutomator -> TelegramAutomator) : M unit :=
  fun w => (Ok tt, mkWorld (script w) (tick w) (db w) (f (automator w)) (slept w) (send_calls w)).

(** [await asyncio.sleep(seconds)]. *)
Definition asyncio_sleep (seconds : Z) : M unit :=
  fun w => (Ok tt, mkWorld (script w) (tick w) (db w) (automator w) (seconds :: slept w) (send_calls w)).

(** [await self.client.send_message(user, text)]: the call is noted, and
    the script says how it ends. *)
Definition client_send_message (recipient text : string) : M (Outcome unit) :=
  fun w => (Ok (send_message_at (script w) (tick w)),
            mkWorld (script w) (S (tick w)) (db w) (automator w) (slept w)
                    ((recipient, text) :: send_calls w)).

(** [for x in l: body(x)]. *)
Fixpoint for_each {A : Type} (l : list A) (body : A -> M unit) : M unit :=
  match l with
  | [] => ret tt
  | x :: l' => body x ;; for_each l' body
  end.

(* ====================================================================== *)
(** ** [LeadDatabase]: statements *)
(* ====================================================================== *)

Definition with_projects (d : Db) (rows : list ProjectRow) (seq : Z) : Db :=
  mkDb rows seq (telegram_groups d) (telegram_groups_seq d) (admins d) (admins_seq d)
       (messages d) (messages_seq d) (daily_metrics d) (daily_metrics_seq d)
       (error_log d) (error_log_seq d).

Definition with_telegram_groups (d : Db) (rows : list GroupRow) (seq : Z) : Db :=
  mkDb (projects d) (projects_seq d) rows seq (admins d) (admins_seq d)
       (messages d) (messages_seq d) (daily_metrics d) (daily_metrics_seq d)
       (error_log d) (error_log_seq d).

Definition with_admins (d : Db) (rows : list AdminRow) (seq : Z) : Db :=
  mkDb (projects d) (projects_seq d) (telegram_groups d) (telegram_groups_seq d) rows seq
       (messages d) (messages_seq d) (daily_metrics d) (daily_metrics_seq d)
       (error_log d) (error_log_seq d).

Definition with_messages (d : Db) (rows : list MessageRow) (seq : Z) : Db :=
  mkDb (projects d) (projects_seq d) (telegram_groups d) (telegram_groups_seq d)
       (admins d) (admins_seq d) rows seq (daily_metrics d) (daily_metrics_seq d)
       (error_log d) (error_log_seq d).

Definition with_daily_metrics (d : Db) (rows : list MetricRow) (seq : Z) : Db :=
  mkDb (projects d) (projects_seq d) (telegram_groups d) (telegram_groups_seq d)
       (admins d) (admins_seq d) (messages d) (messages_seq d) rows seq
       (error_log d) (error_log_seq d).

Definition with_error_log (d : Db) (rows : list ErrorRow) (seq : Z) : Db :=
  mkDb (projects d) (projects_seq d) (telegram_groups d) (telegram_groups_seq d)
       (admins d) (admins_seq d) (messages d) (messages_seq d)
       (daily_metrics d) (daily_metrics_seq d) rows seq.

(** Column [metric] of a [daily_metrics] row. *)
Definition counter (metric : Metric) (r : MetricRow) : Z :=
  match metric with
  | tokens_found => dm_tokens_found r
  | tokens_with_telegram => dm_tokens_with_telegram r
  | unindexed_sites_found => dm_unindexed_sites_found r
  | groups_joined => dm_groups_joined r
  | join_failures => dm_join_failures r
  | admins_found => dm_admins_found r
  | dms_sent => dm_dms_sent r
  | dms_failed => dm_dms_failed r
  | responses_received => dm_responses_received r
  | conversions => dm_conversions r
  end.

(** [SET metric = metric + amount] on one row. *)
Definition bump (metric : Metric) (amount : Z) (r : MetricRow) : MetricRow :=
  let '(mkMetric i dt c1 c2 c3 c4 c5 c6 c7 c8 c9 c10) := r in
  match metric with
  | tokens_found => mkMetric i dt (c1 + amount) c2 c3 c4 c5 c6 c7 c8 c9 c10
  | tokens_with_telegram => mkMetric i dt c1 (c2 + amount) c3 c4 c5 c6 c7 c8 c9 c10
  | unindexed_sites_found => mkMetric i dt c1 c2 (c3 + amount) c4 c5 c6 c7 c8 c9 c10
  | groups_joined => mkMetric i dt c1 c2 c3 (c4 + amount) c5 c6 c7 c8 c9 c10
  | join_failures => mkMetric i dt c1 c2 c3 c4 (c5 + amount) c6 c7 c8 c9 c10
  | admins_found => mkMetric i dt c1 c2 c3 c4 c5 (c6 + amount) c7 c8 c9 c10
  | dms_sent => mkMetric i dt c1 c2 c3 c4 c5 c6 (c7 + amount) c8 c9 c10
  | dms_failed => mkMetric i dt c1 c2 c3 c4 c5 c6 c7 (c8 + amount) c9 c10
  | responses_received => mkMetric i dt c1 c2 c3 c4 c5 c6 c7 c8 (c9 + amount) c10
  | conversions => mkMetric i dt c1 c2 c3 c4 c5 c6 c7 c8 c9 (c10 + amount)
  end.

(** [INSERT OR IGNORE INTO daily_metrics (date) VALUES (today)]: the
    UNIQUE constraint on [date] leaves the rows as they are when the date
    has a row; the new row's counters take their DEFAULT 0.  The id is
    AUTOINCREMENT, and SQLite allots it before it meets the constraint: an
    ignored insert uses up an id all the same (unlike a plain [INSERT]
    that fails with [IntegrityError], which is undone as a whole). *)
Definition insert_or_ignore_daily_metrics (today : date) (d : Db) : Db :=
  let rowid := daily_metrics_seq d + 1 in
  if existsb (fun r => Z.eqb (dm_date r) today) (daily_metrics d)
  then with_daily_metrics d (daily_metrics d) rowid
  else
    with_daily_metrics d
      (daily_metrics d ++ [mkMetric rowid today 0 0 0 0 0 0 0 0 0 0])%list rowid.

(** [UPDATE daily_metrics SET metric = metric + amount WHERE date = today]. *)
Definition update_daily_metrics (metric : Metric) (amount : Z) (today : date) (d : Db) : Db :=
  with_daily_metrics d
    (map (fun r => if Z.eqb (dm_date r) today then bump metric amount r else r)
         (daily_metrics d))
    (daily_metrics_seq d).

(** [SELECT * FROM daily_metrics WHERE date = ?], [fetchone]. *)
Definition select_daily_metrics (dt : date) (d : Db) : option MetricRow :=
  find (fun r => Z.eqb (dm_date r) dt) (daily_metrics d).

Definition has_address (addr : string) (r : ProjectRow) : bool :=
  String.eqb (p_contract_address r) addr.

(** [SELECT id FROM projects WHERE contract_address = ?], [fetchone]. *)
Definition select_project_id (addr : option string) (d : Db) : option Z :=
  match addr with
  | Some a => option_map p_id (find (has_address a) (projects d))
  | None => None
  end.

(** The row [INSERT INTO projects] writes: the listed columns from the
    token, the others from their DEFAULT. *)
Definition project_row (rowid : Z) (addr : string) (t : Token) (ts : timestamp) : ProjectRow :=
  mkProject rowid addr (name t) (symbol t) (chain t) (website t) (telegram t)
            (twitter t) (dexscreener_url t) (volume_24h t) (liquidity t)
            (market_cap t) (age_hours t) None None discovered ts ts
            (source_url t) (source_page t).

(** [INSERT INTO projects ...] and [commit]: the new rowid, or [None] for
    [sqlite3.IntegrityError] (contract_address is UNIQUE NOT NULL). *)
Definition insert_into_projects (t : Token) : M (option Z) :=
  d <- get_db ;;
  match address t with
  | None => ret None
  | Some addr =>
      if existsb (has_address addr) (projects d) then ret None
      else
        ts <- CURRENT_TIMESTAMP ;;
        let rowid := projects_seq d + 1 in
        modify_db (fun d => with_projects d
                     (projects d ++ [project_row rowid addr t ts])%list rowid) ;;
        ret (Some rowid)
  end.

Definition set_status (st : Status) (ts : timestamp) (r : ProjectRow) : ProjectRow :=
  mkProject (p_id r) (p_contract_address r) (p_name r) (p_symbol r) (p_chain r)
            (p_website r) (p_telegram_url r) (p_twitter_url r) (p_dexscreener_url r)
            (p_volume_24h r) (p_liquidity r) (p_market_cap r) (p_age_hours r)
            (p_is_indexed r) (p_index_checked_at r) st (p_discovered_at r) ts
            (p_source_url r) (p_source_page r).

Definition set_is_indexed (b : bool) (ts : timestamp) (r : ProjectRow) : ProjectRow :=
  mkProject (p_id r) (p_contract_address r) (p_name r) (p_symbol r) (p_chain r)
            (p_website r) (p_telegram_url r) (p_twitter_url r) (p_dexscreener_url r)
            (p_volume_24h r) (p_liquidity r) (p_market_cap r) (p_age_hours r)
            (Some b) (Some ts) (p_status r) (p_discovered_at r) (p_updated_at r)
            (p_source_url r) (p_source_page r).

(** [UPDATE projects SET ... WHERE id = ?] with the row change [f]. *)
Definition update_projects_where_id (project_id : option Z) (f : ProjectRow -> ProjectRow)
    (d : Db) : Db :=
  with_projects d
    (map (fun r => if sql_eq (Some (p_id r)) project_id then f r else r) (projects d))
    (projects_seq d).

(** [ORDER BY discovered_at DESC].  SQL leaves the order of rows with equal
    timestamps open; here they keep their insertion order. *)
Fixpoint insert_desc (r : ProjectRow) (l : list ProjectRow) : list ProjectRow :=
  match l with
  | [] => [r]
  | x :: l' =>
      if Z.leb (p_discovered_at x) (p_discovered_at r) then r :: l
      else x :: insert_desc r l'
  end.

Definition order_by_discovered_at_desc (l : list ProjectRow) : list ProjectRow :=
  fold_right insert_desc [] l.

(** [LIMIT ?]: a negative bound is no bound. *)
Definition sql_limit {A : Type} (limit : Z) (l : list A) : list A :=
  if Z.ltb limit 0 then l else firstn (Z.to_nat limit) l.

Definition is_some {A : Type} (o : option A) : bool :=
  match o with Some _ => true | None => false end.

(** The WHERE clause of [get_uncontacted_projects]. *)
Definition uncontacted (only_unindexed : bool) (r : ProjectRow) : bool :=
  Status_eqb (p_status r) discovered
  && is_some (p_telegram_url r)
  && (if only_unindexed
      then match p_is_indexed r with Some false => true | _ => false end
      else true).

(* ====================================================================== *)
(** ** [LeadDatabase]: methods *)
(* ====================================================================== *)

(** [LeadDatabase._increment_daily_metric]. *)
Definition _increment_daily_metric (metric : Metric) (amount : Z) : M unit :=
  now <- datetime_now ;;
  let today := date_of now in
  modify_db (insert_or_ignore_daily_metrics today) ;;
  modify_db (update_daily_metrics metric amount today).

(** [LeadDatabase.add_project]. *)
Definition add_project (token_data : Token) : M (option Z) :=
  inserted <- insert_into_projects token_data ;;
  match inserted with
  | Some project_id =>
      _increment_daily_metric tokens_found 1 ;;
      (if truthy (telegram token_data)
       then _increment_daily_metric tokens_with_telegram 1
       else ret tt) ;;
      ret (Some project_id)
  | None =>
      (* except sqlite3.IntegrityError *)
      d <- get_db ;;
      ret (select_project_id (address token_data) d)
  end.

(** [LeadDatabase.get_project]: [if project_id] and [elif contract_address]
    test truth, so 0 and [''] count as not given. *)
Definition get_project (project_id : option Z) (contract_address : option string)
    : M (option ProjectRow) :=
  d <- get_db ;;
  match project_id with
  | Some i =>
      if negb (Z.eqb i 0) then ret (find (fun r => Z.eqb (p_id r) i) (projects d))
      else if truthy contract_address
           then ret (match contract_address with
                     | Some a => find (has_address a) (projects d)
                     | None => None
                     end)
           else ret None
  | None =>
      match contract_address with
      | Some a => if truthy contract_address
                  then ret (find (has_address a) (projects d))
                  else ret None
      | None => ret None
      end
  end.

(** [LeadDatabase.project_exists]. *)
Definition project_exists (contract_address : string) : M bool :=
  d <- get_db ;;
  ret (existsb (has_address contract_address) (projects d)).

(** [LeadDatabase.update_project_status]. *)
Definition update_project_status (project_id : option Z) (status : Status) : M unit :=
  ts <- CURRENT_TIMESTAMP ;;
  modify_db (update_projects_where_id project_id (set_status status ts)).

(** [LeadDatabase.update_index_status]. *)
Definition update_index_status (project_id : option Z) (is_indexed : bool) : M unit :=
  ts <- CURRENT_TIMESTAMP ;;
  modify_db (update_projects_where_id project_id (set_is_indexed is_indexed ts)) ;;
  if negb is_indexed then _increment_daily_metric unindexed_sites_found 1 else ret tt.

(** [LeadDatabase.get_uncontacted_projects]. *)
Definition get_uncontacted_projects (limit : Z) (only_unindexed : bool)
    : M (list ProjectRow) :=
  d <- get_db ;;
  ret (sql_limit limit
         (order_by_discovered_at_desc (filter (uncontacted only_unindexed) (projects d)))).

(** [INSERT INTO telegram_groups ...] and [commit]: the new rowid, or
    [None] for [sqlite3.IntegrityError] (UNIQUE(project_id, telegram_url);
    rows with a NULL project_id never collide). *)
Definition insert_into_telegram_groups (project_id : option Z) (telegram_url : string)
    (joined : bool) (error : option string) : M (option Z) :=
  d <- get_db ;;
  if existsb (fun g => sql_eq (g_project_id g) project_id
                       && String.eqb (g_telegram_url g) telegram_url)
             (telegram_groups d)
  then ret None
  else
    ts <- CURRENT_TIMESTAMP ;;
    let rowid := telegram_groups_seq d + 1 in
    modify_db (fun d => with_telegram_groups d
                 (telegram_groups d
                  ++ [mkGroup rowid project_id telegram_url None (Some ts) joined error None])%list
                 rowid) ;;
    ret (Some rowid).

(** [LeadDatabase.add_telegram_group]. *)
Definition add_telegram_group (project_id : option Z) (telegram_url : string)
    (joined' : bool) (error : option string) : M (option Z) :=
  inserted <- insert_into_telegram_groups project_id telegram_url joined' error ;;
  match inserted with
  | Some lastrowid =>
      (if joined'
       then _increment_daily_metric groups_joined 1 ;;
            update_project_status project_id joined
       else _increment_daily_metric join_failures 1) ;;
      ret (Some lastrowid)
  | None => ret None     (* except sqlite3.IntegrityError *)
  end.

(** [SELECT id FROM admins WHERE project_id = ? AND username = ?]. *)
Definition select_admin_id (project_id : option Z) (username : string) (d : Db) : option Z :=
  option_map a_id
    (find (fun a => sql_eq (a_project_id a) project_id && String.eqb (a_username a) username)
          (admins d)).

(** [INSERT INTO admins ...] and [commit]: the new rowid, or [None] for
    [sqlite3.IntegrityError] (UNIQUE(project_id, username)). *)
Definition insert_into_admins (project_id group_id : option Z) (username : string)
    (user_id first_name : option string) (is_owner : bool) : M (option Z) :=
  d <- get_db ;;
  if existsb (fun a => sql_eq (a_project_id a) project_id
                       && String.eqb (a_username a) username)
             (admins d)
  then ret None
  else
    ts <- CURRENT_TIMESTAMP ;;
    let rowid := admins_seq d + 1 in
    modify_db (fun d => with_admins d
                 (admins d
                  ++ [mkAdmin rowid project_id group_id username user_id first_name is_owner ts])%list
                 rowid) ;;
    ret (Some rowid).

(** [LeadDatabase.add_admin]. *)
Definition add_admin (project_id group_id : option Z) (username : string)
    (user_id first_name : option string) (is_owner : bool) : M (option Z) :=
  inserted <- insert_into_admins project_id group_id username user_id first_name is_owner ;;
  match inserted with
  | Some lastrowid =>
      _increment_daily_metric admins_found 1 ;;
      ret (Some lastrowid)
  | None =>
      (* except sqlite3.IntegrityError *)
      d <- get_db ;;
      ret (select_admin_id project_id username d)
  end.

(** The ON clause of [get_uncontacted_admins]:
    [a.id = m.admin_id AND m.send_success = 1]. *)
Definition sent_to (a : AdminRow) (m : MessageRow) : bool :=
  sql_eq (Some (a_id a)) (m_admin_id m) && m_send_success m.

(** The order in which SQLite reads the admins of one lead: the query has
    no ORDER BY and is answered from the index of
    [UNIQUE(project_id, username)], so the rows come by username, compared
    byte by byte (rows with the same username, which the constraint rules
    out for a lead, in the order of their ids). *)
Fixpoint insert_by_username (a : AdminRow) (l : list AdminRow) : list AdminRow :=
  match l with
  | [] => [a]
  | b :: l' =>
      if String.leb (a_username a) (a_username b) then a :: l
      else b :: insert_by_username a l'
  end.

Definition order_by_username (l : list AdminRow) : list AdminRow :=
  fold_right insert_by_username [] l.

(** [LeadDatabase.get_uncontacted_admins]: the LEFT JOIN keeps an admin
    with no matching message as one row whose [m.id] is NULL, and these are
    the rows the WHERE clause retains. *)
Definition get_uncontacted_admins (project_id : option Z) : M (list AdminRow) :=
  d <- get_db ;;
  ret (order_by_username
         (filter (fun a => sql_eq (a_project_id a) project_id
                           && negb (existsb (sent_to a) (messages d)))
                 (admins d))).

(** [LeadDatabase.add_message]. *)
Definition add_message (project_id admin_id : option Z) (message_text : string)
    (template_used : option string) (success : bool) (error : option string) : M Z :=
  d <- get_db ;;
  ts <- CURRENT_TIMESTAMP ;;
  let lastrowid := messages_seq d + 1 in
  modify_db (fun d => with_messages d
               (messages d
                ++ [mkMessage lastrowid project_id admin_id message_text template_used
                              (Some ts) success error false None None false None])%list
               lastrowid) ;;
  (if success
   then _increment_daily_metric dms_sent 1 ;;
        update_project_status project_id contacted
   else _increment_daily_metric dms_failed 1) ;;
  ret lastrowid.

(** [LeadDatabase.was_project_contacted]. *)
Definition was_project_contacted (contract_address : string) : M bool :=
  d <- get_db ;;
  ret (existsb (fun m =>
                  m_send_success m
                  && existsb (fun p => sql_eq (m_project_id m) (Some (p_id p))
                                       && has_address contract_address p)
                             (projects d))
               (messages d)).

Definition set_response (text : string) (ts : timestamp) (m : MessageRow) : MessageRow :=
  mkMessage (m_id m) (m_project_id m) (m_admin_id m) (m_message_text m) (m_template_used m)
            (m_sent_at m) (m_send_success m) (m_send_error m) true (Some text) (Some ts)
            (m_converted m) (m_conversion_notes m).

(** [LeadDatabase.record_response]. *)
Definition record_response (message_id : option Z) (response_text : string) : M unit :=
  ts <- CURRENT_TIMESTAMP ;;
  modify_db (fun d => with_messages d
               (map (fun m => if sql_eq (Some (m_id m)) message_id
                              then set_response response_text ts m else m)
                    (messages d))
               (messages_seq d)) ;;
  _increment_daily_metric responses_received 1.

(** [LeadDatabase.get_daily_metrics]; without a date, today's. *)
Definition get_daily_metrics (dt : option date) : M (option MetricRow) :=
  match dt with
  | Some d0 => d <- get_db ;; ret (select_daily_metrics d0 d)
  | None =>
      now <- datetime_now ;;
      d <- get_db ;;
      ret (select_daily_metrics (date_of now) d)
  end.

(** [LeadDatabase.log_error]. *)
Definition log_error (error_type error_message : string) (context : option string) : M unit :=
  ts <- CURRENT_TIMESTAMP ;;
  modify_db (fun d =>
               let rowid := error_log_seq d + 1 in
               with_error_log d
                 (error_log d ++ [mkError rowid ts error_type error_message context false])%list
                 rowid).

(* ---------------------------------------------------------------------- *)
(** *** Summary statistics *)

(** A Python number: the summary's rate is the [int] 0 or a [float]. *)
Inductive PyNum :=
| PyInt (z : Z)
| PyFloat (f : float).

(** Nearest integer to [num / den], ties to even ([0 <= num], [0 < den]). *)
Definition round_half_even (num den : Z) : Z :=
  let q := num / den in
  let r := num mod den in
  if Z.ltb (2 * r) den then q
  else if Z.ltb den (2 * r) then q + 1
  else if Z.even q then q else q + 1.

(** The [float] of a Python [int]; exact below 2**53. *)
Definition float_of_int (z : Z) : float := PrimFloat.of_uint63 (Uint63.of_Z z).

(** [round(x, 1)] on a float: the exact binary value of [x] is rounded to
    one decimal, ties to even, and the float nearest to that decimal is
    returned.  A float with no fractional bits is its own rounding.
    Exact for [|x| < 2**53 / 10]. *)
Definition py_round1 (x : float) : float :=
  match Prim2SF x with
  | S754_finite sgn m e =>
      if Z.leb 0 e then x
      else
        let tenths := round_half_even (10 * Zpos m) (2 ^ (- e)) in
        let y := (float_of_int tenths / 10)%float in
        if sgn then (- y)%float else y
  | _ => x
  end.

(** [a / b * 100] on two Python ints ([b] not 0): true division, then a
    float product. *)
Definition percentage (a b : Z) : float :=
  (float_of_int a / float_of_int b * 100)%float.

(** The dict [get_summary_stats] returns; key [k] is field [ss_k]. *)
Record SummaryStats := mkSummary {
  ss_total_projects : Z;
  ss_projects_with_telegram : Z;
  ss_unindexed_sites : Z;
  ss_projects_contacted : Z;
  ss_total_dms_sent : Z;
  ss_responses_received : Z;
  ss_response_rate : PyNum;
  ss_groups_joined : Z
}.

(** [SELECT COUNT( * ) FROM t WHERE c]. *)
Definition count {A : Type} (c : A -> bool) (t : list A) : Z :=
  Z.of_nat (List.length (filter c t)).

(** The non-NULL values of a nullable column. *)
Fixpoint non_null {A : Type} (l : list (option A)) : list A :=
  match l with
  | [] => []
  | Some x :: l' => x :: non_null l'
  | None :: l' => non_null l'
  end.

(** [LeadDatabase.get_summary_stats]. *)
Definition get_summary_stats : M SummaryStats :=
  d <- get_db ;;
  let total_projects := count (fun _ => true) (projects d) in
  let projects_with_telegram := count (fun p => is_some (p_telegram_url p)) (projects d) in
  let unindexed_sites :=
    count (fun p => match p_is_indexed p with Some false => true | _ => false end)
          (projects d) in
  let projects_contacted :=
    Z.of_nat (List.length
                (nodup Z.eq_dec
                   (non_null (map m_project_id (filter m_send_success (messages d)))))) in
  let total_dms_sent := count m_send_success (messages d) in
  let responses := count m_response_received (messages d) in
  let response_rate :=
    if Z.ltb 0 total_dms_sent
    then PyFloat (py_round1 (percentage responses total_dms_sent))
    else PyInt 0 in
  let joined_groups := count g_join_success (telegram_groups d) in
  ret (mkSummary total_projects projects_with_telegram unindexed_sites projects_contacted
                 total_dms_sent responses response_rate joined_groups).


(* ====================================================================== *)
(** ** [TelegramAutomator] *)
(* ====================================================================== *)

Definition with_join_times (a : TelegramAutomator) (l : list datetime) : TelegramAutomator :=
  mkAutomator (join_delay a) (dm_delay a) (max_joins_per_hour a) (max_dms_per_hour a)
              l (dm_times a) (stats a).

Definition with_dm_times (a : TelegramAutomator) (l : list datetime) : TelegramAutomator :=
  mkAutomator (join_delay a) (dm_delay a) (max_joins_per_hour a) (max_dms_per_hour a)
              (join_times a) l (stats a).

Definition with_stats (a : TelegramAutomator) (s : Stats) : TelegramAutomator :=
  mkAutomator (join_delay a) (dm_delay a) (max_joins_per_hour a) (max_dms_per_hour a)
              (join_times a) (dm_times a) s.

(** [self.stats[k] += n] for each key. *)
Definition add_groups_joined (n : Z) (s : Stats) : Stats :=
  mkStats (st_groups_joined s + n) (st_join_failures s) (st_dms_sent s)
          (st_dm_failures s) (st_admins_found s).
Definition add_join_failures (n : Z) (s : Stats) : Stats :=
  mkStats (st_groups_joined s) (st_join_failures s + n) (st_dms_sent s)
          (st_dm_failures s) (st_admins_found s).
Definition add_dms_sent (n : Z) (s : Stats) : Stats :=
  mkStats (st_groups_joined s) (st_join_failures s) (st_dms_sent s + n)
          (st_dm_failures s) (st_admins_found s).
Definition add_dm_failures (n : Z) (s : Stats) : Stats :=
  mkStats (st_groups_joined s) (st_join_failures s) (st_dms_sent s)
          (st_dm_failures s + n) (st_admins_found s).
Definition add_admins_found (n : Z) (s : Stats) : Stats :=
  mkStats (st_groups_joined s) (st_join_failures s) (st_dms_sent s)
          (st_dm_failures s) (st_admins_found s + n).

Definition modify_stats (f : Stats -> Stats) : M unit :=
  modify_telegram (fun a => with_stats a (f (stats a))).

(** [min(l)]; Python raises ValueError on an empty list. *)
Definition py_min (l : list datetime) : M datetime :=
  match l with
  | [] => raise (ValueError "min() arg is an empty sequence")
  | t :: l' => ret (fold_left Z.min l' t)
  end.

(** [[t for t in times if t > hour_ago]]. *)
Definition prune (hour_ago : datetime) (times : list datetime) : list datetime :=
  filter (fun t => Z.ltb hour_ago t) times.

(** [TelegramAutomator._can_join]. *)
Definition _can_join : M (bool * Z) :=
  now <- datetime_now ;;
  let hour_ago := now - hour in
  modify_telegram (fun a => with_join_times a (prune hour_ago (join_times a))) ;;
  a <- get_telegram ;;
  if Z.leb (max_joins_per_hour a) (Z.of_nat (List.length (join_times a)))
  then
    oldest <- py_min (join_times a) ;;
    let wait_seconds := int_total_seconds (oldest + hour - now) in
    ret (false, Z.max 0 wait_seconds)
  else ret (true, 0).

(** [TelegramAutomator._can_dm]. *)
Definition _can_dm : M (bool * Z) :=
  now <- datetime_now ;;
  let hour_ago := now - hour in
  modify_telegram (fun a => with_dm_times a (prune hour_ago (dm_times a))) ;;
  a <- get_telegram ;;
  if Z.leb (max_dms_per_hour a) (Z.of_nat (List.length (dm_times a)))
  then
    oldest <- py_min (dm_times a) ;;
    let wait_seconds := int_total_seconds (oldest + hour - now) in
    ret (false, Z.max 0 wait_seconds)
  else ret (true, 0).

(** The [except] clauses of [join_group]. *)
Definition join_group_except (e : TgError) : M (bool * option string) :=
  match err_kind e with
  | FloodWaitError seconds => ret (false, Some ("FloodWait: " ++ str_of_int seconds ++ "s"))
  | ChannelPrivateError => ret (false, Some "Private channel")
  | UsernameInvalidError => ret (false, Some "Invalid username")
  | _ =>
      modify_stats (add_join_failures 1) ;;
      ret (false, Some (err_str e))
  end.

(** [TelegramAutomator.join_group]. *)
Definition join_group (telegram_url : string) : M (bool * option string) :=
  match _extract_username (Some telegram_url) with
  | None => ret (false, Some ("Could not extract username from " ++ telegram_url))
  | Some username =>
      check <- _can_join ;;
      let (can_join, wait_time) := check : bool * Z in
      if negb can_join
      then ret (false, Some ("Rate limited, wait " ++ str_of_int wait_time ++ "s"))
      else
        entity <- next get_entity_at ;;
        match entity with
        | Raises e => join_group_except e
        | Returns ent =>
            if negb (is_group ent) then ret (false, Some "Not a group/channel")
            else
              member <- next get_participants_at ;;
              match member with
              | Returns _ => ret (true, None)          (* already a member *)
              | Raises _ =>
                  (* except ChatAdminRequiredError: pass / except: pass *)
                  joined' <- next join_channel_at ;;
                  match joined' with
                  | Raises e => join_group_except e
                  | Returns _ =>
                      now <- datetime_now ;;
                      modify_telegram (fun a => with_join_times a (join_times a ++ [now])%list) ;;
                      modify_stats (add_groups_joined 1) ;;
                      a <- get_telegram ;;
                      asyncio_sleep (join_delay a) ;;
                      ret (true, None)
                  end
              end
        end
  end.

(** An entry of the list [get_group_admins] returns. *)
Record AdminInfo := mkAdminInfo {
  username : string;
  user_id : Z;
  first_name : string;
  is_owner : bool
}.

(** The loop body of [get_group_admins] on one participant: bots and
    participants without a username are skipped. *)
Definition admin_info (p : Participant) : option AdminInfo :=
  if tl_bot p then None
  else match tl_username p with
       | Some u =>
           if String.eqb u "" then None
           else Some (mkAdminInfo u (tl_id p)
                        (match tl_first_name p with Some f => f | None => "" end)
                        (tl_creator p))
       | None => None
       end.

Fixpoint admin_infos (ps : list Participant) : list AdminInfo :=
  match ps with
  | [] => []
  | p :: ps' =>
      match admin_info p with
      | Some a => a :: admin_infos ps'
      | None => admin_infos ps'
      end
  end.

(** [TelegramAutomator.get_group_admins].  The script gives the
    participants the iteration yields and the exception that ends it, if
    any; both [except] clauses return the empty list. *)
Definition get_group_admins (telegram_url : string) : M (list AdminInfo) :=
  match _extract_username (Some telegram_url) with
  | None => ret []
  | Some _ =>
      entity <- next get_entity_at ;;
      match entity with
      | Raises _ => ret []
      | Returns ent =>
          if negb (is_group ent) then ret []
          else
            yielded <- next iter_participants_at ;;
            let (participants, failure) := yielded : list Participant * option TgError in
            let found := admin_infos participants in
            modify_stats (add_admins_found (Z.of_nat (List.length found))) ;;
            match failure with
            | Some _ => ret []
            | None => ret found
            end
      end
  end.

(** The personalisation step of [send_dm]. *)
Definition personalize (message : string) (project_name token_symbol : option string)
    : string :=
  let final_message := message in
  let admin_greeting := "" in
  let final_message :=
    if str_contains "{admin_name_greeting}" message
    then str_replace message "{admin_name_greeting}" admin_greeting
    else final_message in
  let final_message :=
    match project_name with
    | Some n => if truthy project_name
                then str_replace final_message "{project_name}" n
                else final_message
    | None => final_message
    end in
  match token_symbol with
  | Some sy => if truthy token_symbol
               then str_replace final_message "{token_symbol}" sy
               else final_message
  | None => final_message
  end.

(** The [except] clauses of [send_dm]. *)
Definition send_dm_except (e : TgError) : M (bool * option string) :=
  match err_kind e with
  | UserPrivacyRestrictedError =>
      modify_stats (add_dm_failures 1) ;; ret (false, Some "Privacy restricted")
  | UserNotMutualContactError =>
      modify_stats (add_dm_failures 1) ;; ret (false, Some "Not mutual contact")
  | PeerFloodError =>
      modify_stats (add_dm_failures 1) ;; ret (false, Some "Peer flood")
  | FloodWaitError seconds =>
      ret (false, Some ("FloodWait: " ++ str_of_int seconds ++ "s"))
  | _ =>
      modify_stats (add_dm_failures 1) ;; ret (false, Some (err_str e))
  end.

(** [TelegramAutomator.send_dm]. *)
Definition send_dm (username' message : string) (project_name token_symbol : option string)
    : M (bool * option string) :=
  check <- _can_dm ;;
  let (can_dm, wait_time) := check : bool * Z in
  if negb can_dm
  then ret (false, Some ("Rate limited, wait " ++ str_of_int wait_time ++ "s"))
  else
    let final_message := personalize message project_name token_symbol in
    user <- next get_entity_at ;;
    match user with
    | Raises e => send_dm_except e
    | Returns _ =>
        sent <- client_send_message username' final_message ;;
        match sent with
        | Raises e => send_dm_except e
        | Returns _ =>
            now <- datetime_now ;;
            modify_telegram (fun a => with_dm_times a (dm_times a ++ [now])%list) ;;
            modify_stats (add_dms_sent 1) ;;
            a <- get_telegram ;;
            asyncio_sleep (dm_delay a) ;;
            ret (true, None)
        end
    end.

(** The dict [process_project] returns; key [k] is field [r_k]. *)
Record ProcessResult := mkResult {
  r_project_id : Z;
  r_name : option string;
  r_symbol : option string;
  r_joined : bool;
  r_admins_found : Z;
  r_dm_sent : bool;
  r_error : option string
}.

(** How an f-string prints a string-or-None. *)
Definition fmt (o : option string) : string :=
  match o with Some s => s | None => "None" end.

(** [next((a for a in admins if a['is_owner']), admins[0])]. *)
Definition target_of (first : AdminInfo) (rest : list AdminInfo) : AdminInfo :=
  match find is_owner (first :: rest) with
  | Some a => a
  | None => first
  end.

(** The block [# Record admins] of [process_project]: it runs when the
    group id is true, that is neither [None] nor 0. *)
Definition record_admins (project_id group_id : option Z) (found : list AdminInfo) : M unit :=
  match group_id with
  | Some g =>
      if Z.eqb g 0 then ret tt
      else for_each found (fun admin =>
             add_admin project_id group_id (username admin)
                       (Some (str_of_int (user_id admin)))
                       (Some (first_name admin)) (is_owner admin) ;;
             ret tt)
  | None => ret tt
  end.

(** [TelegramAutomator.process_project] on a row of table [projects], with
    the database passed as [db]. *)
Definition process_project (project : ProjectRow) (message_template : string)
    : M ProcessResult :=
  let project_id := Some (p_id project) in
  let result joined' found sent error :=
    mkResult (p_id project) (p_name project) (p_symbol project) joined' found sent error in
  match p_telegram_url project with
  | None => ret (result false 0 false (Some "No Telegram URL"))
  | Some telegram_url =>
      if negb (truthy (Some telegram_url))
      then ret (result false 0 false (Some "No Telegram URL"))
      else
        (* Step 1: join group *)
        attempt <- join_group telegram_url ;;
        let (joined', join_error) := attempt : bool * option string in
        if negb joined'
        then
          add_telegram_group project_id telegram_url false join_error ;;
          ret (result false 0 false (Some ("Join failed: " ++ fmt join_error)))
        else
          group_id <- add_telegram_group project_id telegram_url true None ;;
          (* Step 2: get admins *)
          found <- get_group_admins telegram_url ;;
          match found with
          | [] => ret (result true 0 false (Some "No admins found"))
          | first :: rest =>
              record_admins project_id group_id found ;;
              (* Step 3: send DM to first admin (prefer owner) *)
              let target_admin := target_of first rest in
              dm <- send_dm (username target_admin) message_template
                            (p_name project) (p_symbol project) ;;
              let (sent, dm_error) := dm : bool * option string in
              uncontacted_admins <- get_uncontacted_admins project_id ;;
              let admin_id :=
                option_map a_id
                  (find (fun ua => String.eqb (a_username ua) (username target_admin))
                        uncontacted_admins) in
              add_message project_id admin_id message_template (Some "default")
                          sent dm_error ;;
              ret (result true (Z.of_nat (List.length found)) sent
                          (if sent then None else Some ("DM failed: " ++ fmt dm_error)))
          end
  end.

(* ====================================================================== *)
(** ** [AutonomousScraper._scrape_cycle] *)
(* ====================================================================== *)

(** The configuration entries the cycle reads. *)
Record Config := mkConfig {
  urls_to_monitor : list string;           (* dexscreener.urls_to_monitor *)
  google_index_enabled : bool;             (* google_index.enabled *)
  only_target_unindexed : bool;            (* google_index.only_target_unindexed *)
  cooldown_after_dm_minutes : Z;           (* monitoring.cooldown_after_dm_minutes *)
  cooldown_after_join_minutes : Z;         (* monitoring.cooldown_after_join_minutes *)
  message_template : string                (* telegram.message_template *)
}.

Definition chain_of_url (url : string) : option string :=
  if str_contains "solana" url then Some "solana"
  else if str_contains "ethereum" url then Some "ethereum"
  else if str_contains "base" url then Some "base"
  else None.

(** The set [chains], listed in the order its members are first added
    (Python leaves the iteration order of a set open). *)
Fixpoint chains_of (urls : list string) (chains : list string) : list string :=
  match urls with
  | [] => chains
  | url :: rest =>
      match chain_of_url url with
      | Some c => chains_of rest (if str_in c chains then chains else chains ++ [c])%list
      | None => chains_of rest chains
      end
  end.

Definition address_eqb (a b : option string) : bool :=
  match a, b with
  | Some x, Some y => String.eqb x y
  | None, None => true
  | _, _ => false
  end.

(** [for token in tokens: if token.get('address') not in skip_addresses:
    new_tokens.append(token); skip_addresses.add(token['address'])].  The
    dicts of the discovery client always carry the key ['address'], so the
    subscript reads what [get] reads. *)
Fixpoint keep_new (tokens : list Token) (skip_addresses : list (option string))
    (new_tokens : list Token) : list (option string) * list Token :=
  match tokens with
  | [] => (skip_addresses, new_tokens)
  | token :: rest =>
      if existsb (address_eqb (address token)) skip_addresses
      then keep_new rest skip_addresses new_tokens
      else keep_new rest (address token :: skip_addresses) (new_tokens ++ [token])%list
  end.

(** [for chain in chains: tokens = self.dex_scraper.scrape_with_filters(...)]
    followed by the loop above. *)
Fixpoint scrape_chains (chains : list string) (skip_addresses : list (option string))
    (new_tokens : list Token) : M (list Token) :=
  match chains with
  | [] => ret new_tokens
  | _ :: rest =>
      tokens <- next scrape_with_filters_at ;;
      let (skip', new') := keep_new tokens skip_addresses new_tokens in
      scrape_chains rest skip' new'
  end.

(** The addresses the cycle collects in [skip_addresses] before scraping. *)
Definition addresses_to_skip : M (list (option string)) :=
  known <- get_uncontacted_projects 1000 false ;;
  ret (map (fun p => Some (p_contract_address p))
           (filter (fun p => negb (String.eqb (p_contract_address p) "")) known)).

(** The first half of [_scrape_cycle], up to the list [new_tokens]. *)
Definition scrape_new_tokens (config : Config) : M (list Token) :=
  skip_addresses <- addresses_to_skip ;;
  let chains := chains_of (urls_to_monitor config) [] in
  let chains := match chains with [] => ["solana"] | _ => chains end in
  scrape_chains chains skip_addresses [].

(** [AutonomousScraper._check_indexes]. *)
Definition _check_indexes (tokens : list Token) : M unit :=
  for_each (filter (fun t => truthy (website t)) tokens) (fun token =>
    project <- get_project None (address token) ;;
    match project with
    | None => ret tt
    | Some p =>
        probe <- next check_indexed_at ;;
        match probe with
        | Some is_indexed => update_index_status (Some (p_id p)) is_indexed
        | None => ret tt
        end
    end).

(** The loop of [_scrape_cycle] over [to_process]. *)
Definition process_all (config : Config) (to_process : list ProjectRow) : M unit :=
  for_each to_process (fun project =>
    result <- process_project project (message_template config) ;;
    if r_dm_sent result
    then asyncio_sleep (cooldown_after_dm_minutes config * 60)
    else if r_joined result
         then asyncio_sleep (cooldown_after_join_minutes config * 60)
         else ret tt).

(** [AutonomousScraper._scrape_cycle]. *)
Definition _scrape_cycle (config : Config) : M unit :=
  match urls_to_monitor config with
  | [] => ret tt
  | _ :: _ =>
      new_tokens <- scrape_new_tokens config ;;
      match new_tokens with
      | [] => ret tt
      | _ :: _ =>
          for_each new_tokens (fun token => add_project token ;; ret tt) ;;
          (if google_index_enabled config then _check_indexes new_tokens else ret tt) ;;
          to_process <- get_uncontacted_projects 20 (only_target_unindexed config) ;;
          process_all config to_process
      end
  end.

(** A world at start-up: nothing consumed, nothing slept, nothing sent. *)
Definition initial_world (s : Script) (d : Db) (a : TelegramAutomator) : World :=
  mkWorld s 0 d a [] [].


(** The two action classes of the rate limiter, and per class: the
    ceiling, the window, and the check. *)
Inductive ActionClass := JoinClass | MessageClass.

Definition ceiling (c : ActionClass) (a : TelegramAutomator) : Z :=
  match c with
  | JoinClass => max_joins_per_hour a
  | MessageClass => max_dms_per_hour a
  end.

Definition window (c : ActionClass) (a : TelegramAutomator) : list datetime :=
  match c with
  | JoinClass => join_times a
  | MessageClass => dm_times a
  end.

Definition can_proceed (c : ActionClass) : M (bool * Z) :=
  match c with
  | JoinClass => _can_join
  | MessageClass => _can_dm
  end.

(* ====================================================================== *)
(** ** Observations used to state the properties *)
(* ====================================================================== *)

(** The number of rows of [projects] with a given contract address. *)
Definition lead_rows (addr : string) (d : Db) : Z :=
  count (has_address addr) (projects d).

(** The number of rows of [daily_metrics] with a given date. *)
Definition rows_on (dt : date) (d : Db) : Z :=
  count (fun r => Z.eqb (dm_date r) dt) (daily_metrics d).

(** The value of a counter on a date: the column of that date's row, and 0
    when the date has no row. *)
Definition metric_on (metric : Metric) (dt : date) (d : Db) : Z :=
  match select_daily_metrics dt d with
  | Some r => counter metric r
  | None => 0
  end.

(** The UNIQUE constraint on [daily_metrics.date]. *)
Definition one_row_per_date (d : Db) : Prop :=
  NoDup (map dm_date (daily_metrics d)).

(** The two statements of [_increment_daily_metric] on a database. *)
Definition incremented (metric : Metric) (amount : Z) (today : date) (d : Db) : Db :=
  update_daily_metrics metric amount today (insert_or_ignore_daily_metrics today d).

(** No character of [s] is an opening brace. *)
Fixpoint brace_free (s : string) : bool :=
  match s with
  | EmptyString => true
  | String c s' => negb (Ascii.eqb c "{") && brace_free s'
  end.

(** The UNIQUE(project_id, telegram_url) test of [telegram_groups]. *)
Definition group_recorded (project_id : option Z) (telegram_url : string) (d : Db) : bool :=
  existsb (fun g => sql_eq (g_project_id g) project_id
                    && String.eqb (g_telegram_url g) telegram_url)
          (telegram_groups d).

(** The text both classes return on a denial. *)
Definition rate_limited_text (wait : Z) : string :=
  "Rate limited, wait " ++ str_of_int wait ++ "s".

(** One placeholder filled in: every occurrence replaced by the value, when
    there is a value and it is not empty. *)
Definition substituted (placeholder : string) (value : option string) (text : string)
    : string :=
  match value with
  | Some v => if String.eqb v "" then text else str_replace text placeholder v
  | None => text
  end.

(** What stands at the place of a placeholder in the text sent. *)
Definition shown (placeholder : string) (value : option string) : string :=
  match value with
  | Some v => if String.eqb v "" then placeholder else v
  | None => placeholder
  end.

(** The position of a status in the funnel
    [discovered -> joined -> contacted -> {responded, converted}]. *)
Definition rank (s : Status) : Z :=
  match s with
  | discovered => 0
  | joined => 1
  | contacted => 2
  | responded => 3
  | converted => 3
  end.

(** The PRIMARY KEY AUTOINCREMENT of [projects]: the ids are distinct and
    none exceeds the largest rowid handed out. *)
Definition leads_ok (d : Db) : Prop :=
  NoDup (map p_id (projects d))
  /\ Forall (fun r => p_id r <= projects_seq d) (projects d).

(** Every lead of [d] is still a lead of [d'], with a status that is not
    earlier in the funnel. *)
Definition advanced (d d' : Db) : Prop :=
  forall r, In r (projects d) ->
    exists r', In r' (projects d')
               /\ p_id r' = p_id r
               /\ rank (p_status r) <= rank (p_status r').

(** One step of the daemon loop of [AutonomousScraper.run]: a cycle, or
    the logging of the exception a cycle raised. *)
Inductive pipeline_step : World -> World -> Prop :=
| cycle_step (config : Config) (w : World) :
    pipeline_step w (snd (_scrape_cycle config w))
| error_step (error_type error_message : string) (context : option string) (w : World) :
    pipeline_step w (snd (log_error error_type error_message context w)).

(** Any number of steps. *)
Inductive runs : World -> World -> Prop :=
| runs_here (w : World) : runs w w
| runs_on (w w1 w2 : World) : pipeline_step w w1 -> runs w1 w2 -> runs w w2.

(** A computation whose final world is related by [R] to the world it
    starts in, whether it returns or raises. *)
Definition preserves {A : Type} (R : World -> World -> Prop) (c : M A) : Prop :=
  forall w, R w (snd (c w)).

(** The leads keep their ids and number, and only leads whose id satisfies
    [P] may change status. *)
Definition steady (P : Z -> Prop) (w w' : World) : Prop :=
  projects_seq (db w') = projects_seq (db w)
  /\ exists g : ProjectRow -> ProjectRow,
       projects (db w') = map g (projects (db w))
       /\ (forall r, p_id (g r) = p_id r)
       /\ (forall r, ~ P (p_id r) -> p_status (g r) = p_status r).

(** Leads are only added, at the end of the table. *)
Definition grown (w w' : World) : Prop :=
  (leads_ok (db w) -> leads_ok (db w'))
  /\ exists extra, projects (db w') = (projects (db w) ++ extra)%list.

(** From a well-keyed table of leads, the later state is well keyed and no
    lead has moved backwards. *)
Definition forward (w w' : World) : Prop :=
  leads_ok (db w) -> leads_ok (db w') /\ advanced (db w) (db w').

(* ====================================================================== *)
(** ** Sample data *)
(* ====================================================================== *)

(** A world whose clocks advance one second per interaction from the start
    of day 1000, whose Telegram calls all succeed on a group of which the
    client is not yet a member, with two human admins (the second one the
    owner) and a bot, and whose discovery returns one token. *)
Definition sample_token : Token :=
  mkToken (Some "ADDR1") (Some "Foo") (Some "FOO") (Some "solana") None
          (Some "https://t.me/foogroup") None None None None None None None None.

Definition second_token : Token :=
  mkToken (Some "ADDR2") (Some "Bar") (Some "BAR") (Some "solana")
          (Some "https://bar.example") None None None None None None None None None.

Definition sample_script : Script :=
  mkScript (fun n => Z.of_nat n * 1000000 + 1000 * day)
           (fun n => Z.of_nat n + 86400000)
           (fun _ => Returns Channel)
           (fun _ => Raises (mkTgError ChatAdminRequiredError "chat admin required"))
           (fun _ => Returns tt)
           (fun _ => ([mkParticipant (Some "alice") 11 (Some "Alice") false false;
                       mkParticipant (Some "bob") 12 None false true;
                       mkParticipant (Some "helperbot") 13 None true false], None))
           (fun _ => Returns tt)
           (fun _ => [sample_token])
           (fun _ => None).

Definition sample_config : Config :=
  mkConfig ["https://dexscreener.com/solana"] true false 15 5
           "Hi {project_name} ({token_symbol})".

Definition sample_world : World :=
  initial_world sample_script empty_db (new_automator 30 60 10 5).

(** An automator whose ceilings are 2 joins and 1 message per hour and
    whose windows are full: joins 30 and 10 minutes before the start of day
    1000, a message 20 minutes before. *)
Definition busy_automator : TelegramAutomator :=
  mkAutomator 30 60 2 1
              [1000 * day - 1800000000; 1000 * day - 600000000]
              [1000 * day - 1200000000]
              (mkStats 2 0 1 0 0).

Definition busy_world : World :=
  initial_world sample_script empty_db busy_automator.

(** A store with three messages sent successfully, the first of them
    answered. *)
Definition sent_message (rowid : Z) (answered : bool) : MessageRow :=
  mkMessage rowid (Some 1) (Some rowid) "Hi" (Some "default") (Some 86400000)
            true None answered None None false None.

Definition three_sent_db : Db :=
  with_messages empty_db
    [sent_message 1 true; sent_message 2 false; sent_message 3 false] 3.

Definition three_sent_world : World :=
  initial_world sample_script three_sent_db (new_automator 30 60 10 5).

(** The configuration of the sample with a template written with the
    placeholders [{name}] and [{symbol}]. *)
Definition name_symbol_config : Config :=
  mkConfig ["https://dexscreener.com/solana"] true false 15 5
           "Hi {name} ({symbol})".

(** The sample world, except that the client is already a member of the
    group: [get_participants] returns. *)
Definition member_script : Script :=
  mkScript (now_at sample_script) (current_timestamp_at sample_script)
           (get_entity_at sample_script) (fun _ => Returns tt)
           (join_channel_at sample_script) (iter_participants_at sample_script)
           (send_message_at sample_script) (scrape_with_filters_at sample_script)
           (check_indexed_at sample_script).

Definition member_world : World :=
  initial_world member_script empty_db (new_automator 30 60 10 5).

(** The client is already a member and the join window is full (joins 30
    and 10 minutes ago, ceiling 2). *)
Definition busy_member_world : World :=
  initial_world member_script empty_db busy_automator.

(** The client is already a member and the join window holds one join made
    two hours ago. *)
Definition stale_member_world : World :=
  initial_world member_script empty_db
    (mkAutomator 30 60 10 5 [1000 * day - 2 * hour] [] (mkStats 1 0 0 0 0)).

(** The sample lead as [add_project] stores it, and a store holding it. *)
Definition sample_lead : ProjectRow := project_row 1 "ADDR1" sample_token 86400000.

Definition one_lead_db : Db := with_projects empty_db [sample_lead] 1.

Definition join_busy_world : World :=
  initial_world sample_script one_lead_db busy_automator.

(** An automator with room for joins and a full message window. *)
Definition dm_busy_automator : TelegramAutomator :=
  mkAutomator 30 60 10 1 [] [1000 * day - 1200000000] (mkStats 0 0 1 0 0).

Definition dm_busy_world : World :=
  initial_world sample_script one_lead_db dm_busy_automator.

(** The stages of [process_project] on the sample lead in [dm_busy_world]:
    after the join, after the recording of the group, after the admins are
    listed, after they are recorded. *)
Definition dm_busy_joined : World :=
  snd (join_group "https://t.me/foogroup" dm_busy_world).
Definition dm_busy_grouped : World :=
  snd (add_telegram_group (Some 1) "https://t.me/foogroup" true None dm_busy_joined).
Definition dm_busy_listed : World :=
  snd (get_group_admins "https://t.me/foogroup" dm_busy_grouped).
Definition sample_admins : list AdminInfo :=
  [mkAdminInfo "alice" 11 "Alice" false; mkAdminInfo "bob" 12 "" true].
Definition dm_busy_recorded : World :=
  snd (record_admins (Some 1) (Some 1) sample_admins dm_busy_listed).

(** The sample world with the sample lead already stored, and a discovery
    that returns another token: the cycle then processes the stored lead. *)
Definition second_script : Script :=
  mkScript (now_at sample_script) (current_timestamp_at sample_script)
           (get_entity_at sample_script) (get_participants_at sample_script)
           (join_channel_at sample_script) (iter_participants_at sample_script)
           (send_message_at sample_script) (fun _ => [second_token])
           (check_indexed_at sample_script).

Definition stored_lead_world : World :=
  initial_world second_script one_lead_db (new_automator 30 60 10 5).

(** The world one cycle after start-up: the sample lead is stored and has
    been contacted. *)
Definition after_first_cycle : World := snd (_scrape_cycle sample_config sample_world).

(** The sample world with a ceiling of two joins per hour, and with a
    ceiling of zero. *)
Definition two_joins_world : World :=
  initial_world sample_script empty_db (new_automator 30 60 2 5).

Definition zero_ceiling_world : World :=
  initial_world sample_script empty_db (new_automator 30 60 0 0).

(* ====================================================================== *)
(** ** The rest of the three classes *)
(* ====================================================================== *)

(** [LeadDatabase.get_projects_needing_index_check]. *)
Definition get_projects_needing_index_check (limit : Z) : M (list ProjectRow) :=
  d <- get_db ;;
  ret (sql_limit limit
         (order_by_discovered_at_desc
            (filter (fun p => is_some (p_website p)
                              && negb (is_some (p_is_indexed p)))
                    (projects d)))).

(** The dict [TelegramAutomator.get_stats] returns: the session counters
    and what is left of each hourly ceiling. *)
Record SessionStats := mkSessionStats {
  gs_stats : Stats;
  gs_joins_remaining_this_hour : Z;
  gs_dms_remaining_this_hour : Z
}.

(** [TelegramAutomator.get_stats]. *)
Definition get_stats : M SessionStats :=
  a <- get_telegram ;;
  ret (mkSessionStats (stats a)
         (Z.max 0 (max_joins_per_hour a - Z.of_nat (List.length (join_times a))))
         (Z.max 0 (max_dms_per_hour a - Z.of_nat (List.length (dm_times a))))).

(** [datetime.now().hour] of a clock reading. *)
Definition hour_of (t : datetime) : Z := (t mod day) / hour.

(** [AutonomousScraper._is_active_hours]: [active_hours] is the
    [monitoring.active_hours] entry, [None] when it is missing or empty,
    else its [start] and [end] (0 and 24 when a key is missing). *)
Definition _is_active_hours (active_hours : option (Z * Z)) : M bool :=
  match active_hours with
  | None => ret true
  | Some (start, end') =>
      now <- datetime_now ;;
      let current_hour := hour_of now in
      if Z.leb start end'
      then ret (Z.leb start current_hour && Z.ltb current_hour end')
      else ret (Z.leb start current_hour || Z.ltb current_hour end')
  end.

(* ====================================================================== *)
(** ** More observations *)
(* ====================================================================== *)

(** The UNIQUE(project_id, username) test of [admins]. *)
Definition admin_recorded (project_id : option Z) (username' : string) (d : Db) : bool :=
  existsb (fun a => sql_eq (a_project_id a) project_id
                    && String.eqb (a_username a) username')
          (admins d).

(** Newest first: the order of [ORDER BY discovered_at DESC]. *)
Definition newest_first (l : list ProjectRow) : Prop :=
  StronglySorted (fun a b => p_discovered_at b <= p_discovered_at a) l.

(** Every character of [s] is in the class [[a-zA-Z0-9_]]. *)
Fixpoint all_word (s : string) : bool :=
  match s with
  | EmptyString => true
  | String c s' => is_word c && all_word s'
  end.

(** [s] starts with a character of the class. *)
Definition starts_with_word (s : string) : bool :=
  match s with
  | EmptyString => false
  | String c _ => is_word c
  end.

(** The captures [_extract_username] passes over. *)
Definition reserved_words : list string := ["joinchat"; "share"; "addstickers"].

(** The window of class [c] holds no more actions than its ceiling. *)
Definition within_ceiling (c : ActionClass) (a : TelegramAutomator) : Prop :=
  Z.of_nat (List.length (window c a)) <= ceiling c a.

(** The settings of the automator are the same in [a] and [a']. *)
Definition same_limits (a a' : TelegramAutomator) : Prop :=
  max_joins_per_hour a' = max_joins_per_hour a
  /\ max_dms_per_hour a' = max_dms_per_hour a
  /\ join_delay a' = join_delay a
  /\ dm_delay a' = dm_delay a.

(** What [min] raises on an empty list. *)
Definition min_of_empty : Exn := ValueError "min() arg is an empty sequence".

(** [l'] is [l] with rows added at its end. *)
Definition extends {A : Type} (l l' : list A) : Prop :=
  exists extra, l' = (l ++ extra)%list.

(** From [d] to [d'] no row of the outreach tables or of the error log is
    removed or changed, and no daily counter goes down. *)
Definition store_grows (d d' : Db) : Prop :=
  extends (telegram_groups d) (telegram_groups d')
  /\ extends (admins d) (admins d')
  /\ extends (messages d) (messages d')
  /\ extends (error_log d) (error_log d')
  /\ forall m dt, metric_on m dt d <= metric_on m dt d'.

(** The settings are kept, and so is every window that is within its
    ceiling. *)
Definition budget_kept (a a' : TelegramAutomator) : Prop :=
  same_limits a a' /\ forall c, within_ceiling c a -> within_ceiling c a'.

(** The rows of [messages] that stand for no call of
    [client.send_message]: rows minus calls. *)
Definition unsent_rows (w : World) : Z :=
  Z.of_nat (List.length (messages (db w))) - Z.of_nat (List.length (send_calls w)).

(** A step of a database method: the Telegram side is left alone and the
    store grows. *)
Definition db_step (w w' : World) : Prop :=
  automator w' = automator w
  /\ slept w' = slept w
  /\ send_calls w' = send_calls w
  /\ store_grows (db w) (db w').

(** A step of an automator method that sends nothing. *)
Definition tg_step (w w' : World) : Prop :=
  db w' = db w
  /\ send_calls w' = send_calls w
  /\ budget_kept (automator w) (automator w').

(** What every step of the pipeline keeps. *)
Definition sound_step (w w' : World) : Prop :=
  store_grows (db w) (db w')
  /\ budget_kept (automator w) (automator w')
  /\ unsent_rows w <= unsent_rows w'.

(** What the loop over the discovered tokens keeps true, [known] being the
    addresses collected before discovery: [skip_addresses] holds [known]
    and the addresses of [new_tokens]; these are pairwise distinct and
    none is in [known]. *)
Definition skip_invariant (known skip_addresses : list (option string))
    (new_tokens : list Token) : Prop :=
  (forall a, In a skip_addresses <-> In a known \/ In a (map address new_tokens))
  /\ NoDup (map address new_tokens)
  /\ forall t, In t new_tokens -> ~ In (address t) known.

(** A step that neither sends a message nor touches the table
    [messages]. *)
Definition quiet_step (w w' : World) : Prop :=
  messages (db w') = messages (db w) /\ send_calls w' = send_calls w.

(** The body of the loop of [_check_indexes], on one token that has a
    website. *)
Definition index_check (token : Token) : M unit :=
  project <- get_project None (address token) ;;
  match project with
  | None => ret tt
  | Some p =>
      probe <- next check_indexed_at ;;
      match probe with
      | Some is_indexed => update_index_status (Some (p_id p)) is_indexed
      | None => ret tt
      end
  end.

(** From [w] to [w'] the leads keep their addresses and each index status
    is either as it was or the verdict [b]; the script is the same. *)
Definition verdict_kept (b : bool) (w w' : World) : Prop :=
  script w' = script w
  /\ exists g : ProjectRow -> ProjectRow,
       projects (db w') = map g (projects (db w))
       /\ forall r, p_contract_address (g r) = p_contract_address r
                    /\ (p_is_indexed (g r) = p_is_indexed r \/ p_is_indexed (g r) = Some b).

(** A lead with address [a] is stored in [d]. *)
Definition stored (a : string) (d : Db) : Prop :=
  exists r, In r (projects d) /\ p_contract_address r = a.

(* ====================================================================== *)
(** ** The states a run passes through *)
(* ====================================================================== *)

(** The worlds a loop passes through: the world after each turn, up to and
    including a turn that raises. *)
Fixpoint for_each_stages {A : Type} (l : list A) (body : A -> M unit) (w : World)
    : list World :=
  match l with
  | [] => []
  | x :: l' =>
      match body x w with
      | (Ok _, w1) => w1 :: for_each_stages l' body w1
      | (Raise _, w1) => [w1]
      end
  end.

(** The worlds [process_project] passes through, one after each call it
    makes: after [join_group], after the recording of the attempt
    ([add_telegram_group]), after [get_group_admins], after the recording
    of the admins, after [send_dm], and after the recording of the message
    ([get_uncontacted_admins] and [add_message]).  [update_project_status]
    is the last statement of [add_telegram_group] and of [add_message], so
    between two status writes there is always one of these worlds. *)
Definition process_stages (project : ProjectRow) (message_template : string) (w : World)
    : list World :=
  let project_id := Some (p_id project) in
  match p_telegram_url project with
  | None => []
  | Some telegram_url =>
      if negb (truthy (Some telegram_url)) then []
      else
        match join_group telegram_url w with
        | (Raise _, w1) => [w1]
        | (Ok (joined', join_error), w1) =>
            if negb joined'
            then [w1; snd (add_telegram_group project_id telegram_url false join_error w1)]
            else
              match add_telegram_group project_id telegram_url true None w1 with
              | (Raise _, w2) => [w1; w2]
              | (Ok group_id, w2) =>
                  match get_group_admins telegram_url w2 with
                  | (Raise _, w3) => [w1; w2; w3]
                  | (Ok [], w3) => [w1; w2; w3]
                  | (Ok (first :: rest), w3) =>
                      match record_admins project_id group_id (first :: rest) w3 with
                      | (Raise _, w4) => [w1; w2; w3; w4]
                      | (Ok _, w4) =>
                          let target_admin := target_of first rest in
                          match send_dm (username target_admin) message_template
                                        (p_name project) (p_symbol project) w4 with
                          | (Raise _, w5) => [w1; w2; w3; w4; w5]
                          | (Ok (sent, dm_error), w5) =>
                              [w1; w2; w3; w4; w5;
                               snd ((uncontacted_admins <- get_uncontacted_admins project_id ;;
                                     let admin_id :=
                                       option_map a_id
                                         (find (fun ua => String.eqb (a_username ua)
                                                            (username target_admin))
                                               uncontacted_admins) in
                                     add_message project_id admin_id message_template
                                                 (Some "default") sent dm_error) w5)]
                          end
                      end
                  end
              end
        end
  end.

(** The cooldown of the loop of [_scrape_cycle] after one lead. *)
Definition cooldown (config : Config) (result : ProcessResult) : M unit :=
  if r_dm_sent result
  then asyncio_sleep (cooldown_after_dm_minutes config * 60)
  else if r_joined result
       then asyncio_sleep (cooldown_after_join_minutes config * 60)
       else ret tt.

(** The worlds the loop over [to_process] passes through: for each lead
    the worlds of [process_project], then the world after the cooldown. *)
Fixpoint process_all_stages (config : Config) (to_process : list ProjectRow) (w : World)
    : list World :=
  match to_process with
  | [] => []
  | project :: rest =>
      (process_stages project (message_template config) w
       ++ match process_project project (message_template config) w with
          | (Raise _, _) => []
          | (Ok result, w1) =>
              let w2 := snd (cooldown config result w1) in
              w2 :: process_all_stages config rest w2
          end)%list
  end.

(** The worlds [_scrape_cycle] passes through: after the discovery, after
    each [add_project], after each index check, and the worlds of the loop
    over the leads to process. *)
Definition cycle_stages (config : Config) (w : World) : list World :=
  match urls_to_monitor config with
  | [] => []
  | _ :: _ =>
      match scrape_new_tokens config w with
      | (Raise _, w1) => [w1]
      | (Ok [], w1) => [w1]
      | (Ok (token :: tokens), w1) =>
          let new_tokens := token :: tokens in
          let add := fun token => add_project token ;; ret tt in
          let checked := if google_index_enabled config
                         then filter (fun t => truthy (website t)) new_tokens
                         else [] in
          (w1 :: for_each_stages new_tokens add w1
              ++ match for_each new_tokens add w1 with
                 | (Raise _, _) => []
                 | (Ok _, w2) =>
                     for_each_stages checked index_check w2
                     ++ match for_each checked index_check w2 with
                        | (Raise _, _) => []
                        | (Ok _, w3) =>
                            match get_uncontacted_projects
                                    20 (only_target_unindexed config) w3 with
                            | (Ok to_process, w4) => process_all_stages config to_process w4
                            | (Raise _, _) => []
                            end
                        end
                 end)%list
      end
  end.

(** A run of the daemon loop from [w] to [w'], with the worlds it passes
    through after [w], in order. *)
Inductive run_trace : World -> list World -> World -> Prop :=
| trace_end (w : World) : run_trace w [] w
| trace_cycle (config : Config) (w w' : World) (t : list World) :
    run_trace (snd (_scrape_cycle config w)) t w' ->
    run_trace w (cycle_stages config w ++ t)%list w'
| trace_error (error_type error_message : string) (context : option string)
    (w w' : World) (t : list World) :
    run_trace (snd (log_error error_type error_message context w)) t w' ->
    run_trace w (snd (log_error error_type error_message context w) :: t) w'.

(** Each world of [l] is related to the one before it, the first to [w]. *)
Fixpoint linked (R : World -> World -> Prop) (w : World) (l : list World) : Prop :=
  match l with
  | [] => True
  | v :: l' => R w v /\ linked R v l'
  end.

(** The leads keep their place, their ids and their number, and no status
    is at an earlier stage than it was. *)
Definition moved (w w' : World) : Prop :=
  projects_seq (db w') = projects_seq (db w)
  /\ exists g : ProjectRow -> ProjectRow,
       projects (db w') = map g (projects (db w))
       /\ forall r, In r (projects (db w)) ->
                    p_id (g r) = p_id r
                    /\ rank (p_status r) <= rank (p_status (g r)).

(** Every row of lead [i] is at stage [k] of the funnel or before. *)
Definition at_most (i : Z) (k : Z) (w : World) : Prop :=
  forall r, In r (projects (db w)) -> p_id r = i -> rank (p_status r) <= k.

(* ====================================================================== *)
(** * Properties *)
(* ====================================================================== *)

(** ** Rate limiter *)

Lemma prune_keeps_all (h : datetime) (l : list datetime) :
  Forall (fun t => h < t) l -> prune h l = l.
Proof.
  induction 1 as [|t l Ht _ IH]; simpl; [reflexivity|].
  destruct (Z.ltb_spec h t); [now rewrite IH | lia].
Qed.

Lemma prune_length (h : datetime) (l : list datetime) :
  (List.length (prune h l) <= List.length l)%nat.
Proof.
  induction l as [|t l IH]; simpl; [lia|].
  destruct (Z.ltb h t); simpl; lia.
Qed.

Lemma prune_In (h t : datetime) (l : list datetime) :
  In t (prune h l) -> h < t.
Proof.
  unfold prune. rewrite filter_In. intros [_ H]. now apply Z.ltb_lt.
Qed.

Lemma fold_min_first (first : datetime) (rest : list datetime) :
  Forall (fun t => first <= t) rest -> fold_left Z.min rest first = first.
Proof.
  induction 1 as [|t l Ht _ IH]; simpl; [reflexivity|].
  now rewrite Z.min_l.
Qed.

Lemma can_join_denied (w : World) (first : datetime) (rest : list datetime) :
  let now := now_at (script w) (tick w) in
  join_times (automator w) = first :: rest ->
  Z.of_nat (List.length (first :: rest)) = max_joins_per_hour (automator w) ->
  Forall (fun t => first <= t) rest ->
  now < first + hour ->
  exists w', _can_join w = (Ok (false, Z.quot (first + hour - now) 1000000), w')
             /\ join_times (automator w') = first :: rest.
Proof.
  intros now Hw Hn Hall Hlt. unfold _can_join, bind, datetime_now, next. simpl.
  fold now. rewrite Hw.
  assert (Hkeep : prune (now - hour) (first :: rest) = first :: rest).
  { apply prune_keeps_all. constructor; [lia|].
    eapply Forall_impl; [|exact Hall]. simpl. intros; lia. }
  rewrite Hkeep, <- Hn, Z.leb_refl. simpl.
  rewrite fold_min_first by exact Hall.
  unfold ret, int_total_seconds.
  rewrite Z.max_r by (apply Z.quot_pos; lia).
  eexists. split; reflexivity.
Qed.

Lemma can_join_freed (w : World) (first : datetime) (rest : list datetime) :
  let now := now_at (script w) (tick w) in
  join_times (automator w) = first :: rest ->
  Z.of_nat (List.length (first :: rest)) = max_joins_per_hour (automator w) ->
  first + hour <= now ->
  exists w', _can_join w = (Ok (true, 0), w')
             /\ ~ In first (join_times (automator w')).
Proof.
  intros now Hw Hn Hge. unfold _can_join, bind, datetime_now, next. simpl.
  fold now. rewrite Hw. simpl.
  destruct (Z.ltb_spec (now - hour) first) as [Hc|_]; [lia|].
  pose proof (prune_length (now - hour) rest) as Hlen.
  destruct (Z.leb_spec (max_joins_per_hour (automator w))
                       (Z.of_nat (List.length (prune (now - hour) rest)))) as [Hc|_].
  { simpl in Hn. lia. }
  eexists. split; [reflexivity|]. simpl.
  intros Hin. apply prune_In in Hin. lia.
Qed.

Lemma can_dm_denied (w : World) (first : datetime) (rest : list datetime) :
  let now := now_at (script w) (tick w) in
  dm_times (automator w) = first :: rest ->
  Z.of_nat (List.length (first :: rest)) = max_dms_per_hour (automator w) ->
  Forall (fun t => first <= t) rest ->
  now < first + hour ->
  exists w', _can_dm w = (Ok (false, Z.quot (first + hour - now) 1000000), w')
             /\ dm_times (automator w') = first :: rest.
Proof.
  intros now Hw Hn Hall Hlt. unfold _can_dm, bind, datetime_now, next. simpl.
  fold now. rewrite Hw.
  assert (Hkeep : prune (now - hour) (first :: rest) = first :: rest).
  { apply prune_keeps_all. constructor; [lia|].
    eapply Forall_impl; [|exact Hall]. simpl. intros; lia. }
  rewrite Hkeep, <- Hn, Z.leb_refl. simpl.
  rewrite fold_min_first by exact Hall.
  unfold ret, int_total_seconds.
  rewrite Z.max_r by (apply Z.quot_pos; lia).
  eexists. split; reflexivity.
Qed.

Lemma can_dm_freed (w : World) (first : datetime) (rest : list datetime) :
  let now := now_at (script w) (tick w) in
  dm_times (automator w) = first :: rest ->
  Z.of_nat (List.length (first :: rest)) = max_dms_per_hour (automator w) ->
  first + hour <= now ->
  exists w', _can_dm w = (Ok (true, 0), w')
             /\ ~ In first (dm_times (automator w')).
Proof.
  intros now Hw Hn Hge. unfold _can_dm, bind, datetime_now, next. simpl.
  fold now. rewrite Hw. simpl.
  destruct (Z.ltb_spec (now - hour) first) as [Hc|_]; [lia|].
  pose proof (prune_length (now - hour) rest) as Hlen.
  destruct (Z.leb_spec (max_dms_per_hour (automator w))
                       (Z.of_nat (List.length (prune (now - hour) rest)))) as [Hc|_].
  { simpl in Hn. lia. }
  eexists. split; [reflexivity|]. simpl.
  intros Hin. apply prune_In in Hin. lia.
Qed.

(** C2.  For each action class with ceiling N: when the window holds the N
    actions recorded so far, [first] being the oldest, a check made less
    than 60 minutes after [first] is denied, the wait being the whole
    seconds left until [first] is 60 minutes old; a check made 60 minutes
    after [first] or later prunes [first] and is allowed. *)
Theorem rate_limit_window (c : ActionClass) (w : World)
    (first : datetime) (rest : list datetime) :
  let now := now_at (script w) (tick w) in
  window c (automator w) = first :: rest ->
  Z.of_nat (List.length (first :: rest)) = ceiling c (automator w) ->
  Forall (fun t => first <= t) rest ->
  (now < first + hour ->
   exists w', can_proceed c w = (Ok (false, Z.quot (first + hour - now) 1000000), w')
              /\ window c (automator w') = first :: rest)
  /\ (first + hour <= now ->
      exists w', can_proceed c w = (Ok (true, 0), w')
                 /\ ~ In first (window c (automator w'))).
Proof.
  intros now Hw Hn Hall. destruct c; simpl in *; split; intros Ht.
  - now apply can_join_denied.
  - now apply (can_join_freed w first rest).
  - now apply can_dm_denied.
  - now apply (can_dm_freed w first rest).
Qed.

Lemma rate_limit_window_witness :
  exists w', can_proceed JoinClass busy_world = (Ok (false, 1800), w')
             /\ window JoinClass (automator w')
                = [1000 * day - 1800000000; 1000 * day - 600000000].
Proof.
  refine (proj1 (rate_limit_window JoinClass busy_world
                   (1000 * day - 1800000000) [1000 * day - 600000000]
                   eq_refl eq_refl _) _).
  - repeat constructor. vm_compute. discriminate.
  - vm_compute. reflexivity.
Defined.

(** Through [join_group]: with a ceiling of two, two joins go through and
    the third, a few seconds later, is denied with the time left on the
    first one. *)
Example third_join_is_denied :
  let w1 := snd (join_group "https://t.me/one" two_joins_world) in
  let w2 := snd (join_group "https://t.me/two" w1) in
  fst (join_group "https://t.me/one" two_joins_world) = Ok (true, None)
  /\ fst (join_group "https://t.me/two" w1) = Ok (true, None)
  /\ fst (join_group "https://t.me/three" w2)
     = Ok (false, Some "Rate limited, wait 3594s")
  /\ join_times (automator (snd (join_group "https://t.me/three" w2)))
     = join_times (automator w2).
Proof. repeat split; vm_compute; reflexivity. Qed.

(** With a ceiling of zero there is no oldest entry to wait for: the check
    raises the ValueError of [min] on an empty list. *)
Example zero_ceiling_check_raises :
  fst (_can_join zero_ceiling_world) = Raise (ValueError "min() arg is an empty sequence")
  /\ fst (_can_dm zero_ceiling_world) = Raise (ValueError "min() arg is an empty sequence").
Proof. split; reflexivity. Qed.

(** ** Uncontacted admins *)

Lemma insert_by_username_perm (a : AdminRow) (l : list AdminRow) :
  Permutation (insert_by_username a l) (a :: l).
Proof.
  induction l as [|b l IH]; cbn; [apply Permutation_refl|].
  destruct (String.leb (a_username a) (a_username b)); [apply Permutation_refl|].
  eapply Permutation_trans; [apply perm_skip, IH | apply perm_swap].
Qed.

Lemma order_by_username_perm (l : list AdminRow) : Permutation (order_by_username l) l.
Proof.
  induction l as [|a l IH]; cbn; [constructor|].
  eapply Permutation_trans; [apply insert_by_username_perm | now apply perm_skip].
Qed.

Lemma order_by_username_In (a : AdminRow) (l : list AdminRow) :
  In a (order_by_username l) <-> In a l.
Proof.
  split; apply Permutation_in;
    [apply order_by_username_perm | apply Permutation_sym, order_by_username_perm].
Qed.

Lemma leb_refl_s (s : string) : String.leb s s = true.
Proof. destruct (String.leb_total s s); assumption. Qed.

(** The first row with a given username is the same row in either order. *)
Lemma find_insert_by_username (u : string) (a : AdminRow) (l : list AdminRow) :
  find (fun x => String.eqb (a_username x) u) (insert_by_username a l)
  = find (fun x => String.eqb (a_username x) u) (a :: l).
Proof.
  induction l as [|b l IH]; [reflexivity|]. cbn [insert_by_username].
  destruct (String.leb (a_username a) (a_username b)) eqn:Hle; [reflexivity|].
  cbn [find] in IH |- *. rewrite IH.
  destruct (String.eqb_spec (a_username a) u) as [Ha|Ha];
    destruct (String.eqb_spec (a_username b) u) as [Hb|Hb]; try reflexivity.
  rewrite Ha, Hb, leb_refl_s in Hle. discriminate.
Qed.

Lemma find_order_by_username (u : string) (l : list AdminRow) :
  find (fun x => String.eqb (a_username x) u) (order_by_username l)
  = find (fun x => String.eqb (a_username x) u) l.
Proof.
  induction l as [|a l IH]; [reflexivity|].
  cbn [order_by_username fold_right]. fold (order_by_username l).
  rewrite find_insert_by_username. cbn [find]. now rewrite IH.
Qed.

(** C5.  Every admin [get_uncontacted_admins] returns belongs to the lead
    asked for and is the addressee of no message row with
    [send_success = 1]; the call reads the database and changes nothing. *)
Theorem uncontacted_admins_never_sent (w : World) (project_id : option Z) :
  exists l,
    get_uncontacted_admins project_id w = (Ok l, w)
    /\ forall a, In a l ->
         In a (admins (db w))
         /\ sql_eq (a_project_id a) project_id = true
         /\ forall m, In m (messages (db w)) ->
              m_admin_id m = Some (a_id a) -> m_send_success m = false.
Proof.
  eexists. split; [reflexivity|].
  intros a Ha. apply order_by_username_In, filter_In in Ha. destruct Ha as [Hin Hc].
  apply andb_prop in Hc. destruct Hc as [Hp Hn].
  split; [exact Hin|]. split; [exact Hp|].
  intros m Hm Hid.
  destruct (m_send_success m) eqn:Hs; [|reflexivity].
  apply negb_true_iff in Hn.
  assert (Hex : existsb (sent_to a) (messages (db w)) = true).
  { apply existsb_exists. exists m. split; [exact Hm|].
    unfold sent_to, sql_eq. rewrite Hid, Hs, Z.eqb_refl. reflexivity. }
  congruence.
Qed.

(** The admins come in the order of their usernames, capitals first, not in
    the order in which they were stored. *)
Example uncontacted_admins_in_index_order :
  let stored :=
    snd ((add_admin (Some 1) None "zed" None None false ;;
          add_admin (Some 1) None "alice" None None false ;;
          add_admin (Some 1) None "Bob" None None false) sample_world) in
  map a_username (admins (db stored)) = ["zed"; "alice"; "Bob"]
  /\ match fst (get_uncontacted_admins (Some 1) stored) with
     | Ok l => map a_username l
     | Raise _ => []
     end = ["Bob"; "alice"; "zed"].
Proof. split; vm_compute; reflexivity. Qed.

(** ** Daily metrics *)

Lemma bump_date (m : Metric) (amount : Z) (r : MetricRow) :
  dm_date (bump m amount r) = dm_date r.
Proof. destruct r, m; reflexivity. Qed.

Lemma counter_bump_same (m : Metric) (amount : Z) (r : MetricRow) :
  counter m (bump m amount r) = counter m r + amount.
Proof. destruct r, m; reflexivity. Qed.

Lemma counter_bump_other (m m' : Metric) (amount : Z) (r : MetricRow) :
  m' <> m -> counter m' (bump m amount r) = counter m' r.
Proof. destruct r, m, m'; intros H; try reflexivity; congruence. Qed.

Lemma increment_run (m : Metric) (amount : Z) (w : World) :
  _increment_daily_metric m amount w
  = (Ok tt,
     mkWorld (script w) (S (tick w))
             (incremented m amount (date_of (now_at (script w) (tick w))) (db w))
             (automator w) (slept w) (send_calls w)).
Proof. reflexivity. Qed.

Lemma find_date_app_other (dt : date) (l : list MetricRow) (r : MetricRow) :
  dm_date r <> dt ->
  find (fun x => Z.eqb (dm_date x) dt) (l ++ [r]) = find (fun x => Z.eqb (dm_date x) dt) l.
Proof.
  intros Hne. induction l as [|x l IH]; simpl.
  - destruct (Z.eqb_spec (dm_date r) dt); [contradiction | reflexivity].
  - destruct (Z.eqb (dm_date x) dt); [reflexivity | exact IH].
Qed.

Lemma find_date_app_new (dt : date) (l : list MetricRow) (r : MetricRow) :
  dm_date r = dt ->
  existsb (fun x => Z.eqb (dm_date x) dt) l = false ->
  find (fun x => Z.eqb (dm_date x) dt) (l ++ [r]) = Some r.
Proof.
  intros He. induction l as [|x l IH]; simpl; intros Hex.
  - rewrite He, Z.eqb_refl. reflexivity.
  - apply orb_false_iff in Hex. destruct Hex as [Hx Hl].
    rewrite Hx. now apply IH.
Qed.

Lemma find_existsb_none {A : Type} (f : A -> bool) (l : list A) :
  existsb f l = false -> find f l = None.
Proof.
  induction l as [|x l IH]; simpl; [reflexivity|].
  intros H. apply orb_false_iff in H. destruct H as [Hx Hl].
  rewrite Hx. now apply IH.
Qed.

Lemma find_existsb_some {A : Type} (f : A -> bool) (l : list A) :
  existsb f l = true -> exists x, find f l = Some x /\ f x = true.
Proof.
  induction l as [|x l IH]; simpl; [discriminate|].
  destruct (f x) eqn:Hx; intros H.
  - exists x. now split.
  - now apply IH.
Qed.

Lemma find_date_map_bump (m : Metric) (amount : Z) (today dt : date) (l : list MetricRow) :
  find (fun x => Z.eqb (dm_date x) dt)
       (map (fun r => if Z.eqb (dm_date r) today then bump m amount r else r) l)
  = option_map (fun r => if Z.eqb (dm_date r) today then bump m amount r else r)
               (find (fun x => Z.eqb (dm_date x) dt) l).
Proof.
  induction l as [|x l IH]; simpl; [reflexivity|].
  destruct (Z.eqb (dm_date x) today) eqn:Ht; [rewrite bump_date|];
    destruct (Z.eqb (dm_date x) dt) eqn:Hd; simpl; try rewrite Ht; auto.
Qed.

Lemma select_incremented_other (m : Metric) (amount : Z) (today dt : date) (d : Db) :
  dt <> today ->
  select_daily_metrics dt (incremented m amount today d) = select_daily_metrics dt d.
Proof.
  intros Hne. unfold select_daily_metrics, incremented, update_daily_metrics. simpl.
  rewrite find_date_map_bump.
  assert (Hfind : find (fun x => Z.eqb (dm_date x) dt)
                       (daily_metrics (insert_or_ignore_daily_metrics today d))
                  = find (fun x => Z.eqb (dm_date x) dt) (daily_metrics d)).
  { unfold insert_or_ignore_daily_metrics.
    destruct (existsb _ (daily_metrics d)); [reflexivity|]. simpl.
    apply find_date_app_other. simpl. congruence. }
  rewrite Hfind.
  destruct (find _ (daily_metrics d)) as [r|] eqn:Hr; [|reflexivity]. simpl.
  apply find_some in Hr. destruct Hr as [_ Hr]. apply Z.eqb_eq in Hr.
  destruct (Z.eqb_spec (dm_date r) today); [congruence | reflexivity].
Qed.

Lemma metric_incremented_same (m : Metric) (amount : Z) (today : date) (d : Db) :
  metric_on m today (incremented m amount today d) = metric_on m today d + amount.
Proof.
  unfold metric_on, select_daily_metrics, incremented, update_daily_metrics. simpl.
  rewrite find_date_map_bump. unfold insert_or_ignore_daily_metrics.
  destruct (existsb _ (daily_metrics d)) eqn:Hex; cbn [daily_metrics with_daily_metrics].
  - apply find_existsb_some in Hex. destruct Hex as (r & Hr & Hd).
    rewrite Hr. simpl. rewrite Hd. apply counter_bump_same.
  - rewrite (find_existsb_none _ _ Hex). simpl.
    rewrite find_date_app_new; [|reflexivity|exact Hex]. simpl.
    rewrite Z.eqb_refl. destruct m; reflexivity.
Qed.

Lemma metric_incremented_other (m m' : Metric) (amount : Z) (today dt : date) (d : Db) :
  m' <> m \/ dt <> today ->
  metric_on m' dt (incremented m amount today d) = metric_on m' dt d.
Proof.
  intros H. destruct (Z.eq_dec dt today) as [->|Hne].
  - destruct H as [Hm|Hc]; [|congruence].
    unfold metric_on, select_daily_metrics, incremented, update_daily_metrics. simpl.
    rewrite find_date_map_bump. unfold insert_or_ignore_daily_metrics.
    destruct (existsb _ (daily_metrics d)) eqn:Hex; cbn [daily_metrics with_daily_metrics].
    + apply find_existsb_some in Hex. destruct Hex as (r & Hr & Hd).
      rewrite Hr. simpl. rewrite Hd. now apply counter_bump_other.
    + rewrite (find_existsb_none _ _ Hex). simpl.
      rewrite find_date_app_new; [|reflexivity|exact Hex]. simpl.
      rewrite Z.eqb_refl. destruct m, m'; try reflexivity; congruence.
  - unfold metric_on. now rewrite select_incremented_other.
Qed.

(** Three increments on one day and one on the next: the second row has
    id 4, the two ignored inserts having used up ids 2 and 3. *)
Example ignored_insert_uses_an_id :
  map dm_id
      (daily_metrics
         (incremented tokens_found 1 20001
            (incremented dms_sent 1 20000
               (incremented tokens_found 1 20000
                  (incremented tokens_found 1 20000 empty_db)))))
  = [1; 4].
Proof. reflexivity. Qed.

Lemma dates_incremented (m : Metric) (amount : Z) (today : date) (d : Db) :
  map dm_date (daily_metrics (incremented m amount today d))
  = if existsb (fun r => Z.eqb (dm_date r) today) (daily_metrics d)
    then map dm_date (daily_metrics d)
    else (map dm_date (daily_metrics d) ++ [today])%list.
Proof.
  unfold incremented, update_daily_metrics, insert_or_ignore_daily_metrics. simpl.
  rewrite map_map.
  assert (Hg : forall l, map (fun x => dm_date (if Z.eqb (dm_date x) today
                                                then bump m amount x else x)) l
                         = map dm_date l).
  { intros l. apply map_ext. intros r.
    destruct (Z.eqb (dm_date r) today); [apply bump_date | reflexivity]. }
  rewrite Hg. destruct (existsb _ (daily_metrics d)); [reflexivity|].
  simpl. now rewrite map_app.
Qed.

Lemma existsb_date_In (today : date) (l : list MetricRow) :
  existsb (fun r => Z.eqb (dm_date r) today) l = true <-> In today (map dm_date l).
Proof.
  rewrite existsb_exists, in_map_iff. split.
  - intros (r & Hin & He). exists r. apply Z.eqb_eq in He. now split.
  - intros (r & He & Hin). exists r. split; [exact Hin | now apply Z.eqb_eq].
Qed.

Lemma one_row_per_date_incremented (m : Metric) (amount : Z) (today : date) (d : Db) :
  one_row_per_date d -> one_row_per_date (incremented m amount today d).
Proof.
  unfold one_row_per_date. intros Hnd. rewrite dates_incremented.
  destruct (existsb _ (daily_metrics d)) eqn:Hex; [exact Hnd|].
  apply NoDup_app; [exact Hnd | repeat constructor; intros [] | ].
  intros x Hx [<-|[]].
  apply existsb_date_In in Hx. congruence.
Qed.

Lemma today_has_row (m : Metric) (amount : Z) (today : date) (d : Db) :
  In today (map dm_date (daily_metrics (incremented m amount today d))).
Proof.
  rewrite dates_incremented.
  destruct (existsb _ (daily_metrics d)) eqn:Hex.
  - now apply existsb_date_In.
  - apply in_or_app. right. now left.
Qed.

Lemma count_date_nodup (dt : date) (l : list MetricRow) :
  NoDup (map dm_date l) -> In dt (map dm_date l) ->
  count (fun r => Z.eqb (dm_date r) dt) l = 1.
Proof.
  unfold count. induction l as [|x l IH]; simpl; intros Hnd Hin; [contradiction|].
  inversion Hnd as [|? ? Hx Hl]; subst.
  destruct (Z.eqb_spec (dm_date x) dt) as [He|Hne].
  - subst dt. simpl.
    assert (Hnone : filter (fun r => Z.eqb (dm_date r) (dm_date x)) l = []).
    { destruct (filter _ l) as [|y ys] eqn:Hf; [reflexivity|].
      assert (Hy : In y (filter (fun r => Z.eqb (dm_date r) (dm_date x)) l))
        by (rewrite Hf; now left).
      apply filter_In in Hy. destruct Hy as [Hy He]. apply Z.eqb_eq in He.
      exfalso. apply Hx. rewrite <- He. now apply in_map. }
    rewrite Hnone. reflexivity.
  - destruct Hin as [Hc|Hin]; [contradiction|]. now apply IH.
Qed.

Lemma rows_on_incremented (m : Metric) (amount : Z) (today : date) (d : Db) :
  one_row_per_date d -> rows_on today (incremented m amount today d) = 1.
Proof.
  intros Hnd. unfold rows_on. apply count_date_nodup.
  - now apply one_row_per_date_incremented.
  - apply today_has_row.
Qed.

Lemma metric_incremented_mono (m m' : Metric) (amount : Z) (today dt : date) (d : Db) :
  0 <= amount ->
  metric_on m' dt d <= metric_on m' dt (incremented m amount today d).
Proof.
  intros Ha.
  destruct (Z.eq_dec dt today) as [->|Hne].
  - assert (Hm : m' = m \/ m' <> m) by (destruct m, m'; (now left) || (right; congruence)).
    destruct Hm as [->|Hm].
    + rewrite metric_incremented_same. lia.
    + rewrite metric_incremented_other by now left. lia.
  - rewrite metric_incremented_other by now right. lia.
Qed.

Lemma projects_incremented (m : Metric) (amount : Z) (today : date) (d : Db) :
  projects (incremented m amount today d) = projects d
  /\ projects_seq (incremented m amount today d) = projects_seq d.
Proof.
  unfold incremented, update_daily_metrics, insert_or_ignore_daily_metrics.
  destruct (existsb _ (daily_metrics d)); split; reflexivity.
Qed.

(** ** Idempotent insert of leads *)

Lemma add_project_duplicate (w : World) (token : Token) (a : string) :
  address token = Some a ->
  existsb (has_address a) (projects (db w)) = true ->
  add_project token w = (Ok (select_project_id (Some a) (db w)), w).
Proof.
  intros Ha Hex. unfold add_project, insert_into_projects, bind, get_db.
  rewrite Ha, Hex. simpl. reflexivity.
Qed.

Lemma add_project_no_address (w : World) (token : Token) :
  address token = None -> add_project token w = (Ok None, w).
Proof.
  intros Ha. unfold add_project, insert_into_projects, bind, get_db.
  rewrite Ha. reflexivity.
Qed.

(** The world a first insert leaves. *)
Lemma add_project_fresh (w : World) (token : Token) (a : string) :
  address token = Some a ->
  existsb (has_address a) (projects (db w)) = false ->
  let rowid := projects_seq (db w) + 1 in
  let row := project_row rowid a token (current_timestamp_at (script w) (tick w)) in
  let d1 := with_projects (db w) (projects (db w) ++ [row])%list rowid in
  let d2 := incremented tokens_found 1 (date_of (now_at (script w) (S (tick w)))) d1 in
  add_project token w
  = (Ok (Some rowid),
     if truthy (telegram token)
     then mkWorld (script w) (S (S (S (tick w))))
                  (incremented tokens_with_telegram 1
                     (date_of (now_at (script w) (S (S (tick w))))) d2)
                  (automator w) (slept w) (send_calls w)
     else mkWorld (script w) (S (S (tick w))) d2 (automator w) (slept w) (send_calls w)).
Proof.
  intros Ha Hex. unfold add_project, insert_into_projects, bind, get_db.
  rewrite Ha, Hex. simpl.
  destruct (truthy (telegram token)); reflexivity.
Qed.

Lemma count_existsb_false {A : Type} (f : A -> bool) (l : list A) :
  existsb f l = false -> count f l = 0.
Proof.
  unfold count. induction l as [|x l IH]; simpl; [reflexivity|].
  intros H. apply orb_false_iff in H. destruct H as [Hx Hl].
  rewrite Hx. now apply IH.
Qed.

Lemma count_existsb_true {A : Type} (f : A -> bool) (l : list A) :
  existsb f l = true -> 1 <= count f l.
Proof.
  unfold count. induction l as [|x l IH]; simpl; [discriminate|].
  destruct (f x); simpl; intros H; [lia | now apply IH].
Qed.

Lemma count_app {A : Type} (f : A -> bool) (l l' : list A) :
  count f (l ++ l') = count f l + count f l'.
Proof. unfold count. rewrite filter_app, length_app. lia. Qed.

Lemma find_app_new {A : Type} (f : A -> bool) (l : list A) (x : A) :
  existsb f l = false -> f x = true -> find f (l ++ [x]) = Some x.
Proof.
  induction l as [|y l IH]; simpl; intros Hex Hx.
  - now rewrite Hx.
  - apply orb_false_iff in Hex. destruct Hex as [Hy Hl]. rewrite Hy. now apply IH.
Qed.

Lemma existsb_app_new {A : Type} (f : A -> bool) (l : list A) (x : A) :
  f x = true -> existsb f (l ++ [x]) = true.
Proof.
  intros Hx. rewrite existsb_app. simpl. rewrite Hx. now rewrite orb_true_r.
Qed.

Lemma has_address_project_row (rowid : Z) (a : string) (t : Token) (ts : timestamp) :
  has_address a (project_row rowid a t ts) = true.
Proof. unfold has_address. simpl. apply String.eqb_refl. Qed.

(** The projects table after a first insert. *)
Lemma add_project_fresh_projects (w : World) (token : Token) (a : string) :
  address token = Some a ->
  existsb (has_address a) (projects (db w)) = false ->
  projects (db (snd (add_project token w)))
  = (projects (db w)
     ++ [project_row (projects_seq (db w) + 1) a token
           (current_timestamp_at (script w) (tick w))])%list.
Proof.
  intros Ha Hex. rewrite (add_project_fresh w token a Ha Hex).
  destruct (truthy (telegram token)); cbn [snd db];
    repeat rewrite (proj1 (projects_incremented _ _ _ _)); reflexivity.
Qed.

(** The counters a first insert moves. *)
Lemma add_project_fresh_counts (w : World) (token : Token) (a : string) :
  address token = Some a ->
  existsb (has_address a) (projects (db w)) = false ->
  let w1 := snd (add_project token w) in
  let day_found := date_of (now_at (script w) (S (tick w))) in
  let day_telegram := date_of (now_at (script w) (S (S (tick w)))) in
  metric_on tokens_found day_found (db w1) = metric_on tokens_found day_found (db w) + 1
  /\ (truthy (telegram token) = true ->
      metric_on tokens_with_telegram day_telegram (db w1)
      = metric_on tokens_with_telegram day_telegram (db w) + 1)
  /\ (truthy (telegram token) = false ->
      forall dt, metric_on tokens_with_telegram dt (db w1)
                 = metric_on tokens_with_telegram dt (db w)).
Proof.
  intros Ha Hex w1 day_found day_telegram. subst w1.
  rewrite (add_project_fresh w token a Ha Hex).
  set (d1 := with_projects (db w) _ _).
  assert (Hm : forall m dt, metric_on m dt d1 = metric_on m dt (db w)) by reflexivity.
  destruct (truthy (telegram token)); cbn [snd db]; fold day_found; fold day_telegram.
  - split; [|split; [intros _ | discriminate]].
    + rewrite metric_incremented_other by (left; discriminate).
      now rewrite metric_incremented_same, Hm.
    + rewrite metric_incremented_same.
      rewrite metric_incremented_other by (left; discriminate). now rewrite Hm.
  - split; [|split; [discriminate | intros _ dt]].
    + now rewrite metric_incremented_same, Hm.
    + rewrite metric_incremented_other by (left; discriminate). apply Hm.
Qed.

Lemma count_zero_existsb {A : Type} (f : A -> bool) (l : list A) :
  count f l = 0 -> existsb f l = false.
Proof.
  intros H. destruct (existsb f l) eqn:Hex; [|reflexivity].
  apply count_existsb_true in Hex. lia.
Qed.

(** With at most one row satisfying [f], every such row is the one [find]
    returns. *)
Lemma single_row {A : Type} (f : A -> bool) (l : list A) (r x : A) :
  count f l <= 1 -> find f l = Some r -> In x l -> f x = true -> x = r.
Proof.
  induction l as [|y l IH]; cbn [find In]; [discriminate|].
  intros Hle Hfind Hin Hx.
  assert (Hcount : count f (y :: l) = (if f y then 1 else 0) + count f l).
  { unfold count. cbn [filter]. destruct (f y); cbn [List.length]; lia. }
  rewrite Hcount in Hle. destruct (f y) eqn:Hy.
  - injection Hfind as <-. destruct Hin as [Hin | Hin]; [now symmetry|].
    assert (Hpos : 0 <= count f l) by (unfold count; lia).
    assert (Hnone : existsb f l = false) by (apply count_zero_existsb; lia).
    assert (Hsome : existsb f l = true) by (apply existsb_exists; now exists x).
    congruence.
  - destruct Hin as [<- | Hin]; [congruence|]. apply IH; [lia | | |]; assumption.
Qed.

(** In any state that holds the address, in rows whose id is [project_id],
    a call for that address returns [project_id] and changes nothing. *)
Lemma add_project_stored (later : World) (other : Token) (a : string) (project_id : Z) :
  address other = Some a ->
  1 <= lead_rows a (db later) ->
  (forall r, In r (projects (db later)) -> p_contract_address r = a -> p_id r = project_id) ->
  add_project other later = (Ok (Some project_id), later).
Proof.
  intros Ha Hone Hid.
  assert (Hex : existsb (has_address a) (projects (db later)) = true).
  { destruct (existsb (has_address a) (projects (db later))) eqn:Hex; [reflexivity|].
    apply count_existsb_false in Hex. unfold lead_rows in Hone. lia. }
  rewrite (add_project_duplicate later other a Ha Hex).
  destruct (find_existsb_some _ _ Hex) as (r & Hr & Hr').
  unfold select_project_id. rewrite Hr. cbn [option_map].
  apply find_some in Hr. destruct Hr as (Hin & _).
  rewrite (Hid r Hin); [reflexivity|]. unfold has_address in Hr'.
  now apply String.eqb_eq.
Qed.

(** C1.  For a candidate with contract identifier [a], in a database that
    respects the UNIQUE constraint on it: the first call returns an
    identity, which is the id of the one lead row that carries [a]; a
    second call with the same candidate returns the same identity and
    leaves the whole state as the first call left it (status, outreach
    fields, daily metrics); so does every later call for [a], with any
    candidate data, in any state in which the rows carrying [a] still have
    that id; when the lead was already stored the first call changes
    nothing either; and on a true first insert [tokens_found] grows by one
    on the date the clock reads, and [tokens_with_telegram] grows by one
    when the candidate has a group link and is left alone when it has
    none. *)
Theorem add_project_idempotent (w : World) (token : Token) (a : string) :
  address token = Some a ->
  lead_rows a (db w) <= 1 ->
  exists project_id w1,
    add_project token w = (Ok (Some project_id), w1)
    /\ add_project token w1 = (Ok (Some project_id), w1)
    /\ lead_rows a (db w1) = 1
    /\ (forall r, In r (projects (db w1)) -> p_contract_address r = a ->
                  p_id r = project_id)
    /\ (forall later other,
          address other = Some a ->
          1 <= lead_rows a (db later) ->
          (forall r, In r (projects (db later)) -> p_contract_address r = a ->
                     p_id r = project_id) ->
          add_project other later = (Ok (Some project_id), later))
    /\ (lead_rows a (db w) = 1 -> w1 = w)
    /\ (lead_rows a (db w) = 0 ->
        let day_found := date_of (now_at (script w) (S (tick w))) in
        let day_telegram := date_of (now_at (script w) (S (S (tick w)))) in
        metric_on tokens_found day_found (db w1)
        = metric_on tokens_found day_found (db w) + 1
        /\ (truthy (telegram token) = true ->
            metric_on tokens_with_telegram day_telegram (db w1)
            = metric_on tokens_with_telegram day_telegram (db w) + 1)
        /\ (truthy (telegram token) = false ->
            forall dt, metric_on tokens_with_telegram dt (db w1)
                       = metric_on tokens_with_telegram dt (db w))).
Proof.
  intros Ha Hle.
  destruct (existsb (has_address a) (projects (db w))) eqn:Hex.
  - destruct (find_existsb_some _ _ Hex) as (r & Hr & _).
    exists (p_id r), w.
    assert (Hsel : select_project_id (Some a) (db w) = Some (p_id r))
      by (unfold select_project_id; now rewrite Hr).
    rewrite (add_project_duplicate w token a Ha Hex), Hsel.
    pose proof (count_existsb_true _ _ Hex) as Hone. unfold lead_rows in *.
    split; [reflexivity|]. split; [reflexivity|]. split; [lia|].
    split; [|split; [|split; [auto | intros Hzero; lia]]].
    + intros x Hin Hx. f_equal.
      apply (single_row (has_address a) (projects (db w))); try assumption.
      unfold has_address. rewrite Hx. apply String.eqb_refl.
    + intros later other. apply add_project_stored.
  - pose proof (add_project_fresh_projects w token a Ha Hex) as Hp.
    pose proof (add_project_fresh_counts w token a Ha Hex) as Hcounts.
    pose proof (add_project_fresh w token a Ha Hex) as Hrun. simpl in Hrun.
    destruct (add_project token w) as [r w1] eqn:Hfirst. cbn [snd] in Hp, Hcounts.
    exists (projects_seq (db w) + 1), w1.
    assert (Hr : r = Ok (Some (projects_seq (db w) + 1))) by congruence.
    subst r. split; [reflexivity|].
    assert (Hex1 : existsb (has_address a) (projects (db w1)) = true).
    { rewrite Hp. apply existsb_app_new, has_address_project_row. }
    split; [|split; [|split; [|split; [|split]]]].
    + rewrite (add_project_duplicate w1 token a Ha Hex1).
      unfold select_project_id. rewrite Hp.
      rewrite find_app_new; [reflexivity | exact Hex | apply has_address_project_row].
    + unfold lead_rows. rewrite Hp, count_app, (count_existsb_false _ _ Hex).
      unfold count. simpl. now rewrite has_address_project_row.
    + intros x Hin Hx. rewrite Hp in Hin. apply in_app_iff in Hin.
      destruct Hin as [Hin | [<- | []]]; [|reflexivity].
      exfalso.
      assert (Hsome : existsb (has_address a) (projects (db w)) = true).
      { apply existsb_exists. exists x. split; [exact Hin|].
        unfold has_address. rewrite Hx. apply String.eqb_refl. }
      congruence.
    + intros later other. apply add_project_stored.
    + unfold lead_rows. rewrite (count_existsb_false _ _ Hex). discriminate.
    + intros _. exact Hcounts.
Qed.

Lemma add_project_idempotent_witness :
  exists project_id w1,
    add_project sample_token sample_world = (Ok (Some project_id), w1)
    /\ add_project sample_token w1 = (Ok (Some project_id), w1)
    /\ lead_rows "ADDR1" (db w1) = 1
    /\ (forall r, In r (projects (db w1)) -> p_contract_address r = "ADDR1" ->
                  p_id r = project_id).
Proof.
  destruct (add_project_idempotent sample_world sample_token "ADDR1")
    as (project_id & w1 & H1 & H2 & H3 & H4 & _).
  - reflexivity.
  - vm_compute. discriminate.
  - exists project_id, w1. repeat split; assumption.
Defined.

(** ** Date-scoped counters *)

(** What a first insert does to the counters when the clock reads [today]. *)
Lemma add_project_fresh_metrics (w : World) (token : Token) (a : string) (today : date) :
  address token = Some a ->
  existsb (has_address a) (projects (db w)) = false ->
  date_of (now_at (script w) (S (tick w))) = today ->
  date_of (now_at (script w) (S (S (tick w)))) = today ->
  let w1 := snd (add_project token w) in
  script w1 = script w
  /\ (tick w1 = S (S (tick w)) \/ tick w1 = S (S (S (tick w))))
  /\ metric_on tokens_found today (db w1) = metric_on tokens_found today (db w) + 1
  /\ (forall dt, dt <> today ->
        select_daily_metrics dt (db w1) = select_daily_metrics dt (db w))
  /\ (one_row_per_date (db w) -> one_row_per_date (db w1) /\ rows_on today (db w1) = 1)
  /\ (forall m dt, metric_on m dt (db w) <= metric_on m dt (db w1)).
Proof.
  intros Ha Hex H1 H2 w1. subst w1.
  rewrite (add_project_fresh w token a Ha Hex). rewrite H1, H2.
  set (d1 := with_projects (db w) _ _).
  assert (Hsel : forall dt, select_daily_metrics dt d1 = select_daily_metrics dt (db w))
    by reflexivity.
  assert (Hm : forall m dt, metric_on m dt d1 = metric_on m dt (db w)) by reflexivity.
  assert (Hone : one_row_per_date (db w) -> one_row_per_date d1) by (intros H; exact H).
  destruct (truthy (telegram token)); cbn [snd db script tick].
  - split; [reflexivity|]. split; [now right|]. split; [|split; [|split]].
    + rewrite metric_incremented_other by (left; discriminate).
      now rewrite metric_incremented_same, Hm.
    + intros dt Hdt. now rewrite !select_incremented_other, Hsel.
    + intros H. split.
      * now apply one_row_per_date_incremented, one_row_per_date_incremented, Hone.
      * now apply rows_on_incremented, one_row_per_date_incremented, Hone.
    + intros m dt. rewrite <- Hm.
      etransitivity; [|apply metric_incremented_mono; lia].
      apply metric_incremented_mono; lia.
  - split; [reflexivity|]. split; [now left|]. split; [|split; [|split]].
    + now rewrite metric_incremented_same, Hm.
    + intros dt Hdt. now rewrite select_incremented_other, Hsel.
    + intros H. split.
      * now apply one_row_per_date_incremented, Hone.
      * now apply rows_on_incremented, Hone.
    + intros m dt. rewrite <- Hm. apply metric_incremented_mono; lia.
Qed.

(** C7.  With the clock reading the date [today] throughout: inserting two
    new leads adds 2 to [tokens_found] on [today] and leaves the row of
    every other date, the adjacent ones in particular, as it was; and any
    increment adds 1 to its counter on [today], lowers no counter of any
    date, and changes no other counter.  In both cases the dates keep one
    row each and [today] has exactly one row, created if it was missing. *)
Theorem daily_metrics_date_scoped (w : World) (t1 t2 : Token) (a1 a2 : string)
    (today : date) (metric : Metric) :
  address t1 = Some a1 ->
  address t2 = Some a2 ->
  a1 <> a2 ->
  lead_rows a1 (db w) = 0 ->
  lead_rows a2 (db w) = 0 ->
  one_row_per_date (db w) ->
  (forall n, (tick w <= n < tick w + 6)%nat -> date_of (now_at (script w) n) = today) ->
  let w2 := snd (add_project t2 (snd (add_project t1 w))) in
  let wi := snd (_increment_daily_metric metric 1 w) in
  (metric_on tokens_found today (db w2) = metric_on tokens_found today (db w) + 2
   /\ (forall dt, dt <> today ->
         select_daily_metrics dt (db w2) = select_daily_metrics dt (db w))
   /\ metric_on tokens_found (today - 1) (db w2) = metric_on tokens_found (today - 1) (db w)
   /\ metric_on tokens_found (today + 1) (db w2) = metric_on tokens_found (today + 1) (db w)
   /\ one_row_per_date (db w2)
   /\ rows_on today (db w2) = 1)
  /\ (metric_on metric today (db wi) = metric_on metric today (db w) + 1
      /\ (forall m dt, metric_on m dt (db w) <= metric_on m dt (db wi))
      /\ (forall m dt, m <> metric \/ dt <> today ->
            metric_on m dt (db wi) = metric_on m dt (db w))
      /\ one_row_per_date (db wi)
      /\ rows_on today (db wi) = 1).
Proof.
  intros Ha1 Ha2 Hne Hn1 Hn2 Hone Hclock w2 wi. split.
  - apply count_zero_existsb in Hn1. apply count_zero_existsb in Hn2.
    pose proof (add_project_fresh_projects w t1 a1 Ha1 Hn1) as Hp1.
    destruct (add_project_fresh_metrics w t1 a1 today Ha1 Hn1)
      as (Hs1 & Ht1 & Hm1 & Hsel1 & Hrows1 & _);
      [apply Hclock; lia | apply Hclock; lia |].
    set (w1 := snd (add_project t1 w)) in *.
    assert (Hex2 : existsb (has_address a2) (projects (db w1)) = false).
    { rewrite Hp1, existsb_app, Hn2. simpl. unfold has_address. simpl.
      destruct (String.eqb_spec a1 a2); [contradiction | reflexivity]. }
    destruct (add_project_fresh_metrics w1 t2 a2 today Ha2 Hex2)
      as (_ & _ & Hm2 & Hsel2 & Hrows2 & _).
    { rewrite Hs1. apply Hclock. destruct Ht1 as [->| ->]; lia. }
    { rewrite Hs1. apply Hclock. destruct Ht1 as [->| ->]; lia. }
    fold w2 in Hm2, Hsel2, Hrows2.
    assert (Hsel : forall dt, dt <> today ->
              select_daily_metrics dt (db w2) = select_daily_metrics dt (db w)).
    { intros dt Hdt. now rewrite Hsel2, Hsel1. }
    split; [lia|]. split; [exact Hsel|].
    split; [unfold metric_on; rewrite Hsel by lia; reflexivity|].
    split; [unfold metric_on; rewrite Hsel by lia; reflexivity|].
    apply Hrows2, Hrows1, Hone.
  - subst wi. rewrite increment_run. cbn [snd db].
    rewrite (Hclock (tick w)) by lia.
    split; [apply metric_incremented_same|].
    split; [intros m dt; apply metric_incremented_mono; lia|].
    split; [intros m dt Hd; now apply metric_incremented_other|].
    split; [now apply one_row_per_date_incremented | now apply rows_on_incremented].
Qed.

Lemma sample_clock_day (n : nat) :
  (n < 6)%nat -> date_of (now_at sample_script n) = 1000.
Proof.
  intros Hn.
  destruct n as [|[|[|[|[|[|n]]]]]]; [reflexivity .. | lia].
Qed.

Lemma daily_metrics_date_scoped_witness :
  let w2 := snd (add_project second_token (snd (add_project sample_token sample_world))) in
  metric_on tokens_found 1000 (db w2) = metric_on tokens_found 1000 (db sample_world) + 2
  /\ metric_on tokens_found (1000 - 1) (db w2)
     = metric_on tokens_found (1000 - 1) (db sample_world)
  /\ metric_on tokens_found (1000 + 1) (db w2)
     = metric_on tokens_found (1000 + 1) (db sample_world)
  /\ rows_on 1000 (db w2) = 1.
Proof.
  intros w2.
  destruct (daily_metrics_date_scoped sample_world sample_token second_token
              "ADDR1" "ADDR2" 1000 tokens_found)
    as [(H1 & _ & H2 & H3 & _ & H4) _].
  - reflexivity.
  - reflexivity.
  - discriminate.
  - reflexivity.
  - reflexivity.
  - constructor.
  - intros n Hn. apply sample_clock_day. exact (proj2 Hn).
  - repeat split; assumption.
Defined.

(** From an empty store: two new leads on day 1000 give [tokens_found = 2]
    there and 0 on days 999 and 1001. *)
Example two_leads_on_one_day :
  let w2 := snd (add_project second_token (snd (add_project sample_token sample_world))) in
  metric_on tokens_found 1000 (db w2) = 2
  /\ metric_on tokens_found 999 (db w2) = 0
  /\ metric_on tokens_found 1001 (db w2) = 0.
Proof. vm_compute. repeat split. Qed.

(** ** Summary statistics *)

Lemma count_nonneg {A : Type} (f : A -> bool) (l : list A) : 0 <= count f l.
Proof. unfold count. lia. Qed.

Lemma count_none {A : Type} (f : A -> bool) (l : list A) :
  (forall x, In x l -> f x = false) -> count f l = 0.
Proof.
  intros H. apply count_existsb_false.
  destruct (existsb f l) eqn:Hex; [|reflexivity].
  apply existsb_exists in Hex. destruct Hex as (x & Hin & Hx).
  rewrite (H x Hin) in Hx. discriminate.
Qed.

(** C9, as the code has it.  The summary counts the messages sent
    successfully and the messages answered; with no message sent
    successfully the response rate is the integer 0 and no division takes
    place; otherwise it is [responses / sent * 100] rounded to one
    decimal. *)
Theorem summary_response_rate (w : World) :
  exists s,
    get_summary_stats w = (Ok s, w)
    /\ ss_total_dms_sent s = count m_send_success (messages (db w))
    /\ ss_responses_received s = count m_response_received (messages (db w))
    /\ ((forall m, In m (messages (db w)) -> m_send_success m = false) ->
        ss_response_rate s = PyInt 0)
    /\ (ss_total_dms_sent s = 0 -> ss_response_rate s = PyInt 0)
    /\ (0 < ss_total_dms_sent s ->
        ss_response_rate s
        = PyFloat (py_round1 (percentage (ss_responses_received s) (ss_total_dms_sent s)))).
Proof.
  eexists. split; [reflexivity|]. cbn [ss_total_dms_sent ss_responses_received ss_response_rate].
  split; [reflexivity|]. split; [reflexivity|].
  split; [|split].
  - intros H. rewrite (count_none _ _ H). reflexivity.
  - intros H. rewrite H. reflexivity.
  - intros H. apply Z.ltb_lt in H. rewrite H. reflexivity.
Qed.

(** With three messages sent and one answered the rate is 33.3, which is
    not the quotient [1 / 3 * 100]. *)
Lemma response_rate_is_rounded :
  exists s,
    fst (get_summary_stats three_sent_world) = Ok s
    /\ ss_total_dms_sent s = 3
    /\ ss_responses_received s = 1
    /\ ss_response_rate s = PyFloat 0x1.0a66666666666p+5%float
    /\ PrimFloat.eqb 0x1.0a66666666666p+5%float (percentage 1 3) = false.
Proof.
  eexists. split; [reflexivity|].
  repeat split; vm_compute; reflexivity.
Qed.

(** ** Message personalisation *)

Lemma prefix_brace_other (body rest : string) (c : ascii) :
  Ascii.eqb c "{" = false -> prefix (String "{" body) (String c rest) = false.
Proof.
  intros Hc. cbn [prefix]. destruct (ascii_dec "{" c) as [He|Hne]; [|reflexivity].
  subst c. discriminate.
Qed.

Lemma prefix_self_app (s r : string) : prefix s (s ++ r) = true.
Proof.
  induction s as [|c s IH]; [destruct r; reflexivity|].
  change (String c s ++ r) with (String c (s ++ r)). cbn [prefix].
  destruct (ascii_dec c c); [exact IH | contradiction].
Qed.

Lemma replace_from_skip (old new x rest : string) :
  replace_from old new (String.length x) (x ++ rest) = replace_from old new 0 rest.
Proof.
  induction x as [|c x IH]; simpl; [|exact IH].
  destruct rest; reflexivity.
Qed.

Lemma replace_absent (old new s : string) :
  str_contains old s = false -> replace_from old new 0 s = s.
Proof.
  induction s as [|c s IH]; [reflexivity|].
  intros H. cbn [str_contains] in H. cbn [replace_from].
  destruct (prefix old (String c s)); [discriminate|].
  now rewrite IH.
Qed.

Lemma contains_after_brace_free (body pre x : string) :
  brace_free pre = true ->
  str_contains (String "{" body) (pre ++ x) = str_contains (String "{" body) x.
Proof.
  induction pre as [|c pre IH]; intros Hb; [reflexivity|].
  cbn [brace_free] in Hb. apply andb_prop in Hb. destruct Hb as [Hc Hp].
  apply negb_true_iff in Hc.
  change (String c pre ++ x) with (String c (pre ++ x)).
  cbn [str_contains]. rewrite (prefix_brace_other body (pre ++ x) c Hc).
  now apply IH.
Qed.

Lemma replace_at_occurrence (body new pre rest : string) :
  brace_free pre = true ->
  replace_from (String "{" body) new 0 (pre ++ String "{" body ++ rest)
  = pre ++ new ++ replace_from (String "{" body) new 0 rest.
Proof.
  induction pre as [|c pre IH]; intros Hb.
  - change ("" ++ String "{" body ++ rest) with (String "{" (body ++ rest)).
    cbn [replace_from].
    change (String "{" (body ++ rest)) with (String "{" body ++ rest).
    rewrite prefix_self_app. cbn [String.length]. rewrite Nat.sub_1_r. cbn [Nat.pred].
    now rewrite replace_from_skip.
  - cbn [brace_free] in Hb. apply andb_prop in Hb. destruct Hb as [Hc Hp].
    apply negb_true_iff in Hc.
    change (String c pre ++ String "{" body ++ rest)
      with (String c (pre ++ String "{" body ++ rest)).
    cbn [replace_from]. rewrite (prefix_brace_other body _ c Hc).
    rewrite (IH Hp). reflexivity.
Qed.

Lemma brace_free_app (a b : string) :
  brace_free (a ++ b) = brace_free a && brace_free b.
Proof.
  induction a as [|c a IH]; [reflexivity|].
  change (String c a ++ b) with (String c (a ++ b)). cbn [brace_free].
  now rewrite IH, andb_assoc.
Qed.

Lemma append_assoc_s (a b c : string) : (a ++ b) ++ c = a ++ b ++ c.
Proof.
  induction a as [|x a IH]; [reflexivity|].
  change ((String x a ++ b) ++ c) with (String x ((a ++ b) ++ c)). now rewrite IH.
Qed.

Lemma append_empty_r (a : string) : a ++ "" = a.
Proof. induction a as [|x a IH]; [reflexivity|]. cbn. now rewrite IH. Qed.

Lemma contains_brace_free (body s : string) :
  brace_free s = true -> str_contains (String "{" body) s = false.
Proof.
  intros H. rewrite <- (append_empty_r s).
  now rewrite contains_after_brace_free.
Qed.

Lemma can_join_run (w : World) :
  let now := now_at (script w) (tick w) in
  let pruned := prune (now - hour) (join_times (automator w)) in
  _can_join w
  = (if Z.leb (max_joins_per_hour (automator w)) (Z.of_nat (List.length pruned))
     then match pruned with
          | [] => Raise min_of_empty
          | t :: l =>
              Ok (false, Z.max 0 (int_total_seconds (fold_left Z.min l t + hour - now)))
          end
     else Ok (true, 0),
     mkWorld (script w) (S (tick w)) (db w) (with_join_times (automator w) pruned)
             (slept w) (send_calls w)).
Proof.
  cbv zeta. unfold _can_join, bind, datetime_now, next, modify_telegram, get_telegram.
  cbn [fst snd script tick db automator slept send_calls with_join_times
       join_times max_joins_per_hour].
  destruct (Z.leb _ _); [|reflexivity].
  destruct (prune _ _); reflexivity.
Qed.

Lemma can_join_world (w : World) :
  snd (_can_join w)
  = mkWorld (script w) (S (tick w)) (db w)
            (with_join_times (automator w)
               (prune (now_at (script w) (tick w) - hour) (join_times (automator w))))
            (slept w) (send_calls w).
Proof.
  unfold _can_join, bind, datetime_now, next, modify_telegram, get_telegram.
  cbn [fst snd script tick db automator slept send_calls with_join_times
       join_times max_joins_per_hour].
  destruct (Z.leb _ _); [|reflexivity].
  destruct (prune _ _); reflexivity.
Qed.

Lemma can_dm_world (w : World) :
  snd (_can_dm w)
  = mkWorld (script w) (S (tick w)) (db w)
            (with_dm_times (automator w)
               (prune (now_at (script w) (tick w) - hour) (dm_times (automator w))))
            (slept w) (send_calls w).
Proof.
  unfold _can_dm, bind, datetime_now, next, modify_telegram, get_telegram.
  cbn [fst snd script tick db automator slept send_calls with_dm_times
       dm_times max_dms_per_hour].
  destruct (Z.leb _ _); [|reflexivity].
  destruct (prune _ _); reflexivity.
Qed.

Lemma send_dm_except_calls (e : TgError) (w : World) :
  send_calls (snd (send_dm_except e w)) = send_calls w.
Proof. unfold send_dm_except. destruct (err_kind e); reflexivity. Qed.

Lemma replace_brace_free_prefix (body new x y : string) :
  brace_free x = true ->
  replace_from (String "{" body) new 0 (x ++ y)
  = x ++ replace_from (String "{" body) new 0 y.
Proof.
  induction x as [|c x IH]; intros Hb; [reflexivity|].
  cbn [brace_free] in Hb. apply andb_prop in Hb. destruct Hb as [Hc Hx].
  apply negb_true_iff in Hc.
  change (String c x ++ y) with (String c (x ++ y)).
  cbn [replace_from]. rewrite (prefix_brace_other body _ c Hc).
  now rewrite (IH Hx).
Qed.

Lemma replace_step (old new : string) (c : ascii) (s : string) :
  prefix old (String c s) = false ->
  replace_from old new 0 (String c s) = String c (replace_from old new 0 s).
Proof. intros H. cbn [replace_from]. now rewrite H. Qed.

Lemma contains_step (old : string) (c : ascii) (s : string) :
  prefix old (String c s) = false ->
  str_contains old (String c s) = str_contains old s.
Proof. intros H. cbn [str_contains]. now rewrite H. Qed.

(** A placeholder other than [{token_symbol}] does not occur in
    [mid ++ "{token_symbol}" ++ post]. *)
Lemma absent_in_tail (body mid post : string) :
  (forall r, prefix (String "{" body) ("{token_symbol}" ++ r) = false) ->
  brace_free mid = true -> brace_free post = true ->
  str_contains (String "{" body) (mid ++ "{token_symbol}" ++ post) = false.
Proof.
  intros Hs Hmid Hpost. rewrite contains_after_brace_free by exact Hmid.
  change ("{token_symbol}" ++ post) with (String "{" ("token_symbol}" ++ post)).
  rewrite contains_step by apply (Hs post).
  apply contains_brace_free. rewrite brace_free_app, Hpost. reflexivity.
Qed.

(** A placeholder other than the two of the template does not occur in
    it. *)
Lemma absent_in_body (body pre mid post : string) :
  (forall r, prefix (String "{" body) ("{project_name}" ++ r) = false) ->
  (forall r, prefix (String "{" body) ("{token_symbol}" ++ r) = false) ->
  brace_free pre = true -> brace_free mid = true -> brace_free post = true ->
  str_contains (String "{" body)
               (pre ++ "{project_name}" ++ mid ++ "{token_symbol}" ++ post) = false.
Proof.
  intros Hp Hs Hpre Hmid Hpost. rewrite contains_after_brace_free by exact Hpre.
  change ("{project_name}" ++ mid ++ "{token_symbol}" ++ post)
    with (String "{" ("project_name}" ++ mid ++ "{token_symbol}" ++ post)).
  rewrite contains_step by apply (Hp (mid ++ "{token_symbol}" ++ post)).
  rewrite <- (append_assoc_s "project_name}" mid).
  apply absent_in_tail; [exact Hs | | exact Hpost].
  rewrite brace_free_app, Hmid. reflexivity.
Qed.

(** The source's three steps are the three substitutions: the test
    [in message] only spares a replacement that would change nothing. *)
Lemma personalize_substituted (message : string) (project_name token_symbol : option string) :
  personalize message project_name token_symbol
  = substituted "{token_symbol}" token_symbol
      (substituted "{project_name}" project_name
         (str_replace message "{admin_name_greeting}" "")).
Proof.
  unfold personalize, substituted, truthy.
  assert (Hg : (if str_contains "{admin_name_greeting}" message
                then str_replace message "{admin_name_greeting}" ""
                else message)
               = str_replace message "{admin_name_greeting}" "").
  { destruct (str_contains "{admin_name_greeting}" message) eqn:Hc; [reflexivity|].
    symmetry. now apply replace_absent. }
  rewrite Hg.
  destruct project_name as [n|], token_symbol as [sy|];
    try destruct (String.eqb n ""); try destruct (String.eqb sy ""); reflexivity.
Qed.

(** The three substitutions on a template that holds the placeholders
    once each, between texts without braces. *)
Lemma substituted_template (head greeting pre mid post : string)
    (name symbol : option string) :
  greeting = "" \/ greeting = "{admin_name_greeting}" ->
  brace_free head = true -> brace_free pre = true ->
  brace_free mid = true -> brace_free post = true ->
  (forall n, name = Some n -> brace_free n = true) ->
  substituted "{token_symbol}" symbol
    (substituted "{project_name}" name
       (str_replace
          (head ++ greeting ++ pre ++ "{project_name}" ++ mid ++ "{token_symbol}" ++ post)
          "{admin_name_greeting}" ""))
  = head ++ pre ++ shown "{project_name}" name ++ mid
         ++ shown "{token_symbol}" symbol ++ post.
Proof.
  intros Hgreeting Hhead Hpre Hmid Hpost Hname.
  assert (Hhp : brace_free (head ++ pre) = true)
    by (rewrite brace_free_app, Hhead, Hpre; reflexivity).
  (* the greeting *)
  assert (Hstep1 : str_replace
                     (head ++ greeting ++ pre ++ "{project_name}" ++ mid
                           ++ "{token_symbol}" ++ post)
                     "{admin_name_greeting}" ""
                   = (head ++ pre) ++ "{project_name}" ++ mid ++ "{token_symbol}" ++ post).
  { assert (Habsent : forall x, brace_free x = true ->
                        str_contains "{admin_name_greeting}"
                          (x ++ "{project_name}" ++ mid ++ "{token_symbol}" ++ post) = false).
    { intros x Hx. apply absent_in_body; try assumption; intros r; now vm_compute. }
    unfold str_replace. destruct Hgreeting as [-> | ->].
    - change ("" ++ pre ++ "{project_name}" ++ mid ++ "{token_symbol}" ++ post)
        with (pre ++ "{project_name}" ++ mid ++ "{token_symbol}" ++ post).
      rewrite <- (append_assoc_s head pre).
      apply replace_absent. now apply Habsent.
    - rewrite replace_at_occurrence by exact Hhead.
      rewrite (replace_absent _ _ _ (Habsent pre Hpre)).
      change ("" ++ pre ++ "{project_name}" ++ mid ++ "{token_symbol}" ++ post)
        with (pre ++ "{project_name}" ++ mid ++ "{token_symbol}" ++ post).
      now rewrite append_assoc_s. }
  rewrite Hstep1.
  (* the name *)
  assert (Hstep2 : substituted "{project_name}" name
                     ((head ++ pre) ++ "{project_name}" ++ mid ++ "{token_symbol}" ++ post)
                   = (head ++ pre) ++ shown "{project_name}" name ++ mid
                       ++ "{token_symbol}" ++ post).
  { unfold substituted, shown. destruct name as [n|]; [|reflexivity].
    destruct (String.eqb n ""); [reflexivity|].
    unfold str_replace. rewrite replace_at_occurrence by exact Hhp.
    rewrite replace_absent; [reflexivity|].
    apply absent_in_tail; try assumption. intros r. now vm_compute. }
  rewrite Hstep2.
  (* the symbol *)
  assert (Hstep3 : forall x, brace_free x = true ->
            substituted "{token_symbol}" symbol (x ++ "{token_symbol}" ++ post)
            = x ++ shown "{token_symbol}" symbol ++ post).
  { intros x Hx. unfold substituted, shown. destruct symbol as [sy|]; [|reflexivity].
    destruct (String.eqb sy ""); [reflexivity|].
    unfold str_replace. rewrite replace_at_occurrence by exact Hx.
    now rewrite (replace_absent _ _ _ (contains_brace_free _ _ Hpost)). }
  assert (Hshown : shown "{project_name}" name = "{project_name}"
                   \/ brace_free (shown "{project_name}" name) = true).
  { unfold shown. destruct name as [n|]; [|now left].
    destruct (String.eqb n ""); [now left | right; now apply Hname]. }
  destruct Hshown as [Hsame | Hfree].
  - rewrite Hsame.
    change ("{project_name}" ++ mid ++ "{token_symbol}" ++ post)
      with (String "{" ("project_name}" ++ mid ++ "{token_symbol}" ++ post)).
    assert (Hrest : substituted "{token_symbol}" symbol
                      ("project_name}" ++ mid ++ "{token_symbol}" ++ post)
                    = "project_name}" ++ mid ++ shown "{token_symbol}" symbol ++ post).
    { rewrite <- (append_assoc_s "project_name}" mid), Hstep3
        by (rewrite brace_free_app, Hmid; reflexivity).
      now rewrite append_assoc_s. }
    change (String "{" ("project_name}" ++ mid ++ shown "{token_symbol}" symbol ++ post))
      with ("{project_name}" ++ mid ++ shown "{token_symbol}" symbol ++ post).
    unfold substituted, shown in *. destruct symbol as [sy|]; [|now rewrite append_assoc_s].
    destruct (String.eqb sy ""); [now rewrite append_assoc_s|].
    unfold str_replace in *. rewrite replace_brace_free_prefix by exact Hhp.
    rewrite replace_step by now vm_compute. rewrite Hrest.
    now rewrite append_assoc_s.
  - rewrite <- (append_assoc_s (shown "{project_name}" name) mid).
    rewrite <- (append_assoc_s (head ++ pre)).
    rewrite Hstep3 by (rewrite !brace_free_app, Hhead, Hpre, Hfree, Hmid; reflexivity).
    now rewrite !append_assoc_s.
Qed.

(** C8, as the code has it.  When the message class is allowed and the
    recipient resolves, [send_dm] hands one text to [client.send_message]:
    the template in which [{admin_name_greeting}] is removed, then
    [{project_name}] is replaced by the lead's name when there is a name
    and it is not empty, then [{token_symbol}] by its symbol when there is a
    symbol and it is not empty.  For a template that holds the placeholders
    once each between texts without braces, with or without the greeting
    placeholder before them, the text sent is the template without the
    greeting placeholder, with the name and the symbol at the places of
    their placeholders, and with a placeholder left as written where the
    value is missing or empty.  A template that holds none of the three
    placeholders, such as one written with [{name}] and [{symbol}], is sent
    as it stands. *)
Theorem outreach_text_substitution (w : World) (recipient template : string)
    (name symbol : option string) (who : Entity) :
  fst (_can_dm w) = Ok (true, 0) ->
  get_entity_at (script w) (S (tick w)) = Returns who ->
  exists text,
    send_calls (snd (send_dm recipient template name symbol w))
    = (recipient, text) :: send_calls w
    /\ text = substituted "{token_symbol}" symbol
                (substituted "{project_name}" name
                   (str_replace template "{admin_name_greeting}" ""))
    /\ (forall head greeting pre mid post,
         template = head ++ greeting ++ pre ++ "{project_name}" ++ mid
                         ++ "{token_symbol}" ++ post ->
         greeting = "" \/ greeting = "{admin_name_greeting}" ->
         brace_free head = true -> brace_free pre = true ->
         brace_free mid = true -> brace_free post = true ->
         (forall n, name = Some n -> brace_free n = true) ->
         text = head ++ pre ++ shown "{project_name}" name ++ mid
                     ++ shown "{token_symbol}" symbol ++ post)
    /\ (str_contains "{admin_name_greeting}" template = false ->
        str_contains "{project_name}" template = false ->
        str_contains "{token_symbol}" template = false ->
        text = template).
Proof.
  intros Hcan Hent.
  exists (personalize template name symbol). split; [|split; [|split]].
  4: { intros Hg Hn Hs. rewrite personalize_substituted.
       unfold substituted, str_replace. rewrite (replace_absent _ _ _ Hg).
       destruct name as [n|]; [destruct (String.eqb n "")|];
         (destruct symbol as [sy|]; [destruct (String.eqb sy "")|]);
         rewrite ?(replace_absent _ _ _ Hn), ?(replace_absent _ _ _ Hs); reflexivity. }
  - unfold send_dm, bind.
    pose proof (can_dm_world w) as Hw.
    destruct (_can_dm w) as [r wc]. cbn [fst snd] in Hcan, Hw. subst r wc.
    cbn [negb].
    unfold next at 1. cbn [script tick db automator slept send_calls]. rewrite Hent.
    unfold client_send_message at 1. cbn [script tick db automator slept send_calls].
    destruct (send_message_at (script w) (S (S (tick w)))) as [[]|e].
    + reflexivity.
    + now rewrite send_dm_except_calls.
  - apply personalize_substituted.
  - intros head greeting pre mid post -> Hgreeting Hhead Hpre Hmid Hpost Hname.
    rewrite personalize_substituted. now apply substituted_template.
Qed.

Lemma outreach_text_substitution_witness :
  exists text,
    send_calls
      (snd (send_dm "bob" "{admin_name_greeting}Hi {project_name} ({token_symbol})"
                    (Some "Foo") (Some "") sample_world))
    = ("bob", text) :: send_calls sample_world
    /\ text = "Hi Foo ({token_symbol})".
Proof.
  destruct (outreach_text_substitution sample_world "bob"
              "{admin_name_greeting}Hi {project_name} ({token_symbol})"
              (Some "Foo") (Some "") Channel eq_refl eq_refl)
    as (text & Hcall & _ & Hshape & _).
  exists text. split; [exact Hcall|].
  apply (Hshape "" "{admin_name_greeting}" "Hi " " (" ")");
    try reflexivity; [now right|].
  intros n Hn. injection Hn as <-. reflexivity.
Defined.

(** With a template written with [{name}] and [{symbol}], the cycle sends
    the template as it stands to the owner of the sample lead's group. *)
Lemma name_symbol_sent_verbatim :
  send_calls (snd (_scrape_cycle name_symbol_config sample_world))
  = [("bob", "Hi {name} ({symbol})")]
  /\ String.eqb "Hi {name} ({symbol})" "Hi Foo (FOO)" = false.
Proof. split; vm_compute; reflexivity. Qed.

(** ** Joining a group *)

(** C10, as the code has it.  The rate check comes first.  When it allows
    the join class and the name resolves to a group: if the client is
    already a member, [join_group] succeeds, appends nothing to the window,
    which is left as the rate check pruned it (and so untouched when it
    held no entry older than an hour), leaves the counters and the
    database as they were and does not sleep; if it is not a member and
    the join request succeeds, the clock reading is appended to the window,
    [groups_joined] grows by one and the call sleeps [join_delay].  When
    the rate check denies, [join_group] fails with the rate-limit text
    without asking whether the client is a member; when it raises (a
    ceiling of zero and an empty window), so does [join_group].  The rate
    check allows exactly when the pruned window holds fewer entries than
    [max_joins_per_hour]. *)
Theorem already_member_join_is_free (w : World) (telegram_url u : string) (ent : Entity) :
  _extract_username (Some telegram_url) = Some u ->
  get_entity_at (script w) (S (tick w)) = Returns ent ->
  is_group ent = true ->
  let checked := automator (snd (_can_join w)) in
  let hour_ago := now_at (script w) (tick w) - hour in
  (fst (_can_join w) = Ok (true, 0) ->
   get_participants_at (script w) (S (S (tick w))) = Returns tt ->
   exists w',
     join_group telegram_url w = (Ok (true, None), w')
     /\ automator w' = checked
     /\ join_times (automator w') = prune hour_ago (join_times (automator w))
     /\ (Forall (fun t => hour_ago < t) (join_times (automator w)) ->
         automator w' = automator w)
     /\ stats (automator w') = stats (automator w)
     /\ slept w' = slept w
     /\ db w' = db w)
  /\ (fst (_can_join w) = Ok (true, 0) ->
      forall e,
        get_participants_at (script w) (S (S (tick w))) = Raises e ->
        join_channel_at (script w) (S (S (S (tick w)))) = Returns tt ->
        exists w',
          join_group telegram_url w = (Ok (true, None), w')
          /\ join_times (automator w')
             = (join_times checked ++ [now_at (script w) (S (S (S (S (tick w)))))])%list
          /\ st_groups_joined (stats (automator w'))
             = st_groups_joined (stats (automator w)) + 1
          /\ slept w' = join_delay (automator w) :: slept w
          /\ db w' = db w)
  /\ (forall wait,
        fst (_can_join w) = Ok (false, wait) ->
        exists w',
          join_group telegram_url w = (Ok (false, Some (rate_limited_text wait)), w')
          /\ automator w' = checked
          /\ stats (automator w') = stats (automator w)
          /\ slept w' = slept w
          /\ db w' = db w)
  /\ (forall ex,
        fst (_can_join w) = Raise ex ->
        join_group telegram_url w = (Raise ex, snd (_can_join w)))
  /\ (fst (_can_join w) = Ok (true, 0)
      <-> Z.of_nat (List.length (prune hour_ago (join_times (automator w))))
          < max_joins_per_hour (automator w)).
Proof.
  intros Hu Hent Hgroup checked hour_ago. subst checked hour_ago.
  pose proof (can_join_world w) as Hw.
  assert (Hallowed : fst (_can_join w) = Ok (true, 0)
                     <-> Z.of_nat (List.length
                                     (prune (now_at (script w) (tick w) - hour)
                                            (join_times (automator w))))
                         < max_joins_per_hour (automator w)).
  { pose proof (can_join_run w) as Hrun. cbv zeta in Hrun. rewrite Hrun. cbn [fst].
    destruct (Z.leb_spec (max_joins_per_hour (automator w))
                (Z.of_nat (List.length
                             (prune (now_at (script w) (tick w) - hour)
                                    (join_times (automator w)))))) as [Hle|Hlt].
    - split; [|lia]. destruct (prune _ _); discriminate.
    - split; [intros _; exact Hlt | reflexivity]. }
  unfold join_group, bind. rewrite Hu.
  destruct (_can_join w) as [r wc]. cbn [fst snd] in Hw, Hallowed |- *. subst wc.
  split; [|split; [|split; [|split; [|exact Hallowed]]]].
  4: { intros ex Hcan. subst r. reflexivity. }
  - intros Hcan Hpart. subst r.
    unfold next, ret. cbn [negb script tick db automator slept send_calls].
    rewrite Hent, Hgroup. cbn [negb script tick db automator slept send_calls].
    rewrite Hpart. eexists. split; [reflexivity|].
    cbn [automator slept db]. split; [reflexivity|]. split; [reflexivity|].
    split; [|repeat split; reflexivity].
    intros Hfresh. rewrite (prune_keeps_all _ _ Hfresh).
    destruct (automator w); reflexivity.
  - intros Hcan e Hpart Hjoin. subst r.
    unfold next, datetime_now, modify_stats, modify_telegram, get_telegram,
      asyncio_sleep, ret.
    cbn [negb script tick db automator slept send_calls].
    rewrite Hent, Hgroup. cbn [negb script tick db automator slept send_calls].
    rewrite Hpart. cbn [negb script tick db automator slept send_calls]. rewrite Hjoin.
    eexists. split; [reflexivity|].
    cbn [automator slept db with_join_times with_stats join_times stats
         add_groups_joined st_groups_joined join_delay].
    repeat split; reflexivity.
  - intros wait Hcan. subst r. cbn [negb ret].
    eexists. split; [reflexivity|]. cbn [automator slept db]. repeat split; reflexivity.
Qed.

Lemma already_member_join_is_free_witness :
  exists w',
    join_group "https://t.me/foogroup" member_world = (Ok (true, None), w')
    /\ automator w' = automator (snd (_can_join member_world))
    /\ join_times (automator w')
       = prune (now_at (script member_world) (tick member_world) - hour)
               (join_times (automator member_world))
    /\ stats (automator w') = stats (automator member_world)
    /\ slept w' = slept member_world
    /\ db w' = db member_world.
Proof.
  destruct (already_member_join_is_free member_world "https://t.me/foogroup"
              "foogroup" Channel eq_refl eq_refl eq_refl) as (Hmember & _).
  destruct (Hmember eq_refl eq_refl) as (w' & H1 & H2 & H3 & _ & H4 & H5 & H6).
  exists w'. repeat split; assumption.
Defined.

(** C10, as it was claimed.  The client is a member of the group in both
    worlds.  With a full window the call does not succeed: it fails with
    the rate-limit text.  With room in the window and one entry older than
    an hour the call succeeds and the window is not left untouched: the old
    entry is gone. *)
Lemma member_join_can_be_denied :
  get_participants_at (script busy_member_world) 2 = Returns tt
  /\ fst (join_group "https://t.me/foogroup" busy_member_world)
     = Ok (false, Some "Rate limited, wait 1800s")
  /\ fst (join_group "https://t.me/foogroup" stale_member_world) = Ok (true, None)
  /\ join_times (automator stale_member_world) = [1000 * day - 2 * hour]
  /\ join_times (automator (snd (join_group "https://t.me/foogroup" stale_member_world)))
     = [].
Proof. repeat split; vm_compute; reflexivity. Qed.

(** ** Rate-limit denials in [process_project] *)

Lemma tables_incremented (m : Metric) (amount : Z) (today : date) (d : Db) :
  telegram_groups (incremented m amount today d) = telegram_groups d
  /\ admins (incremented m amount today d) = admins d
  /\ messages (incremented m amount today d) = messages d.
Proof.
  unfold incremented, update_daily_metrics, insert_or_ignore_daily_metrics.
  destruct (existsb _ (daily_metrics d)); repeat split; reflexivity.
Qed.

Lemma add_telegram_group_failed (project_id : option Z) (telegram_url : string)
    (error : option string) (w : World) :
  add_telegram_group project_id telegram_url false error w
  = if group_recorded project_id telegram_url (db w)
    then (Ok None, w)
    else
      let rowid := telegram_groups_seq (db w) + 1 in
      let row := mkGroup rowid project_id telegram_url None
                         (Some (current_timestamp_at (script w) (tick w)))
                         false error None in
      (Ok (Some rowid),
       mkWorld (script w) (S (S (tick w)))
               (incremented join_failures 1 (date_of (now_at (script w) (S (tick w))))
                  (with_telegram_groups (db w) (telegram_groups (db w) ++ [row])%list rowid))
               (automator w) (slept w) (send_calls w)).
Proof.
  unfold add_telegram_group, insert_into_telegram_groups, group_recorded, bind, get_db.
  destruct (existsb _ (telegram_groups (db w))); reflexivity.
Qed.

Lemma add_message_failed (project_id admin_id : option Z) (text : string)
    (template_used error : option string) (w : World) :
  let rowid := messages_seq (db w) + 1 in
  let row := mkMessage rowid project_id admin_id text template_used
                       (Some (current_timestamp_at (script w) (tick w)))
                       false error false None None false None in
  add_message project_id admin_id text template_used false error w
  = (Ok rowid,
     mkWorld (script w) (S (S (tick w)))
             (incremented dms_failed 1 (date_of (now_at (script w) (S (tick w))))
                (with_messages (db w) (messages (db w) ++ [row])%list rowid))
             (automator w) (slept w) (send_calls w)).
Proof. reflexivity. Qed.

Lemma join_denied_process (w : World) (project : ProjectRow)
    (template telegram_url u : string) (wait : Z) :
  p_telegram_url project = Some telegram_url ->
  telegram_url <> "" ->
  _extract_username (Some telegram_url) = Some u ->
  fst (_can_join w) = Ok (false, wait) ->
  process_project project template w
  = (Ok (mkResult (p_id project) (p_name project) (p_symbol project) false 0 false
                  (Some ("Join failed: " ++ rate_limited_text wait))),
     snd (add_telegram_group (Some (p_id project)) telegram_url false
            (Some (rate_limited_text wait)) (snd (_can_join w)))).
Proof.
  intros Hurl Hne Hu Hcan.
  unfold process_project. rewrite Hurl.
  assert (Ht : truthy (Some telegram_url) = true).
  { unfold truthy. destruct (String.eqb_spec telegram_url ""); [contradiction|reflexivity]. }
  rewrite Ht. cbn [negb]. unfold bind at 1. unfold join_group. rewrite Hu.
  unfold bind at 1. destruct (_can_join w) as [r wc]. cbn [fst snd] in Hcan |- *.
  subst r. cbn [negb]. unfold ret at 1. cbn [negb]. unfold bind at 1.
  unfold rate_limited_text. rewrite !add_telegram_group_failed.
  destruct (group_recorded _ _ _); reflexivity.
Qed.

Lemma dm_denied_process (v v1 v2 v3 v4 : World) (project : ProjectRow)
    (template telegram_url : string) (group_id : option Z)
    (first : AdminInfo) (rest : list AdminInfo) (wait : Z) :
  p_telegram_url project = Some telegram_url ->
  telegram_url <> "" ->
  join_group telegram_url v = (Ok (true, None), v1) ->
  add_telegram_group (Some (p_id project)) telegram_url true None v1 = (Ok group_id, v2) ->
  get_group_admins telegram_url v2 = (Ok (first :: rest), v3) ->
  record_admins (Some (p_id project)) group_id (first :: rest) v3 = (Ok tt, v4) ->
  fst (_can_dm v4) = Ok (false, wait) ->
  exists admin_id,
    process_project project template v
    = (Ok (mkResult (p_id project) (p_name project) (p_symbol project) true
                    (Z.of_nat (List.length (first :: rest))) false
                    (Some ("DM failed: " ++ rate_limited_text wait))),
       snd (add_message (Some (p_id project)) admin_id template (Some "default") false
              (Some (rate_limited_text wait)) (snd (_can_dm v4)))).
Proof.
  intros Hurl Hne Hjoin Hgroup Hadmins Hrec Hcan.
  unfold process_project. rewrite Hurl.
  assert (Ht : truthy (Some telegram_url) = true).
  { unfold truthy. destruct (String.eqb_spec telegram_url ""); [contradiction|reflexivity]. }
  rewrite Ht. cbn [negb].
  unfold bind at 1. rewrite Hjoin. cbn [negb].
  unfold bind at 1. rewrite Hgroup.
  unfold bind at 1. rewrite Hadmins.
  unfold bind at 1. rewrite Hrec.
  unfold bind at 1. unfold send_dm. unfold bind at 1.
  destruct (_can_dm v4) as [r vc]. cbn [fst snd] in Hcan |- *. subst r.
  cbn [negb]. unfold ret at 1.
  unfold bind at 1. unfold get_uncontacted_admins at 1. unfold bind at 1, get_db at 1.
  unfold ret at 1. unfold bind at 1.
  unfold rate_limited_text. rewrite !add_message_failed. cbn [fst snd].
  eexists. reflexivity.
Qed.

(** C4, as the code has it.  A denial by the rate limiter makes
    [process_project] return at once, its error text carrying the wait,
    without sleeping, sending, or counting a failure in the session
    statistics; but the denial is recorded in the store as a failed
    attempt.  Join class (world [w]): a failed [telegram_groups] row and
    [join_failures + 1], unless the lead and URL already have a row, in
    which case the database is left as it was.  Message class (world [v],
    denied after the join and the recording of the admins led to [v4]): a
    failed [messages] row and [dms_failed + 1]. *)
Theorem rate_limit_denial_is_recorded (w v v1 v2 v3 v4 : World) (project : ProjectRow)
    (template telegram_url u : string) (wait_join wait_dm : Z) (group_id : option Z)
    (first : AdminInfo) (rest : list AdminInfo) :
  p_telegram_url project = Some telegram_url ->
  telegram_url <> "" ->
  _extract_username (Some telegram_url) = Some u ->
  fst (_can_join w) = Ok (false, wait_join) ->
  join_group telegram_url v = (Ok (true, None), v1) ->
  add_telegram_group (Some (p_id project)) telegram_url true None v1 = (Ok group_id, v2) ->
  get_group_admins telegram_url v2 = (Ok (first :: rest), v3) ->
  record_admins (Some (p_id project)) group_id (first :: rest) v3 = (Ok tt, v4) ->
  fst (_can_dm v4) = Ok (false, wait_dm) ->
  (exists w',
     process_project project template w
     = (Ok (mkResult (p_id project) (p_name project) (p_symbol project) false 0 false
                     (Some ("Join failed: " ++ rate_limited_text wait_join))), w')
     /\ automator w' = automator (snd (_can_join w))
     /\ stats (automator w') = stats (automator w)
     /\ slept w' = slept w
     /\ send_calls w' = send_calls w
     /\ projects (db w') = projects (db w)
     /\ (group_recorded (Some (p_id project)) telegram_url (db w) = true -> db w' = db w)
     /\ (group_recorded (Some (p_id project)) telegram_url (db w) = false ->
         telegram_groups (db w')
         = (telegram_groups (db w)
            ++ [mkGroup (telegram_groups_seq (db w) + 1) (Some (p_id project)) telegram_url
                        None (Some (current_timestamp_at (script w) (S (tick w))))
                        false (Some (rate_limited_text wait_join)) None])%list
         /\ metric_on join_failures (date_of (now_at (script w) (S (S (tick w))))) (db w')
            = metric_on join_failures (date_of (now_at (script w) (S (S (tick w))))) (db w)
              + 1))
  /\ (exists v' admin_id,
        process_project project template v
        = (Ok (mkResult (p_id project) (p_name project) (p_symbol project) true
                        (Z.of_nat (List.length (first :: rest))) false
                        (Some ("DM failed: " ++ rate_limited_text wait_dm))), v')
        /\ stats (automator v') = stats (automator v4)
        /\ slept v' = slept v4
        /\ send_calls v' = send_calls v4
        /\ projects (db v') = projects (db v4)
        /\ messages (db v')
           = (messages (db v4)
              ++ [mkMessage (messages_seq (db v4) + 1) (Some (p_id project)) admin_id
                            template (Some "default")
                            (Some (current_timestamp_at (script v4) (S (tick v4))))
                            false (Some (rate_limited_text wait_dm))
                            false None None false None])%list
        /\ metric_on dms_failed (date_of (now_at (script v4) (S (S (tick v4))))) (db v')
           = metric_on dms_failed (date_of (now_at (script v4) (S (S (tick v4))))) (db v4)
             + 1).
Proof.
  intros Hurl Hne Hu Hcj Hjoin Hgroup Hadmins Hrec Hcd. split.
  - eexists. split; [apply (join_denied_process w project template telegram_url u); assumption|].
    rewrite add_telegram_group_failed, can_join_world.
    cbn [script tick db automator slept send_calls].
    destruct (group_recorded _ _ (db w)) eqn:Hrec0; cbn [snd script tick db automator slept send_calls].
    + repeat split; try reflexivity; discriminate.
    + rewrite (proj1 (projects_incremented _ _ _ _)).
      rewrite (proj1 (tables_incremented _ _ _ _)).
      rewrite metric_incremented_same.
      repeat split; try reflexivity; discriminate.
  - destruct (dm_denied_process v v1 v2 v3 v4 project template telegram_url group_id
                first rest wait_dm) as [admin_id Hrun]; try assumption.
    eexists. exists admin_id. split; [exact Hrun|].
    rewrite add_message_failed, can_dm_world.
    cbn [snd script tick db automator slept send_calls].
    rewrite (proj1 (projects_incremented _ _ _ _)).
    rewrite (proj2 (proj2 (tables_incremented _ _ _ _))).
    rewrite metric_incremented_same.
    repeat split; reflexivity.
Qed.

Lemma rate_limit_denial_is_recorded_witness :
  (exists w',
     process_project sample_lead "Hi" join_busy_world
     = (Ok (mkResult 1 (Some "Foo") (Some "FOO") false 0 false
                     (Some ("Join failed: " ++ rate_limited_text 1800))), w')
     /\ slept w' = slept join_busy_world)
  /\ (exists v',
        process_project sample_lead "Hi" dm_busy_world
        = (Ok (mkResult 1 (Some "Foo") (Some "FOO") true 2 false
                        (Some ("DM failed: " ++ rate_limited_text 2386))), v')
        /\ slept v' = slept dm_busy_recorded).
Proof.
  destruct (rate_limit_denial_is_recorded join_busy_world dm_busy_world
              dm_busy_joined dm_busy_grouped dm_busy_listed dm_busy_recorded
              sample_lead "Hi" "https://t.me/foogroup" "foogroup" 1800 2386 (Some 1)
              (mkAdminInfo "alice" 11 "Alice" false) [mkAdminInfo "bob" 12 "" true])
    as [(w' & Hw & _ & _ & Hs & _) (v' & admin_id & Hv & _ & Hs' & _)].
  - reflexivity.
  - discriminate.
  - reflexivity.
  - vm_compute. reflexivity.
  - vm_compute. reflexivity.
  - vm_compute. reflexivity.
  - vm_compute. reflexivity.
  - vm_compute. reflexivity.
  - vm_compute. reflexivity.
  - split; [exists w' | exists v']; split; assumption.
Defined.

(** A denial of the join class during a cycle, and a denial of the message
    class while the sample lead is processed, each leave a failed row and a
    failure count in the store. *)
Lemma rate_limit_denial_leaves_failure :
  telegram_groups (db busy_world) = []
  /\ map (fun g => (g_join_success g, g_join_error g))
         (telegram_groups (db (snd (_scrape_cycle sample_config busy_world))))
     = [(false, Some "Rate limited, wait 1796s")]
  /\ metric_on join_failures 1000 (db (snd (_scrape_cycle sample_config busy_world))) = 1
  /\ messages (db dm_busy_world) = []
  /\ map (fun m => (m_send_success m, m_send_error m))
         (messages (db (snd (process_project sample_lead "Hi" dm_busy_world))))
     = [(false, Some "Rate limited, wait 2386s")]
  /\ metric_on dms_failed 1000 (db (snd (process_project sample_lead "Hi" dm_busy_world))) = 1.
Proof. repeat split; vm_compute; reflexivity. Qed.

(** ** Forward-only status *)

Section Preserves.
Variable R : World -> World -> Prop.
Hypothesis R_refl : forall w, R w w.
Hypothesis R_trans : forall a b c, R a b -> R b c -> R a c.

Lemma preserves_ret {A : Type} (a : A) : preserves R (ret a).
Proof. intros w. apply R_refl. Qed.

Lemma preserves_raise {A : Type} (e : Exn) : preserves R (@raise A e).
Proof. intros w. apply R_refl. Qed.

Lemma preserves_bind {A B : Type} (c : M A) (k : A -> M B) :
  preserves R c -> (forall a, preserves R (k a)) -> preserves R (bind c k).
Proof.
  intros Hc Hk w. unfold bind. specialize (Hc w).
  destruct (c w) as [[a|e] w1]; cbn [snd] in *; [|exact Hc].
  eapply R_trans; [exact Hc | apply Hk].
Qed.

Lemma preserves_for_each {A : Type} (l : list A) (body : A -> M unit) :
  (forall x, preserves R (body x)) -> preserves R (for_each l body).
Proof.
  intros Hb. induction l as [|x l IH]; cbn [for_each].
  - apply preserves_ret.
  - apply preserves_bind; [apply Hb | intros _; exact IH].
Qed.
End Preserves.

Lemma steady_refl (P : Z -> Prop) (w : World) : steady P w w.
Proof.
  split; [reflexivity|]. exists (fun r => r).
  rewrite map_id. repeat split; reflexivity.
Qed.

Lemma steady_trans (P : Z -> Prop) (a b c : World) :
  steady P a b -> steady P b c -> steady P a c.
Proof.
  intros [Hs1 (g1 & Hp1 & Hi1 & Hst1)] [Hs2 (g2 & Hp2 & Hi2 & Hst2)].
  split; [congruence|]. exists (fun r => g2 (g1 r)).
  split; [rewrite Hp2, Hp1; apply map_map|]. split.
  - intros r. now rewrite Hi2, Hi1.
  - intros r Hr. rewrite Hst2, Hst1; auto. now rewrite Hi1.
Qed.

Lemma steady_same (P : Z -> Prop) (w w' : World) :
  projects (db w') = projects (db w) ->
  projects_seq (db w') = projects_seq (db w) ->
  steady P w w'.
Proof.
  intros Hp Hs. split; [exact Hs|]. exists (fun r => r).
  rewrite map_id. repeat split; auto.
Qed.

Lemma st_ret (P : Z -> Prop) {A : Type} (a : A) : preserves (steady P) (ret a).
Proof. apply preserves_ret, steady_refl. Qed.

Lemma st_raise (P : Z -> Prop) {A : Type} (e : Exn) : preserves (steady P) (@raise A e).
Proof. apply preserves_raise, steady_refl. Qed.

Lemma st_bind (P : Z -> Prop) {A B : Type} (c : M A) (k : A -> M B) :
  preserves (steady P) c -> (forall a, preserves (steady P) (k a)) ->
  preserves (steady P) (bind c k).
Proof. apply preserves_bind, steady_trans. Qed.

Lemma st_for_each (P : Z -> Prop) {A : Type} (l : list A) (body : A -> M unit) :
  (forall x, preserves (steady P) (body x)) -> preserves (steady P) (for_each l body).
Proof. apply preserves_for_each; [apply steady_refl | apply steady_trans]. Qed.

Lemma st_next (P : Z -> Prop) {A : Type} (f : Script -> nat -> A) :
  preserves (steady P) (next f).
Proof. intros w. now apply steady_same. Qed.

Lemma st_get_db (P : Z -> Prop) : preserves (steady P) get_db.
Proof. intros w. apply steady_refl. Qed.

Lemma st_get_telegram (P : Z -> Prop) : preserves (steady P) get_telegram.
Proof. intros w. apply steady_refl. Qed.

Lemma st_modify_telegram (P : Z -> Prop) (f : TelegramAutomator -> TelegramAutomator) :
  preserves (steady P) (modify_telegram f).
Proof. intros w. now apply steady_same. Qed.

Lemma st_sleep (P : Z -> Prop) (seconds : Z) : preserves (steady P) (asyncio_sleep seconds).
Proof. intros w. now apply steady_same. Qed.

Lemma st_send_message (P : Z -> Prop) (recipient text : string) :
  preserves (steady P) (client_send_message recipient text).
Proof. intros w. now apply steady_same. Qed.

Lemma st_modify_db (P : Z -> Prop) (f : Db -> Db) :
  (forall d, projects (f d) = projects d /\ projects_seq (f d) = projects_seq d) ->
  preserves (steady P) (modify_db f).
Proof. intros Hf w. apply steady_same; cbn [snd modify_db db]; apply Hf. Qed.

Lemma st_increment (P : Z -> Prop) (m : Metric) (amount : Z) :
  preserves (steady P) (_increment_daily_metric m amount).
Proof.
  intros w. rewrite increment_run. apply steady_same; cbn [snd db];
    apply projects_incremented.
Qed.

Lemma sql_eq_some (x : Z) (o : option Z) : sql_eq (Some x) o = true -> o = Some x.
Proof.
  destruct o as [y|]; simpl; [|discriminate].
  intros H. apply Z.eqb_eq in H. now subst.
Qed.

Lemma st_update_project_status (P : Z -> Prop) (project_id : option Z) (status : Status) :
  (forall i, project_id = Some i -> P i) ->
  preserves (steady P) (update_project_status project_id status).
Proof.
  intros HP w. split; [reflexivity|].
  exists (fun r => if sql_eq (Some (p_id r)) project_id
                   then set_status status (current_timestamp_at (script w) (tick w)) r
                   else r).
  split; [reflexivity|]. split.
  - intros r. destruct (sql_eq _ _); reflexivity.
  - intros r Hr. destruct (sql_eq _ _) eqn:He; [|reflexivity].
    apply sql_eq_some in He. exfalso. apply Hr. now apply HP.
Qed.

Lemma st_update_index_status (P : Z -> Prop) (project_id : option Z) (is_indexed : bool) :
  preserves (steady P) (update_index_status project_id is_indexed).
Proof.
  unfold update_index_status. apply st_bind; [apply st_next|]. intros ts.
  apply st_bind.
  - intros w. split; [reflexivity|].
    exists (fun r => if sql_eq (Some (p_id r)) project_id
                     then set_is_indexed is_indexed ts r else r).
    split; [reflexivity|].
    split; intros r; [|intros _]; destruct (sql_eq _ _); reflexivity.
  - intros _. destruct (negb is_indexed); [apply st_increment | apply st_ret].
Qed.

Create HintDb steady.
#[local] Hint Resolve st_ret st_raise st_next st_get_db st_get_telegram st_modify_telegram
  st_sleep st_send_message st_increment st_update_index_status : steady.

(** Decomposes a goal [preserves (steady P) c] along the structure of [c]. *)
Ltac steady_go :=
  repeat first
    [ solve [auto with steady]
    | apply st_bind; [|intros ?]
    | apply st_for_each; intros ?
    | apply st_modify_db; intros ?; split; reflexivity
    | match goal with
      | |- preserves _ (match ?x with _ => _ end) => destruct x
      end ].

Lemma st_modify_stats (P : Z -> Prop) (f : Stats -> Stats) :
  preserves (steady P) (modify_stats f).
Proof. unfold modify_stats. steady_go. Qed.

Lemma st_py_min (P : Z -> Prop) (l : list datetime) : preserves (steady P) (py_min l).
Proof. unfold py_min. steady_go. Qed.

#[local] Hint Resolve st_modify_stats st_py_min : steady.

Lemma st_can_join (P : Z -> Prop) : preserves (steady P) _can_join.
Proof. unfold _can_join, datetime_now. steady_go. Qed.

Lemma st_can_dm (P : Z -> Prop) : preserves (steady P) _can_dm.
Proof. unfold _can_dm, datetime_now. steady_go. Qed.

#[local] Hint Resolve st_can_join st_can_dm : steady.

Lemma st_join_group (P : Z -> Prop) (telegram_url : string) :
  preserves (steady P) (join_group telegram_url).
Proof. unfold join_group, join_group_except, datetime_now. steady_go. Qed.

Lemma st_get_group_admins (P : Z -> Prop) (telegram_url : string) :
  preserves (steady P) (get_group_admins telegram_url).
Proof. unfold get_group_admins. steady_go. Qed.

Lemma st_send_dm (P : Z -> Prop) (recipient message : string)
    (project_name token_symbol : option string) :
  preserves (steady P) (send_dm recipient message project_name token_symbol).
Proof. unfold send_dm, send_dm_except, datetime_now. steady_go. Qed.

Lemma st_add_telegram_group (P : Z -> Prop) (project_id : option Z) (telegram_url : string)
    (joined' : bool) (error : option string) :
  (forall i, project_id = Some i -> P i) ->
  preserves (steady P) (add_telegram_group project_id telegram_url joined' error).
Proof.
  intros HP. pose proof (st_update_project_status P project_id joined HP).
  unfold add_telegram_group, insert_into_telegram_groups, CURRENT_TIMESTAMP. steady_go.
Qed.

Lemma st_add_admin (P : Z -> Prop) (project_id group_id : option Z) (username' : string)
    (user_id' first_name' : option string) (is_owner' : bool) :
  preserves (steady P) (add_admin project_id group_id username' user_id' first_name' is_owner').
Proof. unfold add_admin, insert_into_admins, CURRENT_TIMESTAMP. steady_go. Qed.

Lemma st_get_uncontacted_admins (P : Z -> Prop) (project_id : option Z) :
  preserves (steady P) (get_uncontacted_admins project_id).
Proof. unfold get_uncontacted_admins. steady_go. Qed.

Lemma st_add_message (P : Z -> Prop) (project_id admin_id : option Z) (text : string)
    (template_used : option string) (success : bool) (error : option string) :
  (forall i, project_id = Some i -> P i) ->
  preserves (steady P) (add_message project_id admin_id text template_used success error).
Proof.
  intros HP. pose proof (st_update_project_status P project_id contacted HP).
  unfold add_message, CURRENT_TIMESTAMP. steady_go.
Qed.

#[local] Hint Resolve st_join_group st_get_group_admins st_send_dm st_add_admin
  st_get_uncontacted_admins : steady.

Lemma st_record_admins (P : Z -> Prop) (project_id group_id : option Z)
    (found : list AdminInfo) :
  preserves (steady P) (record_admins project_id group_id found).
Proof. unfold record_admins. steady_go. Qed.

#[local] Hint Resolve st_record_admins : steady.

(** Processing a lead changes the status of no other lead. *)
Lemma st_process_project (project : ProjectRow) (template : string) :
  preserves (steady (fun i => i = p_id project)) (process_project project template).
Proof.
  assert (HP : forall i, Some (p_id project) = Some i -> i = p_id project)
    by (intros i H; now injection H).
  pose proof (fun url j e =>
                st_add_telegram_group (fun i => i = p_id project) (Some (p_id project))
                  url j e HP) as Hg.
  pose proof (fun a t tu sc e =>
                st_add_message (fun i => i = p_id project) (Some (p_id project))
                  a t tu sc e HP) as Hm.
  unfold process_project. steady_go.
Qed.

Lemma rank_discovered_least (s : Status) : rank discovered <= rank s.
Proof. destruct s; simpl; lia. Qed.

Lemma advanced_refl (d : Db) : advanced d d.
Proof. intros r Hr. exists r. repeat split; [exact Hr | lia]. Qed.

Lemma advanced_trans (a b c : Db) : advanced a b -> advanced b c -> advanced a c.
Proof.
  intros Hab Hbc r Hr.
  destruct (Hab r Hr) as (r1 & Hin1 & Hid1 & Hrk1).
  destruct (Hbc r1 Hin1) as (r2 & Hin2 & Hid2 & Hrk2).
  exists r2. repeat split; [exact Hin2 | congruence | lia].
Qed.

Lemma forward_refl (w : World) : forward w w.
Proof. intros H. split; [exact H | apply advanced_refl]. Qed.

Lemma forward_trans (a b c : World) : forward a b -> forward b c -> forward a c.
Proof.
  intros Hab Hbc Ha. destruct (Hab Ha) as [Hb Hadv1]. destruct (Hbc Hb) as [Hc Hadv2].
  split; [exact Hc | eapply advanced_trans; eassumption].
Qed.

Lemma steady_leads_ok (P : Z -> Prop) (w w' : World) :
  steady P w w' -> leads_ok (db w) -> leads_ok (db w').
Proof.
  intros [Hs (g & Hp & Hi & _)] [Hnd Hle]. unfold leads_ok. rewrite Hp, Hs.
  assert (Hids : map p_id (map g (projects (db w))) = map p_id (projects (db w))).
  { rewrite map_map. apply map_ext. exact Hi. }
  split; [now rewrite Hids|].
  apply Forall_forall. intros r' Hin. apply in_map_iff in Hin.
  destruct Hin as (r & <- & Hin). rewrite Hi.
  rewrite Forall_forall in Hle. now apply Hle.
Qed.

Lemma steady_advanced (P : Z -> Prop) (w w' : World) :
  (forall i, P i \/ ~ P i) ->
  steady P w w' ->
  (forall r, In r (projects (db w)) -> P (p_id r) -> p_status r = discovered) ->
  advanced (db w) (db w').
Proof.
  intros Hdec [_ (g & Hp & Hi & Hst)] Hdisc r Hr.
  exists (g r). split; [rewrite Hp; now apply in_map|]. split; [apply Hi|].
  destruct (Hdec (p_id r)) as [HP|HP].
  - rewrite (Hdisc r Hr HP). apply rank_discovered_least.
  - rewrite (Hst r HP). lia.
Qed.

Lemma steady_none_forward (w w' : World) : steady (fun _ => False) w w' -> forward w w'.
Proof.
  intros Hs Hok. split; [eapply steady_leads_ok; eassumption|].
  eapply steady_advanced; [|exact Hs|]; [now right | intros r _ []].
Qed.

(** *** Adding leads *)

Lemma grown_refl (w : World) : grown w w.
Proof. split; [auto|]. exists []. now rewrite app_nil_r. Qed.

Lemma grown_trans (a b c : World) : grown a b -> grown b c -> grown a c.
Proof.
  intros [H1 (e1 & Hp1)] [H2 (e2 & Hp2)]. split; [auto|].
  exists (e1 ++ e2)%list. now rewrite Hp2, Hp1, app_assoc.
Qed.

Lemma grown_forward (w w' : World) : grown w w' -> forward w w'.
Proof.
  intros [Hok (extra & Hp)] H. split; [auto|].
  intros r Hr. exists r. rewrite Hp. repeat split; [|lia].
  apply in_or_app. now left.
Qed.

Lemma grown_add_project (token : Token) : preserves grown (add_project token).
Proof.
  intros w. destruct (address token) as [a|] eqn:Ha.
  - destruct (existsb (has_address a) (projects (db w))) eqn:Hex.
    + rewrite (add_project_duplicate w token a Ha Hex). apply grown_refl.
    + pose proof (add_project_fresh_projects w token a Ha Hex) as Hp.
      assert (Hseq : projects_seq (db (snd (add_project token w)))
                     = projects_seq (db w) + 1).
      { rewrite (add_project_fresh w token a Ha Hex).
        destruct (truthy (telegram token)); cbn [snd db];
          repeat rewrite (proj2 (projects_incremented _ _ _ _)); reflexivity. }
      split; [|eexists; exact Hp].
      intros [Hnd Hle]. unfold leads_ok. rewrite Hp, Hseq, map_app. cbn [map p_id project_row].
      rewrite Forall_forall in Hle. split.
      * apply NoDup_app; [exact Hnd | repeat constructor; intros [] |].
        intros x Hx [<-|[]]. apply in_map_iff in Hx. destruct Hx as (r & He & Hr).
        specialize (Hle r Hr). lia.
      * apply Forall_forall. intros r Hr. apply in_app_or in Hr.
        destruct Hr as [Hr|[<-|[]]]; [specialize (Hle r Hr); lia | cbn; lia].
  - rewrite (add_project_no_address w token Ha). apply grown_refl.
Qed.

Lemma grown_add_projects (tokens : list Token) :
  preserves grown (for_each tokens (fun token => add_project token ;; ret tt)).
Proof.
  apply preserves_for_each; [apply grown_refl | apply grown_trans|].
  intros token. apply preserves_bind; [apply grown_trans | apply grown_add_project|].
  intros _. apply preserves_ret, grown_refl.
Qed.

(** *** The phases of a cycle that add no lead and change no status *)

Lemma st_get_uncontacted_projects (P : Z -> Prop) (limit : Z) (only_unindexed : bool) :
  preserves (steady P) (get_uncontacted_projects limit only_unindexed).
Proof. unfold get_uncontacted_projects. steady_go. Qed.

Lemma st_get_project (P : Z -> Prop) (project_id : option Z) (contract_address : option string) :
  preserves (steady P) (get_project project_id contract_address).
Proof. unfold get_project. steady_go. Qed.

#[local] Hint Resolve st_get_uncontacted_projects st_get_project : steady.

Lemma st_scrape_chains (P : Z -> Prop) (chains : list string)
    (skip_addresses : list (option string)) (new_tokens : list Token) :
  preserves (steady P) (scrape_chains chains skip_addresses new_tokens).
Proof.
  revert skip_addresses new_tokens.
  induction chains as [|c chains IH]; intros skip_addresses new_tokens; cbn [scrape_chains].
  - apply st_ret.
  - apply st_bind; [apply st_next|]. intros tokens.
    destruct (keep_new tokens skip_addresses new_tokens). apply IH.
Qed.

#[local] Hint Resolve st_scrape_chains : steady.

Lemma st_scrape_new_tokens (P : Z -> Prop) (config : Config) :
  preserves (steady P) (scrape_new_tokens config).
Proof. unfold scrape_new_tokens, addresses_to_skip. steady_go. Qed.

Lemma st_check_indexes (P : Z -> Prop) (tokens : list Token) :
  preserves (steady P) (_check_indexes tokens).
Proof. unfold _check_indexes. steady_go. Qed.

Lemma st_log_error (P : Z -> Prop) (error_type error_message : string)
    (context : option string) :
  preserves (steady P) (log_error error_type error_message context).
Proof. unfold log_error, CURRENT_TIMESTAMP. steady_go. Qed.

(** *** The batch of leads a cycle processes *)

Lemma insert_desc_perm (r : ProjectRow) (l : list ProjectRow) :
  Permutation (insert_desc r l) (r :: l).
Proof.
  induction l as [|x l IH]; cbn [insert_desc]; [reflexivity|].
  destruct (Z.leb _ _); [reflexivity|].
  rewrite IH. apply perm_swap.
Qed.

Lemma order_by_perm (l : list ProjectRow) :
  Permutation (order_by_discovered_at_desc l) l.
Proof.
  induction l as [|x l IH]; cbn; [reflexivity|].
  rewrite insert_desc_perm. now constructor.
Qed.

Lemma firstn_In_of {A : Type} (n : nat) (l : list A) (x : A) :
  In x (firstn n l) -> In x l.
Proof.
  revert l. induction n as [|n IH]; intros [|y l]; cbn; try tauto.
  intros [H|H]; [now left | right; now apply IH].
Qed.

Lemma firstn_NoDup {A : Type} (n : nat) (l : list A) :
  NoDup l -> NoDup (firstn n l).
Proof.
  revert l. induction n as [|n IH]; intros [|y l] H; cbn; try constructor.
  - inversion H; subst. intros Hin. apply firstn_In_of in Hin. contradiction.
  - inversion H; subst. now apply IH.
Qed.

Lemma sql_limit_In {A : Type} (limit : Z) (l : list A) (x : A) :
  In x (sql_limit limit l) -> In x l.
Proof. unfold sql_limit. destruct (Z.ltb limit 0); [auto | apply firstn_In_of]. Qed.

Lemma filter_ids_NoDup (f : ProjectRow -> bool) (l : list ProjectRow) :
  NoDup (map p_id l) -> NoDup (map p_id (filter f l)).
Proof.
  induction l as [|x l IH]; cbn; intros H; [constructor|].
  inversion H as [|? ? Hx Hl]; subst.
  destruct (f x); cbn; [|now apply IH].
  constructor; [|now apply IH].
  intros Hin. apply Hx. apply in_map_iff in Hin. destruct Hin as (r & He & Hr).
  apply filter_In in Hr. apply in_map_iff. exists r. tauto.
Qed.

Lemma same_id_same_row (l : list ProjectRow) (q r : ProjectRow) :
  NoDup (map p_id l) -> In q l -> In r l -> p_id r = p_id q -> r = q.
Proof.
  induction l as [|x l IH]; cbn; intros Hnd Hq Hr He; [contradiction|].
  inversion Hnd as [|? ? Hx Hl]; subst.
  destruct Hq as [<-|Hq], Hr as [<-|Hr]; auto.
  - exfalso. apply Hx. rewrite <- He. now apply in_map.
  - exfalso. apply Hx. rewrite He. now apply in_map.
Qed.

Lemma status_eqb_eq (a b : Status) : Status_eqb a b = true -> a = b.
Proof. destruct a, b; simpl; congruence. Qed.

(** The batch has distinct ids, and every lead of the table that shares its
    id with a lead of the batch is still [discovered]. *)
Lemma to_process_discovered (limit : Z) (only_unindexed : bool) (d : Db) :
  leads_ok d ->
  let batch := sql_limit limit
                 (order_by_discovered_at_desc
                    (filter (uncontacted only_unindexed) (projects d))) in
  NoDup (map p_id batch)
  /\ forall q r, In q batch -> In r (projects d) -> p_id r = p_id q ->
       p_status r = discovered.
Proof.
  intros [Hnd _] batch. split.
  - unfold batch, sql_limit.
    assert (Hsorted : NoDup (map p_id (order_by_discovered_at_desc
                                         (filter (uncontacted only_unindexed) (projects d))))).
    { eapply Permutation_NoDup;
        [apply Permutation_map, Permutation_sym, order_by_perm|].
      now apply filter_ids_NoDup. }
    destruct (Z.ltb limit 0); [exact Hsorted|].
    rewrite <- firstn_map. now apply firstn_NoDup.
  - intros q r Hq Hr He. apply sql_limit_In in Hq.
    apply (Permutation_in _ (order_by_perm _)) in Hq.
    apply filter_In in Hq. destruct Hq as [Hq Hu].
    rewrite (same_id_same_row (projects d) q r Hnd Hq Hr He).
    unfold uncontacted in Hu. apply andb_prop in Hu. destruct Hu as [Hu _].
    apply andb_prop in Hu. destruct Hu as [Hu _]. now apply status_eqb_eq.
Qed.

(** *** The processing loop *)

Lemma st_process_step (config : Config) (project : ProjectRow) :
  preserves (steady (fun i => i = p_id project))
    (result <- process_project project (message_template config) ;;
     if r_dm_sent result
     then asyncio_sleep (cooldown_after_dm_minutes config * 60)
     else if r_joined result
          then asyncio_sleep (cooldown_after_join_minutes config * 60)
          else ret tt).
Proof.
  apply st_bind; [apply st_process_project|]. intros result. steady_go.
Qed.

(** In that run the stored lead goes from [discovered] to [contacted]. *)
Example stored_lead_is_contacted :
  map p_status (projects (db stored_lead_world)) = [discovered]
  /\ map p_status (projects (db (snd (_scrape_cycle sample_config stored_lead_world))))
     = [contacted; discovered].
Proof. split; vm_compute; reflexivity. Qed.

(** The store itself sets whatever status it is given: the order is kept by
    the callers, not by [update_project_status]. *)
Example store_sets_any_status :
  map p_status (projects (db after_first_cycle)) = [contacted]
  /\ map p_status
       (projects (db (snd (update_project_status (Some 1) discovered after_first_cycle))))
     = [discovered].
Proof. split; vm_compute; reflexivity. Qed.

(** ** Deduplication before insertion *)

(** What the cycle collects before scraping are the addresses of the leads
    [get_uncontacted_projects] returns: every one of them is a stored lead
    that is still [discovered] and has a group link.  A lead that was joined
    or contacted, or has no group link, is not among them. *)
Lemma addresses_to_skip_uncontacted (w : World) (a : string) :
  In (Some a) (match fst (addresses_to_skip w) with Ok l => l | Raise _ => [] end) ->
  exists r, In r (projects (db w))
            /\ p_contract_address r = a
            /\ p_status r = discovered
            /\ is_some (p_telegram_url r) = true.
Proof.
  unfold addresses_to_skip, get_uncontacted_projects, bind, get_db, ret. cbn [fst].
  intros Hin. apply in_map_iff in Hin. destruct Hin as (r & He & Hr).
  injection He as He. apply filter_In in Hr. destruct Hr as [Hr _].
  apply sql_limit_In in Hr. apply (Permutation_in _ (order_by_perm _)) in Hr.
  apply filter_In in Hr. destruct Hr as [Hr Hu].
  unfold uncontacted in Hu. rewrite andb_true_r in Hu.
  apply andb_prop in Hu. destruct Hu as [Hs Ht].
  exists r. repeat split; auto. now apply status_eqb_eq.
Qed.

(** C6, on the code.  One cycle after start-up the sample lead is stored
    (and contacted); when discovery returns the same candidate again, the
    cycle does not drop it: it is in [new_tokens] and goes through
    [add_project] once more, which finds the stored row. *)
Theorem known_lead_is_not_dropped :
  fst (project_exists "ADDR1" after_first_cycle) = Ok true
  /\ map p_status (projects (db after_first_cycle)) = [contacted]
  /\ fst (addresses_to_skip after_first_cycle) = Ok []
  /\ fst (scrape_new_tokens sample_config after_first_cycle) = Ok [sample_token]
  /\ fst (add_project sample_token after_first_cycle) = Ok (Some 1)
  /\ lead_rows "ADDR1" (db (snd (_scrape_cycle sample_config after_first_cycle))) = 1.
Proof. repeat split; vm_compute; reflexivity. Qed.

(* ====================================================================== *)
(** * Further properties of the code *)
(* ====================================================================== *)

(** ** Admins are recorded once per lead and handle *)

Lemma add_admin_run (project_id group_id : option Z) (username' : string)
    (user_id' first_name' : option string) (is_owner' : bool) (w : World) :
  add_admin project_id group_id username' user_id' first_name' is_owner' w
  = if admin_recorded project_id username' (db w)
    then (Ok (select_admin_id project_id username' (db w)), w)
    else
      let rowid := admins_seq (db w) + 1 in
      let row := mkAdmin rowid project_id group_id username' user_id' first_name'
                         is_owner' (current_timestamp_at (script w) (tick w)) in
      (Ok (Some rowid),
       mkWorld (script w) (S (S (tick w)))
               (incremented admins_found 1 (date_of (now_at (script w) (S (tick w))))
                  (with_admins (db w) (admins (db w) ++ [row])%list rowid))
               (automator w) (slept w) (send_calls w)).
Proof.
  unfold add_admin, insert_into_admins, admin_recorded, bind, get_db.
  destruct (existsb _ (admins (db w))); reflexivity.
Qed.

Lemma find_app_some {A : Type} (f : A -> bool) (l extra : list A) (x : A) :
  find f l = Some x -> find f (l ++ extra) = Some x.
Proof.
  induction l as [|y l IH]; cbn [find app]; [discriminate|].
  destruct (f y); [auto | exact IH].
Qed.

(** In any state whose table of admins starts with the rows of [d], a call
    for a lead and handle recorded in [d] returns the id of that record and
    changes nothing. *)
Lemma add_admin_stored (d : Db) (later : World) (project_id group_id : option Z)
    (username' : string) (user_id' first_name' : option string) (is_owner' : bool)
    (row : AdminRow) :
  find (fun a => sql_eq (a_project_id a) project_id && String.eqb (a_username a) username')
       (admins d) = Some row ->
  extends (admins d) (admins (db later)) ->
  add_admin project_id group_id username' user_id' first_name' is_owner' later
  = (Ok (Some (a_id row)), later).
Proof.
  intros Hfind (extra & Hext). rewrite add_admin_run.
  unfold admin_recorded, select_admin_id. rewrite Hext.
  rewrite (find_app_some _ _ extra _ Hfind).
  assert (Hex : existsb (fun a => sql_eq (a_project_id a) project_id
                                  && String.eqb (a_username a) username')
                        (admins d ++ extra) = true).
  { apply existsb_exists. apply find_some in Hfind. destruct Hfind as (Hin & Hrow).
    exists row. split; [apply in_or_app; now left | exact Hrow]. }
  now rewrite Hex.
Qed.

(** X1.  For a lead [i] and a handle: the first [add_admin] returns an
    identity, which is the id of a stored admin row of that lead and
    handle (of the only one, where the table respects the UNIQUE constraint
    on the pair); any later call for the same lead and handle, whatever its
    other arguments, in any state whose table of admins still starts with
    the rows the first call left, returns the same identity and changes
    nothing; the first call itself changes nothing when the pair was
    already recorded, and otherwise appends one row and adds one to
    [admins_found]. *)
Theorem add_admin_idempotent (w : World) (i : Z) (group_id : option Z)
    (username' : string) (user_id' first_name' : option string) (is_owner' : bool) :
  let same_pair := fun a => sql_eq (a_project_id a) (Some i)
                            && String.eqb (a_username a) username' in
  exists admin_id w1,
    add_admin (Some i) group_id username' user_id' first_name' is_owner' w
    = (Ok (Some admin_id), w1)
    /\ (exists row, In row (admins (db w1))
                    /\ a_id row = admin_id
                    /\ a_project_id row = Some i
                    /\ a_username row = username')
    /\ (count same_pair (admins (db w)) <= 1 ->
        forall row, In row (admins (db w1)) ->
                    a_project_id row = Some i -> a_username row = username' ->
                    a_id row = admin_id)
    /\ (forall later group_id' user_id'' first_name'' is_owner'',
          extends (admins (db w1)) (admins (db later)) ->
          add_admin (Some i) group_id' username' user_id'' first_name'' is_owner'' later
          = (Ok (Some admin_id), later))
    /\ (admin_recorded (Some i) username' (db w) = true -> w1 = w)
    /\ (admin_recorded (Some i) username' (db w) = false ->
        admins (db w1)
        = (admins (db w)
           ++ [mkAdmin admin_id (Some i) group_id username' user_id' first_name' is_owner'
                       (current_timestamp_at (script w) (tick w))])%list
        /\ metric_on admins_found (date_of (now_at (script w) (S (tick w)))) (db w1)
           = metric_on admins_found (date_of (now_at (script w) (S (tick w)))) (db w) + 1).
Proof.
  intros same_pair.
  assert (Hpair : forall row, a_project_id row = Some i -> a_username row = username' ->
                              same_pair row = true).
  { intros row Hp Hu. unfold same_pair. rewrite Hp, Hu. cbn [sql_eq].
    now rewrite Z.eqb_refl, String.eqb_refl. }
  assert (Hpair' : forall row, same_pair row = true ->
                               a_project_id row = Some i /\ a_username row = username').
  { intros row H. unfold same_pair in H. apply andb_prop in H. destruct H as (Hp & Hu).
    split; [|now apply String.eqb_eq].
    destruct (a_project_id row) as [j|]; [|discriminate].
    cbn [sql_eq] in Hp. apply Z.eqb_eq in Hp. now subst. }
  rewrite add_admin_run.
  destruct (admin_recorded (Some i) username' (db w)) eqn:Hrec.
  - unfold admin_recorded in Hrec.
    destruct (find_existsb_some _ _ Hrec) as (a & Ha & Hsame).
    assert (Hsel : select_admin_id (Some i) username' (db w) = Some (a_id a))
      by (unfold select_admin_id; now rewrite Ha).
    exists (a_id a), w. rewrite Hsel.
    split; [reflexivity|]. split; [|split; [|split; [|split; [auto | discriminate]]]].
    + exists a. destruct (Hpair' a Hsame) as (Hp & Hu).
      apply find_some in Ha. now repeat split.
    + intros Hone row Hin Hp Hu. f_equal.
      apply (single_row same_pair (admins (db w))); auto.
    + intros later group_id' user_id'' first_name'' is_owner'' Hext.
      now apply (add_admin_stored (db w)).
  - cbv zeta. eexists. eexists. split; [reflexivity|].
    set (row := mkAdmin _ _ _ _ _ _ _ _).
    assert (Hrow : same_pair row = true) by (apply Hpair; reflexivity).
    assert (Hadmins : admins (incremented admins_found 1
                                (date_of (now_at (script w) (S (tick w))))
                                (with_admins (db w) (admins (db w) ++ [row])%list
                                   (admins_seq (db w) + 1)))
                      = (admins (db w) ++ [row])%list).
    { now rewrite (proj1 (proj2 (tables_incremented _ _ _ _))). }
    cbn [db]. rewrite Hadmins.
    split; [|split; [|split; [|split; [discriminate|]]]].
    + exists row. split; [apply in_or_app; right; now left | now repeat split].
    + intros _ x Hin Hp Hu. apply in_app_iff in Hin.
      destruct Hin as [Hin | [<- | []]]; [|reflexivity].
      exfalso. unfold admin_recorded in Hrec.
      assert (Hsome : existsb same_pair (admins (db w)) = true)
        by (apply existsb_exists; exists x; auto).
      unfold same_pair in Hsome. congruence.
    + intros later group_id' user_id'' first_name'' is_owner'' Hext.
      apply (add_admin_stored
               (with_admins (db w) (admins (db w) ++ [row])%list (admins_seq (db w) + 1))
               later (Some i) group_id' username' user_id'' first_name'' is_owner'' row);
        [|exact Hext].
      cbn [admins with_admins]. apply find_app_new; [exact Hrec | exact Hrow].
    + intros _. split; [reflexivity|]. now rewrite metric_incremented_same.
Qed.

(** ** One group record per lead and URL *)

Lemma add_telegram_group_run (project_id : option Z) (telegram_url : string)
    (joined' : bool) (error : option string) (w : World) :
  add_telegram_group project_id telegram_url joined' error w
  = if group_recorded project_id telegram_url (db w)
    then (Ok None, w)
    else
      let rowid := telegram_groups_seq (db w) + 1 in
      let row := mkGroup rowid project_id telegram_url None
                         (Some (current_timestamp_at (script w) (tick w)))
                         joined' error None in
      let d1 := with_telegram_groups (db w) (telegram_groups (db w) ++ [row])%list rowid in
      if joined'
      then (Ok (Some rowid),
            mkWorld (script w) (S (S (S (tick w))))
                    (update_projects_where_id project_id
                       (set_status joined (current_timestamp_at (script w) (S (S (tick w)))))
                       (incremented groups_joined 1
                          (date_of (now_at (script w) (S (tick w)))) d1))
                    (automator w) (slept w) (send_calls w))
      else (Ok (Some rowid),
            mkWorld (script w) (S (S (tick w)))
                    (incremented join_failures 1
                       (date_of (now_at (script w) (S (tick w)))) d1)
                    (automator w) (slept w) (send_calls w)).
Proof.
  unfold add_telegram_group, insert_into_telegram_groups, group_recorded, bind, get_db.
  destruct (existsb _ (telegram_groups (db w))); [reflexivity|].
  destruct joined'; reflexivity.
Qed.

(** X2.  Once an attempt on a lead's group URL has gone through
    [add_telegram_group], every later attempt on the same lead and URL
    returns [None] and leaves the whole state as it is, whatever its
    outcome: a join that succeeds after a recorded failure adds no row,
    counts nothing and does not move the lead's status. *)
Theorem group_attempt_recorded_once (w : World) (i : Z) (telegram_url : string)
    (joined' joined'' : bool) (error error' : option string) :
  let w1 := snd (add_telegram_group (Some i) telegram_url joined' error w) in
  add_telegram_group (Some i) telegram_url joined'' error' w1 = (Ok None, w1)
  /\ (group_recorded (Some i) telegram_url (db w) = true ->
      add_telegram_group (Some i) telegram_url joined' error w = (Ok None, w)).
Proof.
  intros w1. subst w1.
  assert (Hrec1 : group_recorded (Some i) telegram_url
                    (db (snd (add_telegram_group (Some i) telegram_url joined' error w)))
                  = true).
  { rewrite add_telegram_group_run.
    destruct (group_recorded (Some i) telegram_url (db w)) eqn:Hrec; [exact Hrec|].
    cbv zeta. unfold group_recorded.
    destruct joined'; cbn [snd db update_projects_where_id telegram_groups with_projects];
      rewrite (proj1 (tables_incremented _ _ _ _)); cbn [telegram_groups with_telegram_groups];
      apply existsb_app_new; cbn; now rewrite Z.eqb_refl, String.eqb_refl. }
  split.
  - rewrite (add_telegram_group_run (Some i) telegram_url joined'' error').
    now rewrite Hrec1.
  - intros Hrec. rewrite add_telegram_group_run. now rewrite Hrec.
Qed.

(** ** The list of leads still to contact *)

Lemma insert_desc_In (r x : ProjectRow) (l : list ProjectRow) :
  In x (insert_desc r l) <-> x = r \/ In x l.
Proof.
  split; intros H.
  - apply (Permutation_in _ (insert_desc_perm r l)) in H. destruct H; auto.
  - apply (Permutation_in _ (Permutation_sym (insert_desc_perm r l))).
    destruct H; [left | right]; auto.
Qed.

Lemma insert_desc_sorted (r : ProjectRow) (l : list ProjectRow) :
  newest_first l -> newest_first (insert_desc r l).
Proof.
  unfold newest_first. induction 1 as [|x l Hl IH Hx]; cbn [insert_desc].
  - repeat constructor.
  - destruct (Z.leb_spec (p_discovered_at x) (p_discovered_at r)).
    + constructor; [now constructor|]. constructor; [assumption|].
      rewrite Forall_forall in *. intros y Hy. specialize (Hx y Hy). lia.
    + constructor; [exact IH|]. apply Forall_forall. intros y Hy.
      apply insert_desc_In in Hy. destruct Hy as [->|Hy]; [lia|].
      rewrite Forall_forall in Hx. now apply Hx.
Qed.

Lemma order_by_sorted (l : list ProjectRow) :
  newest_first (order_by_discovered_at_desc l).
Proof.
  induction l as [|x l IH]; cbn; [constructor|]. now apply insert_desc_sorted.
Qed.

Lemma firstn_sorted (n : nat) (l : list ProjectRow) :
  newest_first l -> newest_first (firstn n l).
Proof.
  unfold newest_first. revert l. induction n as [|n IH]; intros l H; [constructor|].
  destruct H as [|x l Hl Hx]; cbn; [constructor|].
  constructor; [now apply IH|].
  rewrite Forall_forall in *. intros y Hy. apply Hx. now apply firstn_In_of in Hy.
Qed.

(** X3.  [get_uncontacted_projects] reads without writing; every row it
    returns is a stored lead that is [discovered] and has a group link,
    and, when only unindexed leads are asked for, one whose index check
    said "not indexed" (a lead never checked is left out); the rows come
    newest first; a non-negative limit bounds their number, and a negative
    limit returns every such lead. *)
Theorem uncontacted_projects_listing (w : World) (limit : Z) (only_unindexed : bool) :
  exists l,
    get_uncontacted_projects limit only_unindexed w = (Ok l, w)
    /\ (forall q, In q l ->
          In q (projects (db w))
          /\ p_status q = discovered
          /\ p_telegram_url q <> None
          /\ (only_unindexed = true -> p_is_indexed q = Some false))
    /\ newest_first l
    /\ (0 <= limit -> Z.of_nat (List.length l) <= limit)
    /\ (limit < 0 ->
        forall q, In q (projects (db w)) -> uncontacted only_unindexed q = true -> In q l).
Proof.
  eexists. split; [reflexivity|]. split; [|split; [|split]].
  - intros q Hq. apply sql_limit_In in Hq.
    apply (Permutation_in _ (order_by_perm _)) in Hq.
    apply filter_In in Hq. destruct Hq as [Hq Hu].
    unfold uncontacted in Hu. apply andb_prop in Hu. destruct Hu as [Hu Hidx].
    apply andb_prop in Hu. destruct Hu as [Hs Ht].
    split; [exact Hq|]. split; [now apply status_eqb_eq|]. split.
    + destruct (p_telegram_url q); [discriminate | discriminate].
    + intros ->. destruct (p_is_indexed q) as [[|]|]; (reflexivity || discriminate).
  - unfold sql_limit. destruct (Z.ltb limit 0);
      [apply order_by_sorted | apply firstn_sorted, order_by_sorted].
  - intros Hl. unfold sql_limit. destruct (Z.ltb_spec limit 0); [lia|].
    pose proof (firstn_le_length (Z.to_nat limit)
                  (order_by_discovered_at_desc
                     (filter (uncontacted only_unindexed) (projects (db w))))).
    lia.
  - intros Hl q Hq Hu. unfold sql_limit. destruct (Z.ltb_spec limit 0); [|lia].
    apply (Permutation_in _ (Permutation_sym (order_by_perm _))).
    apply filter_In. now split.
Qed.

(** ** What a recorded join does to the list of leads to contact *)

Lemma metric_on_update_projects (m : Metric) (dt : date) (project_id : option Z)
    (f : ProjectRow -> ProjectRow) (d : Db) :
  metric_on m dt (update_projects_where_id project_id f d) = metric_on m dt d.
Proof. reflexivity. Qed.

Lemma projects_update_incremented (project_id : option Z) (f : ProjectRow -> ProjectRow)
    (m : Metric) (amount : Z) (today : date) (d : Db) :
  projects (update_projects_where_id project_id f (incremented m amount today d))
  = map (fun r => if sql_eq (Some (p_id r)) project_id then f r else r) (projects d).
Proof.
  cbn [update_projects_where_id projects with_projects].
  now rewrite (proj1 (projects_incremented _ _ _ _)).
Qed.

(** X4.  The first attempt recorded for a lead and URL decides whether the
    lead stays on the list of leads to contact: recorded as joined, every
    row of the lead takes the status [joined], [groups_joined] grows by
    one and [get_uncontacted_projects] no longer returns the lead;
    recorded as failed, the leads are left as they were, so the list is
    the same as before, and [join_failures] grows by one. *)
Theorem join_record_and_listing (w : World) (i : Z) (telegram_url : string)
    (error : option string) (limit : Z) (only_unindexed : bool) :
  group_recorded (Some i) telegram_url (db w) = false ->
  let ws := snd (add_telegram_group (Some i) telegram_url true None w) in
  let wf := snd (add_telegram_group (Some i) telegram_url false error w) in
  let today := date_of (now_at (script w) (S (tick w))) in
  (forall r, In r (projects (db ws)) -> p_id r = i -> p_status r = joined)
  /\ (forall l q, fst (get_uncontacted_projects limit only_unindexed ws) = Ok l ->
        In q l -> p_id q <> i)
  /\ metric_on groups_joined today (db ws) = metric_on groups_joined today (db w) + 1
  /\ projects (db wf) = projects (db w)
  /\ fst (get_uncontacted_projects limit only_unindexed wf)
     = fst (get_uncontacted_projects limit only_unindexed w)
  /\ metric_on join_failures today (db wf) = metric_on join_failures today (db w) + 1.
Proof.
  intros Hrec ws wf today. subst ws wf.
  rewrite !add_telegram_group_run, Hrec. cbv zeta. cbn [snd db].
  assert (Hjoined : forall r,
            In r (projects
                    (update_projects_where_id (Some i)
                       (set_status joined (current_timestamp_at (script w) (S (S (tick w)))))
                       (incremented groups_joined 1 today
                          (with_telegram_groups (db w)
                             (telegram_groups (db w)
                              ++ [mkGroup (telegram_groups_seq (db w) + 1) (Some i) telegram_url
                                    None (Some (current_timestamp_at (script w) (tick w)))
                                    true None None])%list
                             (telegram_groups_seq (db w) + 1))))) ->
            p_id r = i -> p_status r = joined).
  { intros r Hr Hid. rewrite projects_update_incremented in Hr.
    apply in_map_iff in Hr. destruct Hr as (r0 & <- & _).
    cbn [sql_eq] in *. destruct (Z.eqb_spec (p_id r0) i) as [He|Hne]; [reflexivity|].
    contradiction. }
  split; [exact Hjoined|]. split; [|split; [|split; [|split]]].
  - intros l q Hl Hq. cbn [fst get_uncontacted_projects bind get_db ret] in Hl.
    unfold get_uncontacted_projects, bind, get_db, ret in Hl. cbn [fst db] in Hl.
    injection Hl as <-. apply sql_limit_In in Hq.
    apply (Permutation_in _ (order_by_perm _)) in Hq.
    apply filter_In in Hq. destruct Hq as [Hq Hu].
    intros Hid. unfold uncontacted in Hu. rewrite (Hjoined q Hq Hid) in Hu. discriminate.
  - rewrite metric_on_update_projects. now rewrite metric_incremented_same.
  - now rewrite (proj1 (projects_incremented _ _ _ _)).
  - unfold get_uncontacted_projects, bind, get_db, ret. cbn [fst db].
    now rewrite (proj1 (projects_incremented _ _ _ _)).
  - now rewrite metric_incremented_same.
Qed.

Lemma join_record_and_listing_witness :
  (forall r, In r (projects (db (snd (add_telegram_group (Some 1) "https://t.me/foogroup"
                                        true None join_busy_world)))) ->
     p_id r = 1 -> p_status r = joined)
  /\ fst (get_uncontacted_projects 20 false
            (snd (add_telegram_group (Some 1) "https://t.me/foogroup" false
                    (Some "Private channel") join_busy_world)))
     = fst (get_uncontacted_projects 20 false join_busy_world).
Proof.
  destruct (join_record_and_listing join_busy_world 1 "https://t.me/foogroup"
              (Some "Private channel") 20 false eq_refl)
    as (H1 & _ & _ & _ & H5 & _).
  split; [exact H1 | exact H5].
Defined.

(** ** What a recorded message does to the lists *)

Lemma add_message_run (project_id admin_id : option Z) (text : string)
    (template_used : option string) (success : bool) (error : option string) (w : World) :
  let rowid := messages_seq (db w) + 1 in
  let row := mkMessage rowid project_id admin_id text template_used
                       (Some (current_timestamp_at (script w) (tick w)))
                       success error false None None false None in
  let d1 := with_messages (db w) (messages (db w) ++ [row])%list rowid in
  add_message project_id admin_id text template_used success error w
  = (Ok rowid,
     if success
     then mkWorld (script w) (S (S (S (tick w))))
                  (update_projects_where_id project_id
                     (set_status contacted (current_timestamp_at (script w) (S (S (tick w)))))
                     (incremented dms_sent 1 (date_of (now_at (script w) (S (tick w)))) d1))
                  (automator w) (slept w) (send_calls w)
     else mkWorld (script w) (S (S (tick w)))
                  (incremented dms_failed 1 (date_of (now_at (script w) (S (tick w)))) d1)
                  (automator w) (slept w) (send_calls w)).
Proof. destruct success; reflexivity. Qed.

Lemma tables_update_projects (project_id : option Z) (f : ProjectRow -> ProjectRow) (d : Db) :
  telegram_groups (update_projects_where_id project_id f d) = telegram_groups d
  /\ admins (update_projects_where_id project_id f d) = admins d
  /\ messages (update_projects_where_id project_id f d) = messages d.
Proof. repeat split; reflexivity. Qed.

Lemma tables_inserted (today : date) (d : Db) :
  projects (insert_or_ignore_daily_metrics today d) = projects d
  /\ telegram_groups (insert_or_ignore_daily_metrics today d) = telegram_groups d
  /\ admins (insert_or_ignore_daily_metrics today d) = admins d
  /\ messages (insert_or_ignore_daily_metrics today d) = messages d.
Proof.
  unfold insert_or_ignore_daily_metrics.
  destruct (existsb _ (daily_metrics d)); repeat split; reflexivity.
Qed.

Lemma uncontacted_admins_run (project_id : option Z) (w : World) :
  fst (get_uncontacted_admins project_id w)
  = Ok (order_by_username
          (filter (fun a => sql_eq (a_project_id a) project_id
                            && negb (existsb (sent_to a) (messages (db w))))
                  (admins (db w)))).
Proof. reflexivity. Qed.

Lemma filter_ext_in_bool {A : Type} (f g : A -> bool) (l : list A) :
  (forall x, In x l -> f x = g x) -> filter f l = filter g l.
Proof.
  induction l as [|x l IH]; cbn; intros H; [reflexivity|].
  rewrite (H x) by now left. rewrite IH; [reflexivity|].
  intros y Hy. apply H. now right.
Qed.

(** X5.  A message recorded as sent to an admin takes that admin off
    [get_uncontacted_admins] for good, puts every row of the lead at
    [contacted], makes [was_project_contacted] true for the lead's
    address and adds one to [dms_sent].  A message recorded as failed
    leaves the list of uncontacted admins and the leads as they were and
    adds one to [dms_failed].  A message recorded as sent without an admin
    id takes no admin off the list. *)
Theorem message_record_and_listing (w : World) (i admin_id : Z) (any_admin : option Z)
    (text : string) (template_used error : option string) :
  let ws := snd (add_message (Some i) (Some admin_id) text template_used true error w) in
  let wf := snd (add_message (Some i) any_admin text template_used false error w) in
  let wn := snd (add_message (Some i) None text template_used true error w) in
  let today := date_of (now_at (script w) (S (tick w))) in
  ((forall project_id l a, fst (get_uncontacted_admins project_id ws) = Ok l ->
      In a l -> a_id a <> admin_id)
   /\ (forall r, In r (projects (db ws)) -> p_id r = i -> p_status r = contacted)
   /\ (forall r, In r (projects (db w)) -> p_id r = i ->
         fst (was_project_contacted (p_contract_address r) ws) = Ok true)
   /\ metric_on dms_sent today (db ws) = metric_on dms_sent today (db w) + 1)
  /\ ((forall project_id, fst (get_uncontacted_admins project_id wf)
                          = fst (get_uncontacted_admins project_id w))
      /\ projects (db wf) = projects (db w)
      /\ metric_on dms_failed today (db wf) = metric_on dms_failed today (db w) + 1)
  /\ (forall project_id, fst (get_uncontacted_admins project_id wn)
                         = fst (get_uncontacted_admins project_id w)).
Proof.
  intros ws wf wn today. subst ws wf wn.
  rewrite !add_message_run. cbv zeta. cbn [snd].
  split; [|split].
  - split; [|split; [|split]].
    + intros project_id l a Hl Ha. rewrite uncontacted_admins_run in Hl.
      injection Hl as <-. apply order_by_username_In, filter_In in Ha. destruct Ha as [_ Hc].
      apply andb_prop in Hc. destruct Hc as [_ Hn]. apply negb_true_iff in Hn.
      intros Hid. subst admin_id. cbn [db] in Hn.
      rewrite (proj2 (proj2 (proj2 (tables_inserted _ _)))) in Hn.
      cbn [messages with_messages] in Hn. rewrite existsb_app in Hn.
      apply orb_false_iff in Hn. destruct Hn as [_ Hn].
      unfold sent_to, sql_eq in Hn. cbn [existsb m_admin_id m_send_success] in Hn.
      rewrite Z.eqb_refl in Hn. discriminate.
    + intros r Hr Hid. cbn [db] in Hr. rewrite projects_update_incremented in Hr.
      apply in_map_iff in Hr. destruct Hr as (r0 & <- & _).
      cbn [sql_eq] in *. destruct (Z.eqb_spec (p_id r0) i); [reflexivity | contradiction].
    + intros r Hr Hid. unfold was_project_contacted, bind, get_db, ret. cbn [fst db].
      f_equal. rewrite projects_update_incremented.
      rewrite (proj2 (proj2 (tables_update_projects _ _ _))).
      rewrite (proj2 (proj2 (tables_incremented _ _ _ _))). cbn [messages with_messages].
      rewrite existsb_app. apply orb_true_iff. right. cbn [existsb]. rewrite orb_false_r.
      cbn [m_send_success m_project_id andb]. apply existsb_exists.
      exists (set_status contacted (current_timestamp_at (script w) (S (S (tick w)))) r).
      split.
      * apply in_map_iff. exists r. split; [|exact Hr].
        cbn [sql_eq]. rewrite Hid, Z.eqb_refl. reflexivity.
      * cbn. rewrite Hid, Z.eqb_refl. unfold has_address. cbn. apply String.eqb_refl.
    + cbn [db]. rewrite metric_on_update_projects. now rewrite metric_incremented_same.
  - split; [|split].
    + intros project_id. rewrite !uncontacted_admins_run. cbn [db].
      rewrite (proj1 (proj2 (tables_incremented _ _ _ _))).
      rewrite (proj2 (proj2 (tables_incremented _ _ _ _))).
      cbn [admins messages with_messages]. f_equal. f_equal.
      apply filter_ext_in_bool. intros a _. f_equal. f_equal.
      rewrite existsb_app. cbn. unfold sent_to at 2. cbn. now rewrite andb_false_r, orb_false_r.
    + cbn [db]. now rewrite (proj1 (projects_incremented _ _ _ _)).
    + cbn [db]. now rewrite metric_incremented_same.
  - intros project_id. rewrite !uncontacted_admins_run. cbn [db].
    rewrite (proj1 (proj2 (tables_update_projects _ _ _))).
    rewrite (proj2 (proj2 (tables_update_projects _ _ _))).
    rewrite (proj1 (proj2 (tables_incremented _ _ _ _))).
    rewrite (proj2 (proj2 (tables_incremented _ _ _ _))).
    cbn [admins messages with_messages]. f_equal. f_equal.
    apply filter_ext_in_bool. intros a _. f_equal. f_equal.
    rewrite existsb_app. cbn. unfold sent_to at 2. cbn. now rewrite orb_false_r.
Qed.

(** ** Responses *)

Lemma record_response_run (message_id : option Z) (text : string) (w : World) :
  record_response message_id text w
  = (Ok tt,
     mkWorld (script w) (S (S (tick w)))
             (incremented responses_received 1 (date_of (now_at (script w) (S (tick w))))
                (with_messages (db w)
                   (map (fun m => if sql_eq (Some (m_id m)) message_id
                                  then set_response text
                                         (current_timestamp_at (script w) (tick w)) m
                                  else m)
                        (messages (db w)))
                   (messages_seq (db w))))
             (automator w) (slept w) (send_calls w)).
Proof. reflexivity. Qed.

(** X6.  [record_response] marks every message with the given id as
    answered, with the given text, keeps every other message as it is and
    adds or removes no row; [responses_received] grows by one on every
    call, also when no message has that id, in which case the messages are
    left untouched. *)
Theorem response_recording (w : World) (message_id : Z) (text : string) :
  let w' := snd (record_response (Some message_id) text w) in
  let today := date_of (now_at (script w) (S (tick w))) in
  metric_on responses_received today (db w')
  = metric_on responses_received today (db w) + 1
  /\ List.length (messages (db w')) = List.length (messages (db w))
  /\ (forall m', In m' (messages (db w')) -> m_id m' = message_id ->
        m_response_received m' = true /\ m_response_text m' = Some text)
  /\ (forall m, In m (messages (db w)) -> m_id m <> message_id ->
        In m (messages (db w')))
  /\ ((forall m, In m (messages (db w)) -> m_id m <> message_id) ->
      messages (db w') = messages (db w)).
Proof.
  intros w' today. subst w'. rewrite record_response_run. cbn [snd db].
  rewrite (proj2 (proj2 (tables_incremented _ _ _ _))). cbn [messages with_messages].
  split; [now rewrite metric_incremented_same|].
  split; [apply length_map|]. split; [|split].
  - intros m' Hin Hid. apply in_map_iff in Hin. destruct Hin as (m & <- & _).
    destruct (sql_eq (Some (m_id m)) (Some message_id)) eqn:He; [now split|].
    cbn [sql_eq] in He. apply Z.eqb_neq in He. contradiction.
  - intros m Hin Hne. apply in_map_iff. exists m. split; [|exact Hin].
    cbn [sql_eq]. apply Z.eqb_neq in Hne. now rewrite Hne.
  - intros Hnone. rewrite <- (map_id (messages (db w))) at 2.
    apply map_ext_in. intros m Hin. cbn [sql_eq].
    specialize (Hnone m Hin). apply Z.eqb_neq in Hnone. now rewrite Hnone.
Qed.

(** ** Looking a lead up after storing it *)

Lemma has_address_eq (a : string) (r : ProjectRow) :
  has_address a r = true -> p_contract_address r = a.
Proof. unfold has_address. apply String.eqb_eq. Qed.

Lemma get_project_by_address (a : string) (w : World) :
  a <> "" ->
  get_project None (Some a) w = (Ok (find (has_address a) (projects (db w))), w).
Proof.
  intros Hne. unfold get_project, bind, get_db, truthy.
  destruct (String.eqb_spec a ""); [contradiction | reflexivity].
Qed.

(** X7.  After [add_project] on a candidate with address [a], the lead can
    be looked up: [project_exists] answers true, and, [a] not being the
    empty string, [get_project] by address returns a row with the id that
    [add_project] returned and with that address; after a first insert
    the row is [discovered], not index-checked, and carries the candidate's
    name, symbol and group link.  For the empty address [get_project]
    returns nothing although the lead is stored. *)
Theorem lead_lookup_round_trip (w : World) (token : Token) (a : string) :
  address token = Some a ->
  let w1 := snd (add_project token w) in
  exists project_id,
    fst (add_project token w) = Ok (Some project_id)
    /\ fst (project_exists a w1) = Ok true
    /\ (a <> "" ->
        exists row,
          get_project None (Some a) w1 = (Ok (Some row), w1)
          /\ p_id row = project_id
          /\ p_contract_address row = a
          /\ (lead_rows a (db w) = 0 ->
              p_status row = discovered
              /\ p_is_indexed row = None
              /\ p_name row = name token
              /\ p_symbol row = symbol token
              /\ p_telegram_url row = telegram token))
    /\ (a = "" -> get_project None (Some a) w1 = (Ok None, w1)).
Proof.
  intros Ha w1. subst w1.
  destruct (existsb (has_address a) (projects (db w))) eqn:Hex.
  - rewrite (add_project_duplicate w token a Ha Hex). cbn [fst snd].
    destruct (find_existsb_some _ _ Hex) as (r & Hr & Hr').
    exists (p_id r). unfold select_project_id. rewrite Hr.
    split; [reflexivity|]. split; [unfold project_exists, bind, get_db, ret; cbn; now rewrite Hex|].
    split.
    + intros Hne. exists r. rewrite (get_project_by_address a w Hne), Hr.
      split; [reflexivity|]. split; [reflexivity|]. split; [now apply has_address_eq|].
      intros Hzero. apply count_zero_existsb in Hzero. congruence.
    + intros ->. reflexivity.
  - pose proof (add_project_fresh_projects w token a Ha Hex) as Hp.
    pose proof (add_project_fresh w token a Ha Hex) as Hrun. cbv zeta in Hrun.
    assert (Hfst : fst (add_project token w) = Ok (Some (projects_seq (db w) + 1)))
      by now rewrite Hrun.
    exists (projects_seq (db w) + 1). split; [exact Hfst|].
    assert (Hfind : find (has_address a) (projects (db (snd (add_project token w))))
                    = Some (project_row (projects_seq (db w) + 1) a token
                              (current_timestamp_at (script w) (tick w)))).
    { rewrite Hp. apply find_app_new; [exact Hex | apply has_address_project_row]. }
    split; [|split].
    + unfold project_exists, bind, get_db, ret. cbn [fst]. f_equal.
      rewrite Hp. apply existsb_app_new, has_address_project_row.
    + intros Hne. eexists. rewrite (get_project_by_address a _ Hne), Hfind.
      split; [reflexivity|]. repeat split; reflexivity.
    + intros ->. reflexivity.
Qed.

Lemma lead_lookup_round_trip_witness :
  exists project_id,
    fst (add_project sample_token sample_world) = Ok (Some project_id)
    /\ fst (project_exists "ADDR1" (snd (add_project sample_token sample_world))) = Ok true.
Proof.
  destruct (lead_lookup_round_trip sample_world sample_token "ADDR1" eq_refl)
    as (project_id & H1 & H2 & _).
  exists project_id. split; assumption.
Defined.

(** ** Recording an index check *)

Lemma update_index_status_run (project_id : option Z) (is_indexed : bool) (w : World) :
  update_index_status project_id is_indexed w
  = (Ok tt,
     let d := update_projects_where_id project_id
                (set_is_indexed is_indexed (current_timestamp_at (script w) (tick w)))
                (db w) in
     if is_indexed
     then mkWorld (script w) (S (tick w)) d (automator w) (slept w) (send_calls w)
     else mkWorld (script w) (S (S (tick w)))
                  (incremented unindexed_sites_found 1
                     (date_of (now_at (script w) (S (tick w)))) d)
                  (automator w) (slept w) (send_calls w)).
Proof. destruct is_indexed; reflexivity. Qed.

Lemma update_index_status_projects (project_id : option Z) (is_indexed : bool) (w : World) :
  projects (db (snd (update_index_status project_id is_indexed w)))
  = map (fun r => if sql_eq (Some (p_id r)) project_id
                  then set_is_indexed is_indexed
                         (current_timestamp_at (script w) (tick w)) r
                  else r)
        (projects (db w)).
Proof.
  rewrite update_index_status_run. cbv zeta. cbn [snd].
  destruct is_indexed; cbn [db].
  - reflexivity.
  - now rewrite (proj1 (projects_incremented _ _ _ _)).
Qed.

(** X8.  After [update_index_status] with result [b] for lead [i], no row
    of that lead is listed by [get_projects_needing_index_check]; with
    [b = true] none is listed by [get_uncontacted_projects] restricted to
    unindexed sites either.  The statuses of all leads are as before.
    [unindexed_sites_found] grows by one exactly when [b] is false (on
    every such call, also for an id no lead has); with [b = true] the daily
    counters are untouched. *)
Theorem index_status_recorded (w : World) (i : Z) (b : bool) (limit : Z) :
  let w' := snd (update_index_status (Some i) b w) in
  let today := date_of (now_at (script w) (S (tick w))) in
  (forall l q, fst (get_projects_needing_index_check limit w') = Ok l ->
               In q l -> p_id q <> i)
  /\ (b = true ->
      forall l q, fst (get_uncontacted_projects limit true w') = Ok l ->
                  In q l -> p_id q <> i)
  /\ map p_status (projects (db w')) = map p_status (projects (db w))
  /\ (if b
      then daily_metrics (db w') = daily_metrics (db w)
      else metric_on unindexed_sites_found today (db w')
           = metric_on unindexed_sites_found today (db w) + 1).
Proof.
  intros w' today.
  assert (Hrows : forall q, In q (projects (db w')) -> p_id q = i ->
                            p_is_indexed q = Some b).
  { intros q Hin Hid. subst w'. rewrite update_index_status_projects in Hin.
    apply in_map_iff in Hin. destruct Hin as (r & Hr & _).
    destruct (sql_eq (Some (p_id r)) (Some i)) eqn:He.
    - subst q. reflexivity.
    - subst q. cbn [sql_eq] in He. apply Z.eqb_neq in He. contradiction. }
  split; [|split; [|split]].
  - intros l q Hl Hin Hid.
    unfold get_projects_needing_index_check, bind, get_db, ret in Hl. cbn [fst] in Hl.
    injection Hl as <-. apply sql_limit_In in Hin.
    apply (Permutation_in _ (order_by_perm _)) in Hin.
    apply filter_In in Hin. destruct Hin as (Hin & Hf).
    rewrite (Hrows q Hin Hid) in Hf. cbn in Hf. rewrite andb_false_r in Hf. discriminate.
  - intros -> l q Hl Hin Hid.
    unfold get_uncontacted_projects, bind, get_db, ret in Hl. cbn [fst] in Hl.
    injection Hl as <-. apply sql_limit_In in Hin.
    apply (Permutation_in _ (order_by_perm _)) in Hin.
    apply filter_In in Hin. destruct Hin as (Hin & Hf).
    unfold uncontacted in Hf. rewrite (Hrows q Hin Hid) in Hf.
    rewrite andb_false_r in Hf. discriminate.
  - subst w'. rewrite update_index_status_projects, map_map.
    apply map_ext. intros r. now destruct (sql_eq (Some (p_id r)) (Some i)).
  - subst w' today. rewrite update_index_status_run. cbv zeta. destruct b; cbn [snd db].
    + reflexivity.
    + rewrite metric_incremented_same. now rewrite metric_on_update_projects.
Qed.

(** ** User names taken from links *)

Lemma take_word_all_word (s : string) : all_word (take_word s) = true.
Proof.
  induction s as [|c s IH]; cbn [take_word all_word]; [reflexivity|].
  destruct (is_word c) eqn:Hc; cbn [all_word]; [|reflexivity].
  now rewrite Hc, IH.
Qed.

Lemma prefix_empty (s : string) : prefix "" s = true.
Proof. destruct s; reflexivity. Qed.

Lemma prefix_take_word (s : string) : prefix (take_word s) s = true.
Proof.
  induction s as [|c s IH]; cbn [take_word]; [reflexivity|].
  destruct (is_word c); [|apply prefix_empty].
  cbn [prefix]. destruct (ascii_dec c c); [exact IH | congruence].
Qed.

Lemma str_contains_prefix (sub s : string) :
  prefix sub s = true -> str_contains sub s = true.
Proof. intros H. destruct s; cbn [str_contains]; now rewrite H. Qed.

Lemma str_contains_tail (sub : string) (c : ascii) (s : string) :
  str_contains sub s = true -> str_contains sub (String c s) = true.
Proof.
  intros H. cbn [str_contains]. now destruct (prefix sub (String c s)).
Qed.

Lemma str_contains_drop (sub : string) (n : nat) (s : string) :
  str_contains sub (drop n s) = true -> str_contains sub s = true.
Proof.
  revert s. induction n as [|n IH]; intros s H; [exact H|].
  destruct s as [|c s]; [exact H|].
  apply str_contains_tail, IH. exact H.
Qed.

Lemma match_here_shape (lit s w : string) :
  match_here lit s = Some w ->
  w <> "" /\ all_word w = true /\ str_contains w s = true.
Proof.
  unfold match_here. destruct (prefix lit s); [|discriminate].
  destruct (take_word (drop (String.length lit) s)) as [|c t] eqn:Ht; [discriminate|].
  intros H. injection H as <-. split; [discriminate|]. split.
  - rewrite <- Ht. apply take_word_all_word.
  - apply (str_contains_drop _ (String.length lit)), str_contains_prefix.
    rewrite <- Ht. apply prefix_take_word.
Qed.

Lemma re_search_word_eq (lit s : string) :
  re_search_word lit s
  = match match_here lit s with
    | Some w => Some w
    | None => match s with
              | EmptyString => None
              | String _ s' => re_search_word lit s'
              end
    end.
Proof. destruct s; reflexivity. Qed.

Lemma re_search_word_shape (lit s w : string) :
  re_search_word lit s = Some w ->
  w <> "" /\ all_word w = true /\ str_contains w s = true.
Proof.
  induction s as [|c s IH]; rewrite re_search_word_eq;
    destruct (match_here lit _) as [v|] eqn:Hm.
  - intros H. injection H as <-. now apply (match_here_shape lit).
  - discriminate.
  - intros H. injection H as <-. now apply (match_here_shape lit).
  - intros H. destruct (IH H) as (H1 & H2 & H3).
    split; [exact H1|]. split; [exact H2|]. now apply str_contains_tail.
Qed.

Lemma first_username_shape (patterns : list string) (url u : string) :
  first_username patterns url = Some u ->
  u <> "" /\ all_word u = true /\ str_in (str_lower u) reserved_words = false
  /\ str_contains u url = true.
Proof.
  induction patterns as [|lit rest IH]; cbn [first_username]; [discriminate|].
  destruct (re_search_word lit url) as [v|] eqn:Hs; [|exact IH].
  fold reserved_words.
  destruct (str_in (str_lower v) reserved_words) eqn:Hr; [exact IH|].
  intros H. injection H as <-.
  destruct (re_search_word_shape _ _ _ Hs) as (H1 & H2 & H3). now repeat split.
Qed.

(** X9.  A user name returned by [_extract_username] is never empty,
    consists of letters, digits and underscores only, occurs in the link it
    was taken from and is none of the words [joinchat], [share],
    [addstickers] in any capitalisation; a missing or empty link gives no
    user name. *)
Theorem extracted_username_shape (url : option string) (u : string) :
  _extract_username url = Some u ->
  u <> ""
  /\ all_word u = true
  /\ str_in (str_lower u) reserved_words = false
  /\ exists link, url = Some link /\ link <> "" /\ str_contains u link = true.
Proof.
  destruct url as [link|]; cbn [_extract_username]; [|discriminate].
  destruct (String.eqb_spec link ""); [discriminate|].
  intros H. apply first_username_shape in H. destruct H as (H1 & H2 & H3 & H4).
  repeat split; try assumption. exists link. now repeat split.
Qed.

Lemma extracted_username_shape_witness :
  all_word "lumina_chat" = true
  /\ str_in (str_lower "lumina_chat") reserved_words = false.
Proof.
  destruct (extracted_username_shape (Some "https://t.me/lumina_chat?start=1") "lumina_chat"
              eq_refl) as (_ & H2 & H3 & _).
  split; assumption.
Defined.

Lemma take_word_app (name rest : string) :
  all_word name = true -> starts_with_word rest = false ->
  take_word (name ++ rest) = name.
Proof.
  intros Hn Hr. induction name as [|c name IH]; cbn [append take_word].
  - destruct rest as [|c r]; [reflexivity|]. cbn [starts_with_word] in Hr.
    cbn [take_word]. now rewrite Hr.
  - cbn [all_word] in Hn. apply andb_true_iff in Hn. destruct Hn as (Hc & Hn).
    rewrite Hc. f_equal. now apply IH.
Qed.

Lemma prefix_app (s t : string) : prefix s (s ++ t) = true.
Proof.
  induction s as [|c s IH]; cbn [append]; [apply prefix_empty|].
  cbn [prefix]. destruct (ascii_dec c c); [exact IH | congruence].
Qed.

Lemma re_search_word_skip (lit : string) (c : ascii) (s : string) :
  match_here lit (String c s) = None ->
  re_search_word lit (String c s) = re_search_word lit s.
Proof. intros H. rewrite re_search_word_eq, H. reflexivity. Qed.

(** X10.  From a link [https://t.me/NAME...] whose NAME is a non-empty run
    of letters, digits and underscores, ended by the end of the link or by
    any other character, [_extract_username] returns exactly NAME, unless
    NAME is one of the reserved words. *)
Theorem username_of_group_link (name rest : string) :
  name <> "" ->
  all_word name = true ->
  starts_with_word rest = false ->
  str_in (str_lower name) reserved_words = false ->
  _extract_username (Some ("https://t.me/" ++ name ++ rest)) = Some name.
Proof.
  intros Hne Hw Hrest Hres.
  assert (Hs : re_search_word "t.me/" ("https://t.me/" ++ name ++ rest) = Some name).
  { cbn [append].
    do 8 (rewrite re_search_word_skip by reflexivity).
    rewrite re_search_word_eq.
    assert (Hm : match_here "t.me/" ("t.me/" ++ name ++ rest) = Some name).
    { unfold match_here.
      rewrite prefix_app.
      change (drop (String.length "t.me/") ("t.me/" ++ name ++ rest)) with (name ++ rest).
      rewrite (take_word_app name rest Hw Hrest).
      destruct name; [congruence | reflexivity]. }
    cbn [append] in Hm. now rewrite Hm. }
  cbn [_extract_username append]. cbn [String.eqb].
  replace (Ascii.eqb "h" "h") with true by reflexivity.
  cbn [first_username]. cbn [append] in Hs. rewrite Hs.
  fold reserved_words. now rewrite Hres.
Qed.

Lemma username_of_group_link_witness :
  _extract_username (Some ("https://t.me/" ++ "lumina_chat" ++ "?start=1"))
  = Some "lumina_chat".
Proof.
  apply (username_of_group_link "lumina_chat" "?start=1");
    [discriminate | reflexivity | reflexivity | reflexivity].
Defined.

(** ** Active hours *)

Lemma hour_of_range (t : datetime) : 0 <= hour_of t < 24.
Proof.
  unfold hour_of, day, hour.
  pose proof (Z.mod_pos_bound t 86400000000 ltac:(lia)) as Hm.
  split.
  - apply Z.div_pos; lia.
  - apply Z.div_lt_upper_bound; lia.
Qed.

(** X11.  [_is_active_hours] without an [active_hours] entry answers true
    and does not read the clock; with the default bounds 0 and 24 it also
    answers true at any time.  With [start < end] it answers true exactly
    at the hours [start <= h < end], with [start > end] exactly at the
    hours [h >= start] and [h < end]; with [start = end] it is never
    active; and for [start <> end] the window from [start] to [end] and the
    window from [end] to [start] split the day: at any time exactly one of
    the two is active. *)
Theorem active_hours_window (w : World) (start end' : Z) :
  let h := hour_of (now_at (script w) (tick w)) in
  _is_active_hours None w = (Ok true, w)
  /\ fst (_is_active_hours (Some (0, 24)) w) = Ok true
  /\ fst (_is_active_hours (Some (start, start)) w) = Ok false
  /\ (start < end' ->
      (fst (_is_active_hours (Some (start, end')) w) = Ok true <-> start <= h < end'))
  /\ (end' < start ->
      (fst (_is_active_hours (Some (start, end')) w) = Ok true <-> start <= h \/ h < end'))
  /\ (start <> end' ->
      exists b, fst (_is_active_hours (Some (start, end')) w) = Ok b
                /\ fst (_is_active_hours (Some (end', start)) w) = Ok (negb b)).
Proof.
  intros h. pose proof (hour_of_range (now_at (script w) (tick w))) as Hh. fold h in Hh.
  assert (Hrun : forall s e,
            fst (_is_active_hours (Some (s, e)) w)
            = Ok (if Z.leb s e then Z.leb s h && Z.ltb h e else Z.leb s h || Z.ltb h e)).
  { intros s e. unfold _is_active_hours, bind, datetime_now, next. cbn [fst snd].
    fold h. destruct (Z.leb s e); reflexivity. }
  split; [reflexivity|]. rewrite !Hrun.
  split; [|split; [|split; [|split]]].
  - f_equal. cbn [Z.leb Z.compare]. 
    destruct (Z.leb_spec 0 h), (Z.ltb_spec h 24); try reflexivity; lia.
  - f_equal. rewrite Z.leb_refl.
    destruct (Z.leb_spec start h), (Z.ltb_spec h start); try reflexivity; lia.
  - intros Hlt. destruct (Z.leb_spec start end'); [|lia].
    destruct (Z.leb_spec start h), (Z.ltb_spec h end'); cbn [andb];
      split; intros Hx; try reflexivity; try discriminate; lia.
  - intros Hlt. destruct (Z.leb_spec start end'); [lia|].
    destruct (Z.leb_spec start h), (Z.ltb_spec h end'); cbn [orb];
      split; intros Hx; try reflexivity; try discriminate; lia.
  - intros Hne. eexists. split; [reflexivity|]. f_equal.
    destruct (Z.leb_spec start end'), (Z.leb_spec end' start); try lia;
      destruct (Z.leb_spec start h), (Z.ltb_spec h end'),
               (Z.leb_spec end' h), (Z.ltb_spec h start); try reflexivity; lia.
Qed.

(** ** What one call of the automator does *)

Lemma can_dm_run (w : World) :
  let now := now_at (script w) (tick w) in
  let pruned := prune (now - hour) (dm_times (automator w)) in
  _can_dm w
  = (if Z.leb (max_dms_per_hour (automator w)) (Z.of_nat (List.length pruned))
     then match pruned with
          | [] => Raise min_of_empty
          | t :: l =>
              Ok (false, Z.max 0 (int_total_seconds (fold_left Z.min l t + hour - now)))
          end
     else Ok (true, 0),
     mkWorld (script w) (S (tick w)) (db w) (with_dm_times (automator w) pruned)
             (slept w) (send_calls w)).
Proof.
  cbv zeta. unfold _can_dm, bind, datetime_now, next, modify_telegram, get_telegram.
  cbn [fst snd script tick db automator slept send_calls with_dm_times
       dm_times max_dms_per_hour].
  destruct (Z.leb _ _); [|reflexivity].
  destruct (prune _ _); reflexivity.
Qed.

(** [join_group] after the user name [u] has been found, branch by
    branch. *)
Lemma join_group_run (w : World) (telegram_url u : string) :
  _extract_username (Some telegram_url) = Some u ->
  let a := automator w in
  let k := tick w in
  let now := now_at (script w) k in
  let pruned := prune (now - hour) (join_times a) in
  let at_tick n := mkWorld (script w) n (db w) (with_join_times a pruned)
                           (slept w) (send_calls w) in
  join_group telegram_url w
  = if Z.leb (max_joins_per_hour a) (Z.of_nat (List.length pruned))
    then match pruned with
         | [] => (Raise min_of_empty, at_tick (S k))
         | t :: l =>
             (Ok (false,
                  Some (rate_limited_text
                          (Z.max 0 (int_total_seconds (fold_left Z.min l t + hour - now))))),
              at_tick (S k))
         end
    else
      match get_entity_at (script w) (S k) with
      | Raises e => join_group_except e (at_tick (S (S k)))
      | Returns ent =>
          if is_group ent
          then match get_participants_at (script w) (S (S k)) with
               | Returns _ => (Ok (true, None), at_tick (S (S (S k))))
               | Raises _ =>
                   match join_channel_at (script w) (S (S (S k))) with
                   | Raises e => join_group_except e (at_tick (S (S (S (S k)))))
                   | Returns _ =>
                       (Ok (true, None),
                        mkWorld (script w) (S (S (S (S (S k))))) (db w)
                                (mkAutomator (join_delay a) (dm_delay a)
                                   (max_joins_per_hour a) (max_dms_per_hour a)
                                   (pruned ++ [now_at (script w) (S (S (S (S k))))])%list
                                   (dm_times a) (add_groups_joined 1 (stats a)))
                                (join_delay a :: slept w) (send_calls w))
                   end
               end
          else (Ok (false, Some "Not a group/channel"), at_tick (S (S k)))
      end.
Proof.
  intros Hu. cbv zeta. unfold join_group. rewrite Hu.
  unfold bind at 1. rewrite can_join_run. cbv zeta.
  destruct (Z.leb _ _).
  - destruct (prune _ _); reflexivity.
  - unfold bind, next, datetime_now, modify_stats, modify_telegram, get_telegram,
      asyncio_sleep, ret.
    cbn [negb script tick db automator slept send_calls].
    destruct (get_entity_at _ _) as [ent|e]; [|reflexivity].
    destruct (is_group ent); cbn [negb]; [|reflexivity].
    cbn [script tick db automator slept send_calls].
    destruct (get_participants_at _ _); [reflexivity|].
    cbn [script tick db automator slept send_calls].
    destruct (join_channel_at _ _); reflexivity.
Qed.

Lemma join_group_no_username (w : World) (telegram_url : string) :
  _extract_username (Some telegram_url) = None ->
  join_group telegram_url w
  = (Ok (false, Some ("Could not extract username from " ++ telegram_url)), w).
Proof. intros Hu. unfold join_group. now rewrite Hu. Qed.

Lemma join_group_except_run (e : TgError) (w : World) :
  exists reason st,
    join_group_except e w
    = (Ok (false, Some reason),
       mkWorld (script w) (tick w) (db w) (with_stats (automator w) st)
               (slept w) (send_calls w))
    /\ st_groups_joined st = st_groups_joined (stats (automator w))
    /\ st_dms_sent st = st_dms_sent (stats (automator w)).
Proof.
  unfold join_group_except.
  destruct (err_kind e); eexists; eexists;
    (split; [|split]); try reflexivity;
    try (destruct w as [s k d [jd dd mj md jt dt st] sl sc]; reflexivity);
    reflexivity.
Qed.

Lemma prune_incl (h : datetime) (l : list datetime) : incl (prune h l) l.
Proof. unfold prune. apply incl_filter. Qed.

Lemma prune_within (h : datetime) (l : list datetime) (n : Z) :
  Z.of_nat (List.length l) <= n -> Z.of_nat (List.length (prune h l)) <= n.
Proof. pose proof (prune_length h l). lia. Qed.

Lemma append_within (l : list datetime) (t : datetime) (n : Z) :
  Z.leb n (Z.of_nat (List.length l)) = false ->
  Z.of_nat (List.length (l ++ [t])) <= n.
Proof.
  intros H. apply Z.leb_gt in H. rewrite length_app. cbn [List.length]. lia.
Qed.

(** Splits a goal about [join_group telegram_url w] into the branches of
    the call. *)
Ltac join_group_branches w telegram_url :=
  let u := fresh "u" in
  let Hu := fresh "Hu" in
  let Hfull := fresh "Hfull" in
  destruct (_extract_username (Some telegram_url)) as [u|] eqn:Hu;
  [ rewrite (join_group_run w telegram_url u Hu); cbv zeta;
    destruct (Z.leb (max_joins_per_hour (automator w)) _) eqn:Hfull;
    [ destruct (prune _ (join_times (automator w))) eqn:?
    | destruct (get_entity_at (script w) _) as [[| |]|?];
      cbn [is_group];
      try destruct (get_participants_at (script w) _);
      try destruct (join_channel_at (script w) _);
      try match goal with
          | |- context [join_group_except ?e ?v] =>
              let reason := fresh "reason" in
              let st := fresh "st" in
              let Hrun := fresh "Hrun" in
              let Hg := fresh "Hg" in
              let Hd := fresh "Hd" in
              destruct (join_group_except_run e v) as (reason & st & Hrun & Hg & Hd);
              rewrite Hrun
          end ]
  | rewrite (join_group_no_username w telegram_url Hu) ].

(** X12.  Whatever the client answers, [join_group] leaves the database,
    the record of sent messages, the message window and the settings as
    they are.  It returns success, or a failure with a reason, and raises
    (the error of [min] on an empty list) only with a ceiling of zero or
    less.  Unless it returns success it does not sleep, adds no entry to
    the join window (which is at most pruned) and does not count a group
    as joined.  A join window within its ceiling stays within it. *)
Theorem join_group_effects (w : World) (telegram_url : string) :
  let r := join_group telegram_url w in
  let a := automator w in
  let a' := automator (snd r) in
  (db (snd r) = db w
   /\ send_calls (snd r) = send_calls w
   /\ dm_times a' = dm_times a
   /\ same_limits a a')
  /\ (fst r = Ok (true, None)
      \/ (exists reason, fst r = Ok (false, Some reason))
      \/ (fst r = Raise min_of_empty /\ max_joins_per_hour a <= 0))
  /\ (fst r <> Ok (true, None) ->
      slept (snd r) = slept w
      /\ incl (join_times a') (join_times a)
      /\ st_groups_joined (stats a') = st_groups_joined (stats a))
  /\ (within_ceiling JoinClass a -> within_ceiling JoinClass a').
Proof.
  cbv zeta. unfold within_ceiling, same_limits. cbn [window ceiling].
  join_group_branches w telegram_url;
    cbn [fst snd db send_calls automator slept dm_times join_times stats
         with_join_times with_stats max_joins_per_hour max_dms_per_hour
         join_delay dm_delay];
    (split; [repeat split; reflexivity|]);
    (split; [|split]).
  all: try (intros Hne; repeat split;
            first [ reflexivity | assumption | apply incl_refl
                  | rewrite <- ?Heql; apply prune_incl
                  | exfalso; apply Hne; reflexivity ]).
  all: try (intros Hin; first [ exact Hin
                              | rewrite <- ?Heql; now apply prune_within
                              | now apply append_within ]).
  all: try (left; reflexivity).
  all: try (right; left; eexists; reflexivity).
  - right; right. split; [reflexivity|]. apply Z.leb_le in Hfull. exact Hfull.
Qed.

(** [send_dm], branch by branch. *)
Lemma send_dm_run (w : World) (username' message : string)
    (project_name token_symbol : option string) :
  let a := automator w in
  let k := tick w in
  let now := now_at (script w) k in
  let pruned := prune (now - hour) (dm_times a) in
  let text := personalize message project_name token_symbol in
  let checked n calls := mkWorld (script w) n (db w) (with_dm_times a pruned)
                                 (slept w) calls in
  send_dm username' message project_name token_symbol w
  = if Z.leb (max_dms_per_hour a) (Z.of_nat (List.length pruned))
    then match pruned with
         | [] => (Raise min_of_empty, checked (S k) (send_calls w))
         | t :: l =>
             (Ok (false,
                  Some (rate_limited_text
                          (Z.max 0 (int_total_seconds (fold_left Z.min l t + hour - now))))),
              checked (S k) (send_calls w))
         end
    else
      match get_entity_at (script w) (S k) with
      | Raises e => send_dm_except e (checked (S (S k)) (send_calls w))
      | Returns _ =>
          match send_message_at (script w) (S (S k)) with
          | Raises e =>
              send_dm_except e (checked (S (S (S k))) ((username', text) :: send_calls w))
          | Returns _ =>
              (Ok (true, None),
               mkWorld (script w) (S (S (S (S k)))) (db w)
                       (mkAutomator (join_delay a) (dm_delay a)
                          (max_joins_per_hour a) (max_dms_per_hour a)
                          (join_times a)
                          (pruned ++ [now_at (script w) (S (S (S k)))])%list
                          (add_dms_sent 1 (stats a)))
                       (dm_delay a :: slept w) ((username', text) :: send_calls w))
          end
      end.
Proof.
  cbv zeta. unfold send_dm.
  unfold bind at 1. rewrite can_dm_run. cbv zeta.
  destruct (Z.leb _ _).
  - destruct (prune _ _); reflexivity.
  - unfold bind, next, datetime_now, modify_stats, modify_telegram, get_telegram,
      asyncio_sleep, client_send_message, ret.
    cbn [negb script tick db automator slept send_calls].
    destruct (get_entity_at _ _) as [ent|e]; [|reflexivity].
    cbn [script tick db automator slept send_calls].
    destruct (send_message_at _ _); reflexivity.
Qed.

Lemma send_dm_except_run (e : TgError) (w : World) :
  exists reason st,
    send_dm_except e w
    = (Ok (false, Some reason),
       mkWorld (script w) (tick w) (db w) (with_stats (automator w) st)
               (slept w) (send_calls w))
    /\ st_dms_sent st = st_dms_sent (stats (automator w))
    /\ st_groups_joined st = st_groups_joined (stats (automator w)).
Proof.
  unfold send_dm_except.
  destruct (err_kind e); eexists; eexists;
    (split; [|split]); try reflexivity;
    try (destruct w as [s k d [jd dd mj md jt dt st] sl sc]; reflexivity);
    reflexivity.
Qed.

(** Splits a goal about a call of [send_dm] on [w] into the branches of the
    call. *)
Ltac send_dm_branches w :=
  let Hfull := fresh "Hfull" in
  rewrite send_dm_run; cbv zeta;
  destruct (Z.leb (max_dms_per_hour (automator w)) _) eqn:Hfull;
  [ destruct (prune _ (dm_times (automator w))) eqn:?
  | destruct (get_entity_at (script w) _);
    try destruct (send_message_at (script w) _);
    try match goal with
        | |- context [send_dm_except ?e ?v] =>
            let reason := fresh "reason" in
            let st := fresh "st" in
            let Hrun := fresh "Hrun" in
            let Hg := fresh "Hg" in
            let Hd := fresh "Hd" in
            destruct (send_dm_except_run e v) as (reason & st & Hrun & Hd & Hg);
            rewrite Hrun
        end ].

(** X13.  Whatever the client answers, [send_dm] leaves the database, the
    join window and the settings as they are, and hands at most one
    message to the client: the personalised text, to the given user.  It
    returns success, or a failure with a reason, and raises only with a
    ceiling of zero or less.  On success the message was handed over, the
    call slept [dm_delay] and [dms_sent] grew by one; otherwise it does
    not sleep, adds no entry to the message window and does not count a
    message as sent.  A denial by the rate limit hands nothing to the
    client.  A message window within its ceiling stays within it. *)
Theorem send_dm_effects (w : World) (username' message : string)
    (project_name token_symbol : option string) :
  let r := send_dm username' message project_name token_symbol w in
  let a := automator w in
  let a' := automator (snd r) in
  let call := (username', personalize message project_name token_symbol) in
  (db (snd r) = db w
   /\ join_times a' = join_times a
   /\ same_limits a a'
   /\ (send_calls (snd r) = send_calls w \/ send_calls (snd r) = call :: send_calls w))
  /\ (fst r = Ok (true, None)
      \/ (exists reason, fst r = Ok (false, Some reason))
      \/ (fst r = Raise min_of_empty /\ max_dms_per_hour a <= 0))
  /\ (fst r = Ok (true, None) ->
      send_calls (snd r) = call :: send_calls w
      /\ slept (snd r) = dm_delay a :: slept w
      /\ st_dms_sent (stats a') = st_dms_sent (stats a) + 1)
  /\ (fst r <> Ok (true, None) ->
      slept (snd r) = slept w
      /\ incl (dm_times a') (dm_times a)
      /\ st_dms_sent (stats a') = st_dms_sent (stats a))
  /\ (fst (_can_dm w) <> Ok (true, 0) -> send_calls (snd r) = send_calls w)
  /\ (within_ceiling MessageClass a -> within_ceiling MessageClass a').
Proof.
  cbv zeta. unfold within_ceiling, same_limits. cbn [window ceiling].
  rewrite can_dm_run. cbv zeta. cbn [fst].
  send_dm_branches w;
    cbn [fst snd db send_calls automator slept dm_times join_times stats
         with_dm_times with_stats max_joins_per_hour max_dms_per_hour
         join_delay dm_delay add_dms_sent st_dms_sent];
    (split; [repeat split; try reflexivity; auto|]);
    (split; [|split; [|split; [|split]]]).
  all: try (intros Hne; repeat split;
            first [ reflexivity | assumption | discriminate | apply incl_refl
                  | rewrite <- ?Heql; apply prune_incl
                  | exfalso; apply Hne; reflexivity ]).
  all: try (intros Hin; first [ exact Hin
                              | rewrite <- ?Heql; now apply prune_within
                              | now apply append_within ]).
  all: try (left; reflexivity).
  all: try (right; left; eexists; reflexivity).
  - right; right. split; [reflexivity|]. apply Z.leb_le in Hfull. exact Hfull.
Qed.

(** ** The admins of a group *)

Lemma admin_info_some (p : Participant) (a : AdminInfo) :
  admin_info p = Some a <->
  tl_bot p = false
  /\ tl_username p = Some (username a)
  /\ username a <> ""
  /\ user_id a = tl_id p
  /\ first_name a = match tl_first_name p with Some f => f | None => "" end
  /\ is_owner a = tl_creator p.
Proof.
  unfold admin_info. split.
  - destruct (tl_bot p); [discriminate|].
    destruct (tl_username p) as [n|]; [|discriminate].
    destruct (String.eqb_spec n ""); [discriminate|].
    intros H. injection H as <-. cbn. now repeat split.
  - intros (Hb & Hu & Hn & Hi & Hf & Ho). rewrite Hb, Hu.
    destruct (String.eqb_spec (username a) ""); [contradiction|].
    destruct a as [un ui uf uo]. cbn in *. now subst.
Qed.

Lemma admin_infos_In (ps : list Participant) (a : AdminInfo) :
  In a (admin_infos ps) <-> exists p, In p ps /\ admin_info p = Some a.
Proof.
  induction ps as [|p ps IH]; cbn [admin_infos].
  - split; [intros [] | intros (p & [] & _)].
  - destruct (admin_info p) as [b|] eqn:Hp.
    + cbn [In]. rewrite IH. split.
      * intros [<- | (q & Hq & Ha)]; [exists p | exists q]; cbn [In]; auto.
      * intros (q & [<- | Hq] & Ha); [left; congruence | right; now exists q].
    + rewrite IH. split.
      * intros (q & Hq & Ha). exists q. cbn [In]. auto.
      * intros (q & [<- | Hq] & Ha); [congruence | now exists q].
Qed.

Lemma get_group_admins_run (w : World) (telegram_url u : string) :
  _extract_username (Some telegram_url) = Some u ->
  let k := tick w in
  get_group_admins telegram_url w
  = match get_entity_at (script w) k with
    | Raises _ =>
        (Ok [], mkWorld (script w) (S k) (db w) (automator w) (slept w) (send_calls w))
    | Returns ent =>
        if is_group ent
        then
          let found := admin_infos (fst (iter_participants_at (script w) (S k))) in
          (Ok (match snd (iter_participants_at (script w) (S k)) with
               | Some _ => []
               | None => found
               end),
           mkWorld (script w) (S (S k)) (db w)
                   (with_stats (automator w)
                      (add_admins_found (Z.of_nat (List.length found))
                                        (stats (automator w))))
                   (slept w) (send_calls w))
        else (Ok [], mkWorld (script w) (S k) (db w) (automator w) (slept w) (send_calls w))
    end.
Proof.
  intros Hu. cbv zeta. unfold get_group_admins. rewrite Hu.
  unfold bind, next, modify_stats, modify_telegram, ret.
  cbn [script tick db automator slept send_calls].
  destruct (get_entity_at _ _) as [ent|e]; [|reflexivity].
  destruct (is_group ent); cbn [negb]; [|reflexivity].
  cbn [script tick db automator slept send_calls].
  destruct (iter_participants_at _ _) as [ps [e|]]; reflexivity.
Qed.

(** X14.  [get_group_admins] always returns a list and changes nothing but
    the session counter [admins_found]: the database, both windows, the
    settings, the sleeps and the sent messages are as before.  Every admin
    it returns has a non-empty user name and comes from a participant the
    client yielded that is not a bot, with that participant's id and owner
    flag.  [admins_found] grows by at least the number of admins returned:
    it also counts the admins seen before an iteration that then failed,
    for which the empty list is returned.  When the group resolves and the
    iteration ends normally, every yielded participant that is not a bot
    and has a non-empty user name is returned. *)
Theorem group_admins_listing (w : World) (telegram_url : string) :
  let r := get_group_admins telegram_url w in
  let a := automator w in
  let a' := automator (snd r) in
  let yielded := iter_participants_at (script w) (S (tick w)) in
  exists found,
    fst r = Ok found
    /\ (db (snd r) = db w /\ slept (snd r) = slept w /\ send_calls (snd r) = send_calls w
        /\ join_times a' = join_times a /\ dm_times a' = dm_times a /\ same_limits a a')
    /\ (forall x, In x found ->
          username x <> ""
          /\ exists p, In p (fst yielded)
                       /\ tl_bot p = false
                       /\ tl_username p = Some (username x)
                       /\ tl_id p = user_id x
                       /\ tl_creator p = is_owner x)
    /\ st_admins_found (stats a) + Z.of_nat (List.length found) <= st_admins_found (stats a')
    /\ (st_groups_joined (stats a') = st_groups_joined (stats a)
        /\ st_join_failures (stats a') = st_join_failures (stats a)
        /\ st_dms_sent (stats a') = st_dms_sent (stats a)
        /\ st_dm_failures (stats a') = st_dm_failures (stats a))
    /\ (forall u ent p n,
          _extract_username (Some telegram_url) = Some u ->
          get_entity_at (script w) (tick w) = Returns ent ->
          is_group ent = true ->
          snd yielded = None ->
          In p (fst yielded) -> tl_bot p = false -> tl_username p = Some n -> n <> "" ->
          exists x, In x found /\ username x = n /\ user_id x = tl_id p).
Proof.
  cbv zeta. unfold same_limits.
  destruct (_extract_username (Some telegram_url)) as [u|] eqn:Hu.
  - rewrite (get_group_admins_run w telegram_url u Hu). cbv zeta.
    destruct (get_entity_at (script w) (tick w)) as [ent|e].
    + destruct (is_group ent) eqn:Hg.
      * eexists. split; [reflexivity|].
        cbn [fst snd db send_calls automator slept dm_times join_times stats with_stats
             max_joins_per_hour max_dms_per_hour join_delay dm_delay add_admins_found
             st_admins_found st_groups_joined st_join_failures st_dms_sent st_dm_failures].
        split; [now repeat split|]. split; [|split; [|split; [now repeat split|]]].
        -- intros x Hx.
           assert (Hin : In x (admin_infos (fst (iter_participants_at (script w) (S (tick w)))))).
           { destruct (snd (iter_participants_at (script w) (S (tick w)))); [destruct Hx | exact Hx]. }
           apply admin_infos_In in Hin. destruct Hin as (p & Hp & Hinfo).
           apply admin_info_some in Hinfo.
           destruct Hinfo as (Hb & Hn & Hne & Hi & _ & Ho).
           split; [exact Hne|]. exists p. now repeat split.
        -- destruct (snd (iter_participants_at (script w) (S (tick w)))); cbn [List.length]; lia.
        -- intros u' ent' p n _ _ _ Hnone Hp Hb Hn Hne. rewrite Hnone.
           exists (mkAdminInfo n (tl_id p)
                     (match tl_first_name p with Some f => f | None => "" end)
                     (tl_creator p)).
           split; [|now split].
           apply admin_infos_In. exists p. split; [exact Hp|].
           apply admin_info_some. cbn. now repeat split.
      * exists []. split; [reflexivity|]. cbn [fst snd db send_calls automator slept].
        split; [now repeat split|]. split; [intros x []|]. split; [cbn; lia|].
        split; [now repeat split|].
        intros u' ent' p n _ Hent Hg'. injection Hent as <-. congruence.
    + exists []. split; [reflexivity|]. cbn [fst snd db send_calls automator slept].
      split; [now repeat split|]. split; [intros x []|]. split; [cbn; lia|].
      split; [now repeat split|].
      intros u' ent' p n _ Hent. discriminate.
  - unfold get_group_admins. rewrite Hu. exists []. split; [reflexivity|].
    cbn [fst snd ret].
    split; [now repeat split|]. split; [intros x []|]. split; [cbn; lia|].
    split; [now repeat split|].
    intros u' ent' p n Hu'. discriminate.
Qed.

(** ** What a run of the pipeline keeps *)

Lemma extends_refl {A : Type} (l : list A) : extends l l.
Proof. exists []. now rewrite app_nil_r. Qed.

Lemma extends_trans {A : Type} (a b c : list A) :
  extends a b -> extends b c -> extends a c.
Proof. intros [x ->] [y ->]. exists (x ++ y)%list. now rewrite app_assoc. Qed.

Lemma extends_one {A : Type} (l : list A) (x : A) : extends l (l ++ [x]).
Proof. now exists [x]. Qed.

Lemma extends_eq {A : Type} (l l' : list A) : l' = l -> extends l l'.
Proof. intros ->. apply extends_refl. Qed.

Lemma extends_length {A : Type} (l l' : list A) :
  extends l l' -> (List.length l <= List.length l')%nat.
Proof. intros [x ->]. rewrite length_app. lia. Qed.

Lemma store_grows_refl (d : Db) : store_grows d d.
Proof. repeat split; try apply extends_refl. intros; lia. Qed.

Lemma store_grows_trans (a b c : Db) :
  store_grows a b -> store_grows b c -> store_grows a c.
Proof.
  intros (G1 & A1 & M1 & E1 & C1) (G2 & A2 & M2 & E2 & C2).
  repeat split; try (eapply extends_trans; eassumption).
  intros m dt. specialize (C1 m dt). specialize (C2 m dt). lia.
Qed.

Lemma error_log_incremented (m : Metric) (amount : Z) (today : date) (d : Db) :
  error_log (incremented m amount today d) = error_log d.
Proof.
  unfold incremented, update_daily_metrics, insert_or_ignore_daily_metrics.
  destruct (existsb _ (daily_metrics d)); reflexivity.
Qed.

Lemma store_grows_incremented (m : Metric) (amount : Z) (today : date) (d : Db) :
  0 <= amount -> store_grows d (incremented m amount today d).
Proof.
  intros Ha. destruct (tables_incremented m amount today d) as (G & A & M).
  split; [now apply extends_eq|]. split; [now apply extends_eq|].
  split; [now apply extends_eq|].
  split; [apply extends_eq, error_log_incremented|].
  intros m' dt. now apply metric_incremented_mono.
Qed.

Lemma store_grows_leads (d d' : Db) :
  telegram_groups d' = telegram_groups d -> admins d' = admins d ->
  messages d' = messages d -> error_log d' = error_log d ->
  daily_metrics d' = daily_metrics d ->
  store_grows d d'.
Proof.
  intros G A M E C. repeat split; try now apply extends_eq.
  intros m dt. unfold metric_on, select_daily_metrics. rewrite C. lia.
Qed.

Lemma budget_kept_refl (a : TelegramAutomator) : budget_kept a a.
Proof. split; [now repeat split | auto]. Qed.

Lemma budget_kept_trans (a b c : TelegramAutomator) :
  budget_kept a b -> budget_kept b c -> budget_kept a c.
Proof.
  intros [(J1 & D1 & JD1 & DD1) W1] [(J2 & D2 & JD2 & DD2) W2].
  split; [repeat split; congruence | auto].
Qed.

Lemma db_step_refl (w : World) : db_step w w.
Proof. split; [|split; [|split]]; try reflexivity. apply store_grows_refl. Qed.

Lemma db_step_trans (a b c : World) : db_step a b -> db_step b c -> db_step a c.
Proof.
  intros (A1 & S1 & C1 & G1) (A2 & S2 & C2 & G2).
  split; [congruence|]. split; [congruence|]. split; [congruence|].
  eapply store_grows_trans; eassumption.
Qed.

Lemma tg_step_refl (w : World) : tg_step w w.
Proof. split; [|split]; try reflexivity. apply budget_kept_refl. Qed.

Lemma tg_step_trans (a b c : World) : tg_step a b -> tg_step b c -> tg_step a c.
Proof.
  intros (D1 & C1 & B1) (D2 & C2 & B2).
  split; [congruence|]. split; [congruence|]. eapply budget_kept_trans; eassumption.
Qed.

Lemma sound_step_refl (w : World) : sound_step w w.
Proof.
  split; [apply store_grows_refl|]. split; [apply budget_kept_refl | lia].
Qed.

Lemma sound_step_trans (a b c : World) :
  sound_step a b -> sound_step b c -> sound_step a c.
Proof.
  intros (G1 & B1 & U1) (G2 & B2 & U2).
  split; [eapply store_grows_trans; eassumption|].
  split; [eapply budget_kept_trans; eassumption | lia].
Qed.

Lemma db_step_sound (w w' : World) : db_step w w' -> sound_step w w'.
Proof.
  intros (A & _ & C & G). split; [exact G|]. split.
  - rewrite A. apply budget_kept_refl.
  - unfold unsent_rows. rewrite C.
    destruct G as (_ & _ & M & _). apply extends_length in M. lia.
Qed.

Lemma tg_step_sound (w w' : World) : tg_step w w' -> sound_step w w'.
Proof.
  intros (D & C & B). split; [rewrite D; apply store_grows_refl|].
  split; [exact B|]. unfold unsent_rows. rewrite D, C. lia.
Qed.

Lemma preserves_weaken {A : Type} (R R' : World -> World -> Prop) (c : M A) :
  (forall w w', R w w' -> R' w w') -> preserves R c -> preserves R' c.
Proof. intros H Hc w. apply H, Hc. Qed.

(** *** The database methods *)

Lemma ds_ret {A : Type} (a : A) : preserves db_step (ret a).
Proof. apply preserves_ret, db_step_refl. Qed.

Lemma ds_raise {A : Type} (e : Exn) : preserves db_step (@raise A e).
Proof. apply preserves_raise, db_step_refl. Qed.

Lemma ds_bind {A B : Type} (c : M A) (k : A -> M B) :
  preserves db_step c -> (forall a, preserves db_step (k a)) ->
  preserves db_step (bind c k).
Proof. apply preserves_bind, db_step_trans. Qed.

Lemma ds_for_each {A : Type} (l : list A) (body : A -> M unit) :
  (forall x, preserves db_step (body x)) -> preserves db_step (for_each l body).
Proof. apply preserves_for_each; [apply db_step_refl | apply db_step_trans]. Qed.

Lemma ds_next {A : Type} (f : Script -> nat -> A) : preserves db_step (next f).
Proof. intros w. split; [|split; [|split]]; try reflexivity. apply store_grows_refl. Qed.

Lemma ds_get_db : preserves db_step get_db.
Proof. intros w. apply db_step_refl. Qed.

Lemma ds_modify_db (f : Db -> Db) :
  (forall d, store_grows d (f d)) -> preserves db_step (modify_db f).
Proof. intros Hf w. split; [|split; [|split]]; try reflexivity. apply Hf. Qed.

Lemma ds_increment (m : Metric) : preserves db_step (_increment_daily_metric m 1).
Proof.
  intros w. rewrite increment_run. split; [|split; [|split]]; try reflexivity.
  apply store_grows_incremented. lia.
Qed.

Create HintDb dbstep.
#[local] Hint Resolve ds_ret ds_raise ds_next ds_get_db ds_increment : dbstep.

(** Decomposes a goal [preserves db_step c] along the structure of [c];
    the statements are closed by the shape of the row change. *)
Ltac ds_go :=
  repeat first
    [ solve [auto with dbstep]
    | apply ds_bind; [|intros ?]
    | apply ds_for_each; intros ?
    | apply ds_modify_db; intros ?;
      first [ solve [apply store_grows_leads; reflexivity]
            | solve [repeat split;
                     first [ apply extends_one | apply extends_refl | intros; apply Z.le_refl ]] ]
    | match goal with
      | |- preserves _ (match ?x with _ => _ end) => destruct x
      end ].

Lemma ds_update_project_status (project_id : option Z) (status : Status) :
  preserves db_step (update_project_status project_id status).
Proof. unfold update_project_status, CURRENT_TIMESTAMP. ds_go. Qed.

Lemma ds_update_index_status (project_id : option Z) (is_indexed : bool) :
  preserves db_step (update_index_status project_id is_indexed).
Proof. unfold update_index_status, CURRENT_TIMESTAMP. ds_go. Qed.

Lemma ds_get_project (project_id : option Z) (contract_address : option string) :
  preserves db_step (get_project project_id contract_address).
Proof. unfold get_project. ds_go. Qed.

Lemma ds_get_uncontacted_projects (limit : Z) (only_unindexed : bool) :
  preserves db_step (get_uncontacted_projects limit only_unindexed).
Proof. unfold get_uncontacted_projects. ds_go. Qed.

Lemma ds_get_uncontacted_admins (project_id : option Z) :
  preserves db_step (get_uncontacted_admins project_id).
Proof. unfold get_uncontacted_admins. ds_go. Qed.

#[local] Hint Resolve ds_update_project_status ds_update_index_status ds_get_project
  ds_get_uncontacted_projects ds_get_uncontacted_admins : dbstep.

Lemma ds_add_project (token : Token) : preserves db_step (add_project token).
Proof. unfold add_project, insert_into_projects, CURRENT_TIMESTAMP. ds_go. Qed.

Lemma ds_add_telegram_group (project_id : option Z) (telegram_url : string)
    (joined' : bool) (error : option string) :
  preserves db_step (add_telegram_group project_id telegram_url joined' error).
Proof.
  unfold add_telegram_group, insert_into_telegram_groups, CURRENT_TIMESTAMP. ds_go.
Qed.

Lemma ds_add_admin (project_id group_id : option Z) (username' : string)
    (user_id' first_name' : option string) (is_owner' : bool) :
  preserves db_step (add_admin project_id group_id username' user_id' first_name' is_owner').
Proof. unfold add_admin, insert_into_admins, CURRENT_TIMESTAMP. ds_go. Qed.

Lemma ds_add_message (project_id admin_id : option Z) (text : string)
    (template_used : option string) (success : bool) (error : option string) :
  preserves db_step (add_message project_id admin_id text template_used success error).
Proof. unfold add_message, CURRENT_TIMESTAMP. ds_go. Qed.

Lemma ds_log_error (error_type error_message : string) (context : option string) :
  preserves db_step (log_error error_type error_message context).
Proof. unfold log_error, CURRENT_TIMESTAMP. ds_go. Qed.

#[local] Hint Resolve ds_add_project ds_add_telegram_group ds_add_admin ds_add_message
  ds_log_error : dbstep.

Lemma ds_record_admins (project_id group_id : option Z) (found : list AdminInfo) :
  preserves db_step (record_admins project_id group_id found).
Proof. unfold record_admins. ds_go. Qed.

Lemma ds_scrape_chains (chains : list string) (skip_addresses : list (option string))
    (new_tokens : list Token) :
  preserves db_step (scrape_chains chains skip_addresses new_tokens).
Proof.
  revert skip_addresses new_tokens.
  induction chains as [|c chains IH]; intros skip_addresses new_tokens;
    cbn [scrape_chains]; [apply ds_ret|].
  apply ds_bind; [apply ds_next|]. intros tokens.
  destruct (keep_new tokens skip_addresses new_tokens). apply IH.
Qed.

#[local] Hint Resolve ds_record_admins ds_scrape_chains : dbstep.

Lemma ds_scrape_new_tokens (config : Config) :
  preserves db_step (scrape_new_tokens config).
Proof. unfold scrape_new_tokens, addresses_to_skip. ds_go. Qed.

Lemma ds_check_indexes (tokens : list Token) : preserves db_step (_check_indexes tokens).
Proof. unfold _check_indexes. ds_go. Qed.

Lemma ds_add_projects (tokens : list Token) :
  preserves db_step (for_each tokens (fun token => add_project token ;; ret tt)).
Proof. ds_go. Qed.

(** *** The automator methods *)

Lemma budget_kept_stats (a : TelegramAutomator) (st : Stats) :
  budget_kept a (with_stats a st).
Proof. split; [now repeat split|]. intros []; auto. Qed.

Lemma budget_kept_pruned (c : ActionClass) (a a' : TelegramAutomator) (h : datetime) :
  same_limits a a' ->
  window c a' = prune h (window c a) ->
  (forall c', c' <> c -> window c' a' = window c' a) ->
  budget_kept a a'.
Proof.
  intros Hl Hw Ho. split; [exact Hl|].
  destruct Hl as (J & D & _ & _).
  intros c'. unfold within_ceiling.
  assert (Hc : ceiling c' a' = ceiling c' a) by (destruct c'; assumption).
  rewrite Hc.
  assert (Hcc : c' = c \/ c' <> c) by (destruct c, c'; (now left) || (right; congruence)).
  destruct Hcc as [->|Hne].
  - rewrite Hw. apply prune_within.
  - now rewrite (Ho c' Hne).
Qed.

Lemma budget_kept_appended (c : ActionClass) (a a' : TelegramAutomator) (h t : datetime) :
  same_limits a a' ->
  window c a' = (prune h (window c a) ++ [t])%list ->
  Z.leb (ceiling c a) (Z.of_nat (List.length (prune h (window c a)))) = false ->
  (forall c', c' <> c -> window c' a' = window c' a) ->
  budget_kept a a'.
Proof.
  intros Hl Hw Hroom Ho. split; [exact Hl|].
  destruct Hl as (J & D & _ & _).
  intros c'. unfold within_ceiling.
  assert (Hc : ceiling c' a' = ceiling c' a) by (destruct c'; assumption).
  rewrite Hc.
  assert (Hcc : c' = c \/ c' <> c) by (destruct c, c'; (now left) || (right; congruence)).
  destruct Hcc as [->|Hne].
  - rewrite Hw. intros _. now apply append_within.
  - now rewrite (Ho c' Hne).
Qed.

Lemma other_class_join (a a' : TelegramAutomator) :
  dm_times a' = dm_times a ->
  forall c', c' <> JoinClass -> window c' a' = window c' a.
Proof. intros H [] Hne; [congruence | exact H]. Qed.

Lemma other_class_dm (a a' : TelegramAutomator) :
  join_times a' = join_times a ->
  forall c', c' <> MessageClass -> window c' a' = window c' a.
Proof. intros H [] Hne; [exact H | congruence]. Qed.

Lemma tg_join_group (telegram_url : string) : preserves tg_step (join_group telegram_url).
Proof.
  intros w. unfold tg_step.
  join_group_branches w telegram_url;
    cbn [fst snd db send_calls automator];
    (split; [reflexivity|]); (split; [reflexivity|]);
    try match goal with H : prune _ _ = _ |- _ => rewrite <- H end;
    try apply budget_kept_refl;
    try (eapply (budget_kept_pruned JoinClass);
         [ now repeat split | reflexivity | now apply other_class_join ]).
  all: eapply (budget_kept_appended JoinClass);
    [ now repeat split | reflexivity | exact Hfull | now apply other_class_join ].
Qed.

Lemma tg_get_group_admins (telegram_url : string) :
  preserves tg_step (get_group_admins telegram_url).
Proof.
  intros w. unfold tg_step.
  destruct (_extract_username (Some telegram_url)) as [u|] eqn:Hu.
  - rewrite (get_group_admins_run w telegram_url u Hu). cbv zeta.
    destruct (get_entity_at _ _) as [ent|e]; [destruct (is_group ent)|];
      cbn [fst snd db send_calls automator];
      (split; [reflexivity|]); (split; [reflexivity|]);
      first [apply budget_kept_refl | apply budget_kept_stats].
  - unfold get_group_admins. rewrite Hu.
    split; [reflexivity|]. split; [reflexivity|]. apply budget_kept_refl.
Qed.

Lemma tg_sleep (seconds : Z) : preserves tg_step (asyncio_sleep seconds).
Proof. intros w. split; [|split]; try reflexivity. apply budget_kept_refl. Qed.

(** [send_dm] on its own: at most one call of the client, and none when
    it raises. *)
Lemma send_dm_step (w : World) (username' message : string)
    (project_name token_symbol : option string) :
  let r := send_dm username' message project_name token_symbol w in
  db (snd r) = db w
  /\ budget_kept (automator w) (automator (snd r))
  /\ (send_calls (snd r) = send_calls w
      \/ exists call x, send_calls (snd r) = call :: send_calls w /\ fst r = Ok x).
Proof.
  cbv zeta.
  send_dm_branches w;
    cbn [fst snd db send_calls automator];
    (split; [reflexivity|]);
    try match goal with H : prune _ _ = _ |- _ => rewrite <- H end;
    (split;
     [ first [ apply budget_kept_refl
             | eapply (budget_kept_pruned MessageClass);
               [ now repeat split | reflexivity | now apply other_class_dm ]
             | eapply (budget_kept_appended MessageClass);
               [ now repeat split | reflexivity | exact Hfull | now apply other_class_dm ] ]
     | first [ left; reflexivity | right; eexists; eexists; split; reflexivity ] ]).
Qed.

Lemma add_message_rows (project_id admin_id : option Z) (text : string)
    (template_used : option string) (success : bool) (error : option string) (w : World) :
  List.length (messages (db (snd (add_message project_id admin_id text template_used
                                               success error w))))
  = S (List.length (messages (db w))).
Proof.
  rewrite add_message_run. cbv zeta. destruct success; cbn [snd db].
  - rewrite (proj2 (proj2 (tables_update_projects _ _ _))).
    rewrite (proj2 (proj2 (tables_incremented _ _ _ _))).
    cbn [messages with_messages]. rewrite length_app. cbn [List.length]. lia.
  - rewrite (proj2 (proj2 (tables_incremented _ _ _ _))).
    cbn [messages with_messages]. rewrite length_app. cbn [List.length]. lia.
Qed.

(** Step 3 of [process_project]: the message, then its row. *)
Lemma sound_send_and_record {A : Type} (username' message : string)
    (project_name token_symbol : option string) (project_id : option Z)
    (pick : list AdminRow -> option Z) (template_used : option string)
    (finish : bool -> option string -> A) :
  preserves sound_step
    (dm <- send_dm username' message project_name token_symbol ;;
     let (sent, dm_error) := dm : bool * option string in
     uncontacted_admins <- get_uncontacted_admins project_id ;;
     add_message project_id (pick uncontacted_admins) message template_used
                 sent dm_error ;;
     ret (finish sent dm_error)).
Proof.
  intros w. unfold bind at 1.
  pose proof (send_dm_step w username' message project_name token_symbol) as Hs.
  cbv zeta in Hs.
  destruct (send_dm username' message project_name token_symbol w) as [[[sent err]|e] w1].
  - cbn [fst snd] in Hs. destruct Hs as (Hd & Hb & Hc).
    unfold bind at 1. unfold get_uncontacted_admins at 1. unfold bind at 1, get_db, ret at 1.
    unfold bind at 1.
    pose proof (ds_add_message project_id
                  (pick (order_by_username
                           (filter (fun a => sql_eq (a_project_id a) project_id
                                             && negb (existsb (sent_to a) (messages (db w1))))
                                   (admins (db w1)))))
                  message template_used sent err w1) as Hm.
    pose proof (add_message_rows project_id
                  (pick (order_by_username
                           (filter (fun a => sql_eq (a_project_id a) project_id
                                             && negb (existsb (sent_to a) (messages (db w1))))
                                   (admins (db w1)))))
                  message template_used sent err w1) as Hrows.
    destruct (add_message _ _ _ _ _ _ w1) as [[rowid|e] w2]; cbn [fst snd ret] in *.
    + destruct Hm as (Ha & _ & Hcalls & Hg).
      split; [rewrite <- Hd; exact Hg|]. split; [rewrite Ha; exact Hb|].
      unfold unsent_rows. rewrite Hrows, Hcalls, Hd.
      destruct Hc as [-> | (call & x & -> & _)]; cbn [List.length]; lia.
    + destruct Hm as (Ha & _ & Hcalls & Hg).
      split; [rewrite <- Hd; exact Hg|]. split; [rewrite Ha; exact Hb|].
      unfold unsent_rows. rewrite Hrows, Hcalls, Hd.
      destruct Hc as [-> | (call & x & -> & _)]; cbn [List.length]; lia.
  - cbn [fst snd] in *. destruct Hs as (Hd & Hb & Hc).
    split; [rewrite Hd; apply store_grows_refl|]. split; [exact Hb|].
    unfold unsent_rows. rewrite Hd.
    destruct Hc as [-> | (call & x & _ & Hx)]; [lia | discriminate].
Qed.

Lemma sound_bind {A B : Type} (c : M A) (k : A -> M B) :
  preserves sound_step c -> (forall a, preserves sound_step (k a)) ->
  preserves sound_step (bind c k).
Proof. apply preserves_bind, sound_step_trans. Qed.

Lemma sound_db {A : Type} (c : M A) : preserves db_step c -> preserves sound_step c.
Proof. apply preserves_weaken, db_step_sound. Qed.

Lemma sound_tg {A : Type} (c : M A) : preserves tg_step c -> preserves sound_step c.
Proof. apply preserves_weaken, tg_step_sound. Qed.

Lemma sound_process_project (project : ProjectRow) (template : string) :
  preserves sound_step (process_project project template).
Proof.
  unfold process_project.
  destruct (p_telegram_url project) as [telegram_url|]; [|apply sound_db, ds_ret].
  destruct (negb (truthy (Some telegram_url))); [apply sound_db, ds_ret|].
  apply sound_bind; [apply sound_tg, tg_join_group|]. intros [joined' join_error].
  destruct (negb joined').
  - apply sound_bind; [apply sound_db, ds_add_telegram_group|]. intros _.
    apply sound_db, ds_ret.
  - apply sound_bind; [apply sound_db, ds_add_telegram_group|]. intros group_id.
    apply sound_bind; [apply sound_tg, tg_get_group_admins|]. intros [|first rest].
    + apply sound_db, ds_ret.
    + apply sound_bind; [apply sound_db, ds_record_admins|]. intros _.
      exact (sound_send_and_record
               (username (target_of first rest)) template (p_name project) (p_symbol project)
               (Some (p_id project))
               (fun uncontacted_admins =>
                  option_map a_id
                    (find (fun ua => String.eqb (a_username ua)
                                       (username (target_of first rest)))
                          uncontacted_admins))
               (Some "default")
               (fun sent dm_error =>
                  mkResult (p_id project) (p_name project) (p_symbol project) true
                           (Z.of_nat (List.length (first :: rest))) sent
                           (if sent then None else Some ("DM failed: " ++ fmt dm_error)))).
Qed.

Lemma sound_process_all (config : Config) (to_process : list ProjectRow) :
  preserves sound_step (process_all config to_process).
Proof.
  unfold process_all.
  apply preserves_for_each; [apply sound_step_refl | apply sound_step_trans|].
  intros project. apply sound_bind; [apply sound_process_project|]. intros result.
  destruct (r_dm_sent result); [apply sound_tg, tg_sleep|].
  destruct (r_joined result); [apply sound_tg, tg_sleep | apply sound_db, ds_ret].
Qed.

Lemma sound_scrape_cycle (config : Config) : preserves sound_step (_scrape_cycle config).
Proof.
  unfold _scrape_cycle.
  destruct (urls_to_monitor config); [apply sound_db, ds_ret|].
  apply sound_bind; [apply sound_db, ds_scrape_new_tokens|]. intros [|token tokens].
  - apply sound_db, ds_ret.
  - apply sound_bind; [apply sound_db, ds_add_projects|]. intros _.
    apply sound_bind.
    + destruct (google_index_enabled config);
        [apply sound_db, ds_check_indexes | apply sound_db, ds_ret].
    + intros _. apply sound_bind; [apply sound_db, ds_get_uncontacted_projects|].
      intros to_process. apply sound_process_all.
Qed.

Lemma pipeline_step_sound (w w' : World) : pipeline_step w w' -> sound_step w w'.
Proof.
  intros [config v | error_type error_message context v].
  - apply sound_scrape_cycle.
  - apply db_step_sound, ds_log_error.
Qed.

(** X15.  Along any run of the pipeline the store only grows: the rows of
    [telegram_groups], [admins], [messages] and [error_log] present at the
    start are all still there, unchanged and in place, with the new rows
    after them, and no counter of [daily_metrics] is lower than it was, on
    any date. *)
Theorem store_only_grows (w w' : World) :
  runs w w' ->
  extends (telegram_groups (db w)) (telegram_groups (db w'))
  /\ extends (admins (db w)) (admins (db w'))
  /\ extends (messages (db w)) (messages (db w'))
  /\ extends (error_log (db w)) (error_log (db w'))
  /\ forall m dt, metric_on m dt (db w) <= metric_on m dt (db w').
Proof.
  induction 1 as [w|w w1 w2 Hstep _ IH].
  - apply store_grows_refl.
  - apply (store_grows_trans _ (db w1)); [|exact IH].
    exact (proj1 (pipeline_step_sound w w1 Hstep)).
Qed.

Lemma store_only_grows_witness :
  extends (telegram_groups (db dm_busy_world))
          (telegram_groups (db (snd (_scrape_cycle sample_config dm_busy_world))))
  /\ extends (messages (db dm_busy_world))
             (messages (db (snd (_scrape_cycle sample_config dm_busy_world)))).
Proof.
  destruct (store_only_grows dm_busy_world (snd (_scrape_cycle sample_config dm_busy_world)))
    as (G & _ & Ms & _).
  - eapply runs_on; [apply cycle_step | apply runs_here].
  - split; assumption.
Defined.

(** X16.  Along any run of the pipeline the settings of the automator
    (both ceilings, both delays) stay as they are, and a window that holds
    no more actions than its ceiling at the start holds no more than its
    ceiling at the end: the joins and messages recorded within the last
    hour never exceed the ceilings. *)
Theorem windows_stay_within_ceilings (w w' : World) :
  runs w w' ->
  same_limits (automator w) (automator w')
  /\ forall c, within_ceiling c (automator w) -> within_ceiling c (automator w').
Proof.
  induction 1 as [w|w w1 w2 Hstep _ IH].
  - apply budget_kept_refl.
  - apply (budget_kept_trans _ (automator w1)); [|exact IH].
    exact (proj1 (proj2 (pipeline_step_sound w w1 Hstep))).
Qed.

Lemma windows_stay_within_ceilings_witness :
  same_limits (automator busy_world)
              (automator (snd (_scrape_cycle sample_config busy_world)))
  /\ within_ceiling JoinClass (automator (snd (_scrape_cycle sample_config busy_world))).
Proof.
  destruct (windows_stay_within_ceilings busy_world
              (snd (_scrape_cycle sample_config busy_world))) as (L & W).
  - eapply runs_on; [apply cycle_step | apply runs_here].
  - split; [exact L|]. apply W. vm_compute. discriminate.
Defined.

(** X17.  Along any run of the pipeline every message handed to the
    client is followed by a row of [messages]: the number of calls of
    [client.send_message] made during the run is at most the number of
    rows the run added to [messages]. *)
Theorem every_send_is_recorded (w w' : World) :
  runs w w' ->
  extends (messages (db w)) (messages (db w'))
  /\ Z.of_nat (List.length (send_calls w')) - Z.of_nat (List.length (send_calls w))
     <= Z.of_nat (List.length (messages (db w')))
        - Z.of_nat (List.length (messages (db w))).
Proof.
  induction 1 as [w|w w1 w2 Hstep _ IH].
  - split; [apply extends_refl | lia].
  - destruct (pipeline_step_sound w w1 Hstep) as ((_ & _ & Ms & _) & _ & U).
    destruct IH as (Ms' & U'). split; [exact (extends_trans _ _ _ Ms Ms')|].
    unfold unsent_rows in U. lia.
Qed.

Lemma every_send_is_recorded_witness :
  extends (messages (db sample_world))
          (messages (db (snd (_scrape_cycle sample_config sample_world))))
  /\ Z.of_nat (List.length (send_calls (snd (_scrape_cycle sample_config sample_world))))
     - Z.of_nat (List.length (send_calls sample_world))
     <= Z.of_nat (List.length (messages (db (snd (_scrape_cycle sample_config sample_world)))))
        - Z.of_nat (List.length (messages (db sample_world))).
Proof.
  apply (every_send_is_recorded sample_world).
  eapply runs_on; [apply cycle_step | apply runs_here].
Defined.

(** ** Which discovered tokens count as new *)

Lemma address_eqb_eq (a b : option string) : address_eqb a b = true <-> a = b.
Proof.
  destruct a as [x|], b as [y|]; cbn [address_eqb]; split; try discriminate;
    try reflexivity.
  - intros H. apply String.eqb_eq in H. now subst.
  - intros H. injection H as ->. apply String.eqb_refl.
Qed.

Lemma skipped_In (a : option string) (l : list (option string)) :
  existsb (address_eqb a) l = true <-> In a l.
Proof.
  rewrite existsb_exists. split.
  - intros (x & Hx & He). apply address_eqb_eq in He. now subst.
  - intros H. exists a. split; [exact H | now apply address_eqb_eq].
Qed.

Lemma keep_new_invariant (known : list (option string)) (tokens : list Token) :
  forall skip new_tokens,
    skip_invariant known skip new_tokens ->
    skip_invariant known (fst (keep_new tokens skip new_tokens))
                         (snd (keep_new tokens skip new_tokens))
    /\ (forall t, In t new_tokens -> In t (snd (keep_new tokens skip new_tokens)))
    /\ (forall t, In t (snd (keep_new tokens skip new_tokens)) ->
                  In t new_tokens \/ In t tokens)
    /\ (forall t, In t tokens -> In (address t) (fst (keep_new tokens skip new_tokens))).
Proof.
  induction tokens as [|token rest IH]; intros skip new_tokens Hinv; cbn [keep_new].
  - cbn [fst snd]. split; [exact Hinv|]. split; [auto|]. split; [auto | intros t []].
  - destruct (existsb (address_eqb (address token)) skip) eqn:Hex.
    + destruct (IH skip new_tokens Hinv) as (I & Hold & Hfrom & Hall).
      split; [exact I|]. split; [exact Hold|]. split.
      * intros t Ht. destruct (Hfrom t Ht); [now left | right; now right].
      * intros t [<- | Ht]; [|now apply Hall].
        apply skipped_In in Hex.
        destruct I as (Iskip & _ & _). destruct Hinv as (Hskip & _ & _).
        apply Iskip. apply Hskip in Hex. destruct Hex as [Hk | Hn]; [now left|].
        right. apply in_map_iff in Hn. destruct Hn as (t' & He & Ht').
        apply in_map_iff. exists t'. split; [exact He | now apply Hold].
    + assert (Hnot : ~ In (address token) skip).
      { intros Hin. apply skipped_In in Hin. congruence. }
      assert (Hinv' : skip_invariant known (address token :: skip)
                                     (new_tokens ++ [token])%list).
      { destruct Hinv as (Hskip & Hnd & Hk). split; [|split].
        - intros a. rewrite map_app, in_app_iff. cbn [In map]. rewrite Hskip. tauto.
        - rewrite map_app. cbn [map].
          apply NoDup_app; [exact Hnd | repeat constructor; intros [] |].
          intros a Ha [<- | []]. apply Hnot, Hskip. now right.
        - intros t Ht. apply in_app_iff in Ht. destruct Ht as [Ht | [<- | []]].
          + now apply Hk.
          + intros Hin. apply Hnot, Hskip. now left. }
      destruct (IH _ _ Hinv') as (I & Hold & Hfrom & Hall).
      split; [exact I|]. split; [|split].
      * intros t Ht. apply Hold, in_app_iff. now left.
      * intros t Ht. destruct (Hfrom t Ht) as [Hin | Hin]; [|right; now right].
        apply in_app_iff in Hin. destruct Hin as [Hin | [<- | []]];
          [now left | right; now left].
      * intros t [<- | Ht]; [|now apply Hall].
        destruct I as (Iskip & _ & _). apply Iskip. right.
        apply in_map_iff. exists token. split; [reflexivity|].
        apply Hold, in_app_iff. right. now left.
Qed.

Lemma scrape_chains_invariant (known : list (option string)) (chains : list string) :
  forall skip new_tokens w,
    skip_invariant known skip new_tokens ->
    exists skip' new' w',
      scrape_chains chains skip new_tokens w = (Ok new', w')
      /\ script w' = script w /\ tick w' = (tick w + List.length chains)%nat
      /\ db w' = db w /\ automator w' = automator w
      /\ skip_invariant known skip' new'
      /\ (forall t, In t new_tokens -> In t new')
      /\ (forall t, In t new' ->
            In t new_tokens
            \/ exists n, (tick w <= n < tick w')%nat
                         /\ In t (scrape_with_filters_at (script w) n))
      /\ (forall n t, (tick w <= n < tick w')%nat ->
            In t (scrape_with_filters_at (script w) n) -> In (address t) skip').
Proof.
  induction chains as [|c chains IH]; intros skip new_tokens w Hinv; cbn [scrape_chains].
  - exists skip, new_tokens, w. cbn [List.length]. rewrite Nat.add_0_r.
    repeat split; auto; try apply Hinv; try (intros; lia).
  - unfold bind, next.
    set (tokens := scrape_with_filters_at (script w) (tick w)).
    set (w1 := mkWorld (script w) (S (tick w)) (db w) (automator w) (slept w) (send_calls w)).
    destruct (keep_new_invariant known tokens skip new_tokens Hinv)
      as (I & Hold & Hfrom & Hall).
    destruct (keep_new tokens skip new_tokens) as [skip1 new1]. cbn [fst snd] in *.
    destruct (IH skip1 new1 w1 I)
      as (skip' & new' & w' & Hrun & Hs & Ht & Hd & Ha & I' & Hold' & Hfrom' & Hall').
    subst w1. cbn [script tick db automator] in *.
    exists skip', new', w'. split; [exact Hrun|]. split; [exact Hs|].
    split; [rewrite Ht; cbn [List.length]; lia|]. split; [exact Hd|]. split; [exact Ha|].
    split; [exact I'|]. split; [auto|]. split.
    + intros t Hin. destruct (Hfrom' t Hin) as [Hin1 | (n & Hn & Hin1)].
      * destruct (Hfrom t Hin1) as [Hin0 | Hin0]; [now left|].
        right. exists (tick w). split; [lia | exact Hin0].
      * right. exists n. split; [lia | exact Hin1].
    + intros n t Hn Hin.
      destruct (Nat.eq_dec n (tick w)) as [-> | Hne].
      * destruct I' as (Iskip' & _ & _). destruct I as (Iskip & _ & _).
        apply Iskip'. specialize (Hall t Hin). apply Iskip in Hall.
        destruct Hall as [Hk | Hn1]; [now left|].
        right. apply in_map_iff in Hn1. destruct Hn1 as (t' & He & Ht').
        apply in_map_iff. exists t'. split; [exact He | now apply Hold'].
      * apply (Hall' n t); [lia | exact Hin].
Qed.

(** X18.  [scrape_new_tokens] (the first half of a cycle) reads the store
    and the discovery client and writes nothing; it asks the client at
    least once.  The tokens it keeps have pairwise distinct addresses, each
    was returned by the client during the call, and none has an address in
    the skip set collected before discovery.  Conversely every token the
    client returned during the call either has an address in the skip set
    or shares its address with a kept token: of several discovered tokens
    with one address, one is kept. *)
Theorem new_tokens_are_new (config : Config) (w : World) :
  exists skip new_tokens w',
    addresses_to_skip w = (Ok skip, w)
    /\ scrape_new_tokens config w = (Ok new_tokens, w')
    /\ db w' = db w /\ automator w' = automator w
    /\ (tick w < tick w')%nat
    /\ NoDup (map address new_tokens)
    /\ (forall t, In t new_tokens ->
          ~ In (address t) skip
          /\ exists n, (tick w <= n < tick w')%nat
                       /\ In t (scrape_with_filters_at (script w) n))
    /\ (forall n t, (tick w <= n < tick w')%nat ->
          In t (scrape_with_filters_at (script w) n) ->
          In (address t) skip
          \/ exists t', In t' new_tokens /\ address t' = address t).
Proof.
  unfold scrape_new_tokens. unfold bind at 1.
  assert (Hskip : exists skip, addresses_to_skip w = (Ok skip, w))
    by (eexists; reflexivity).
  destruct Hskip as (skip & Hskip). rewrite Hskip.
  set (chains := match chains_of (urls_to_monitor config) [] with
                 | [] => ["solana"]
                 | _ :: _ => chains_of (urls_to_monitor config) []
                 end).
  assert (Hchains : (0 < List.length chains)%nat).
  { subst chains. destruct (chains_of (urls_to_monitor config) []); cbn [List.length]; lia. }
  assert (Hinv : skip_invariant skip skip []).
  { split; [|split].
    - intros a. cbn [map In]. tauto.
    - constructor.
    - intros t []. }
  destruct (scrape_chains_invariant skip chains skip [] w Hinv)
    as (skip' & new' & w' & Hrun & Hs & Ht & Hd & Ha & (Iskip & Ind & Ik) & _ & Hfrom & Hall).
  exists skip, new', w'. split; [reflexivity|]. split; [exact Hrun|].
  split; [exact Hd|]. split; [exact Ha|]. split; [lia|]. split; [exact Ind|]. split.
  - intros t Hin. split; [now apply Ik|].
    destruct (Hfrom t Hin) as [[] | H]. exact H.
  - intros n t Hn Hin. specialize (Hall n t Hn Hin). apply Iskip in Hall.
    destruct Hall as [Hk | Hn1]; [now left|].
    right. apply in_map_iff in Hn1. destruct Hn1 as (t' & He & Ht').
    now exists t'.
Qed.

(** X19.  A cycle that discovers nothing new contacts nobody: when every
    token the discovery client returns has an address in the skip set
    collected at the start of the cycle, [_scrape_cycle] returns with the
    database, the automator, the sleeps and the sent messages as they
    were.  So does a cycle with no URL to monitor, which does not even ask
    the discovery client. *)
Theorem idle_cycle_contacts_nobody (config : Config) (w : World)
    (skip : list (option string)) :
  fst (addresses_to_skip w) = Ok skip ->
  (forall n t, (tick w <= n)%nat ->
     In t (scrape_with_filters_at (script w) n) -> In (address t) skip) ->
  (exists w',
     _scrape_cycle config w = (Ok tt, w')
     /\ db w' = db w /\ automator w' = automator w
     /\ slept w' = slept w /\ send_calls w' = send_calls w)
  /\ (urls_to_monitor config = [] -> _scrape_cycle config w = (Ok tt, w)).
Proof.
  intros Hskip Hknown. split.
  - unfold _scrape_cycle.
    destruct (urls_to_monitor config) as [|url urls];
      [exists w; repeat split; reflexivity|].
    unfold bind at 1. unfold scrape_new_tokens. unfold bind at 1.
    assert (Hrun : addresses_to_skip w = (Ok skip, w)).
    { rewrite <- Hskip. reflexivity. }
    rewrite Hrun. cbv beta iota zeta.
    assert (Hinv : skip_invariant skip skip []).
    { split; [|split].
      - intros a. cbn [map In]. tauto.
      - constructor.
      - intros t []. }
    destruct (scrape_chains_invariant skip
                match chains_of (urls_to_monitor config) [] with
                | [] => ["solana"]
                | _ :: _ => chains_of (urls_to_monitor config) []
                end skip [] w Hinv)
      as (skip' & new' & w' & Hrun' & Hs & Ht & Hd & Ha & (_ & _ & Ik) & _ & Hfrom & _).
    pose proof (ds_scrape_chains
                  match chains_of (urls_to_monitor config) [] with
                  | [] => ["solana"]
                  | _ :: _ => chains_of (urls_to_monitor config) []
                  end skip [] w) as (_ & Hsl & Hsc & _).
    rewrite Hrun' in Hsl, Hsc |- *. cbn [snd] in Hsl, Hsc.
    destruct new' as [|t new'].
    + exists w'. repeat split; assumption.
    + exfalso. apply (Ik t); [now left|].
      destruct (Hfrom t (or_introl eq_refl)) as [[] | (n & Hn & Hin)].
      apply (Hknown n t); [lia | exact Hin].
  - intros Hnone. unfold _scrape_cycle. now rewrite Hnone.
Qed.

Lemma idle_cycle_contacts_nobody_witness :
  exists w',
    _scrape_cycle sample_config join_busy_world = (Ok tt, w')
    /\ db w' = db join_busy_world /\ automator w' = automator join_busy_world
    /\ slept w' = slept join_busy_world /\ send_calls w' = send_calls join_busy_world.
Proof.
  refine (proj1 (idle_cycle_contacts_nobody sample_config join_busy_world [Some "ADDR1"]
                   eq_refl _)).
  intros n t _ [<- | []]. left. reflexivity.
Defined.

(** ** The remaining budget reported by [get_stats] *)

(** X20.  [get_stats] reads the automator without changing anything and
    reports the session counters as they are; the remaining joins and
    messages it reports are never negative.  The report is safe: when it
    shows a join (a message) as remaining, the next rate check of that
    class allows the action.  It can understate the budget, since it counts
    the window without pruning it; right after a rate check it is exact:
    the check allowed the action exactly when the report then shows one
    remaining. *)
Theorem remaining_budget_is_safe (w : World) :
  exists s,
    get_stats w = (Ok s, w)
    /\ gs_stats s = stats (automator w)
    /\ 0 <= gs_joins_remaining_this_hour s
    /\ 0 <= gs_dms_remaining_this_hour s
    /\ (0 < gs_joins_remaining_this_hour s -> fst (_can_join w) = Ok (true, 0))
    /\ (0 < gs_dms_remaining_this_hour s -> fst (_can_dm w) = Ok (true, 0))
    /\ (forall s1, fst (get_stats (snd (_can_join w))) = Ok s1 ->
          (fst (_can_join w) = Ok (true, 0) <-> 0 < gs_joins_remaining_this_hour s1))
    /\ (forall s1, fst (get_stats (snd (_can_dm w))) = Ok s1 ->
          (fst (_can_dm w) = Ok (true, 0) <-> 0 < gs_dms_remaining_this_hour s1)).
Proof.
  eexists. split; [reflexivity|]. cbn [gs_stats gs_joins_remaining_this_hour
                                       gs_dms_remaining_this_hour].
  split; [reflexivity|]. split; [lia|]. split; [lia|].
  rewrite can_join_run, can_dm_run. cbv zeta. cbn [fst snd].
  pose proof (prune_length (now_at (script w) (tick w) - hour) (join_times (automator w)))
    as Hj.
  pose proof (prune_length (now_at (script w) (tick w) - hour) (dm_times (automator w)))
    as Hd.
  split; [|split; [|split]].
  - intros Hpos. destruct (Z.leb_spec (max_joins_per_hour (automator w))
                             (Z.of_nat (List.length
                                (prune (now_at (script w) (tick w) - hour)
                                       (join_times (automator w))))));
      [lia | reflexivity].
  - intros Hpos. destruct (Z.leb_spec (max_dms_per_hour (automator w))
                             (Z.of_nat (List.length
                                (prune (now_at (script w) (tick w) - hour)
                                       (dm_times (automator w))))));
      [lia | reflexivity].
  - intros s1 Hs1. unfold get_stats, bind, get_telegram, ret in Hs1.
    cbn [fst automator with_join_times max_joins_per_hour join_times] in Hs1.
    injection Hs1 as <-. cbn [gs_joins_remaining_this_hour].
    destruct (Z.leb_spec (max_joins_per_hour (automator w))
                (Z.of_nat (List.length
                   (prune (now_at (script w) (tick w) - hour)
                          (join_times (automator w)))))).
    + split; [|lia]. destruct (prune _ (join_times (automator w))); discriminate.
    + split; [lia | reflexivity].
  - intros s1 Hs1. unfold get_stats, bind, get_telegram, ret in Hs1.
    cbn [fst automator with_dm_times max_dms_per_hour dm_times] in Hs1.
    injection Hs1 as <-. cbn [gs_dms_remaining_this_hour].
    destruct (Z.leb_spec (max_dms_per_hour (automator w))
                (Z.of_nat (List.length
                   (prune (now_at (script w) (tick w) - hour)
                          (dm_times (automator w)))))).
    + split; [|lia]. destruct (prune _ (dm_times (automator w))); discriminate.
    + split; [lia | reflexivity].
Qed.

(** ** What the result of [process_project] tells *)

Lemma quiet_step_refl (w : World) : quiet_step w w.
Proof. now split. Qed.

Lemma quiet_step_trans (a b c : World) : quiet_step a b -> quiet_step b c -> quiet_step a c.
Proof. intros [M1 C1] [M2 C2]. split; congruence. Qed.

Lemma qs_ret {A : Type} (a : A) : preserves quiet_step (ret a).
Proof. apply preserves_ret, quiet_step_refl. Qed.

Lemma qs_bind {A B : Type} (c : M A) (k : A -> M B) :
  preserves quiet_step c -> (forall a, preserves quiet_step (k a)) ->
  preserves quiet_step (bind c k).
Proof. apply preserves_bind, quiet_step_trans. Qed.

Lemma qs_for_each {A : Type} (l : list A) (body : A -> M unit) :
  (forall x, preserves quiet_step (body x)) -> preserves quiet_step (for_each l body).
Proof. apply preserves_for_each; [apply quiet_step_refl | apply quiet_step_trans]. Qed.

Lemma qs_tg (w w' : World) : tg_step w w' -> quiet_step w w'.
Proof. intros (D & C & _). split; [now rewrite D | exact C]. Qed.

Lemma qs_add_telegram_group (project_id : option Z) (telegram_url : string)
    (joined' : bool) (error : option string) :
  preserves quiet_step (add_telegram_group project_id telegram_url joined' error).
Proof.
  intros w. rewrite add_telegram_group_run.
  destruct (group_recorded _ _ _); [apply quiet_step_refl|].
  cbv zeta. destruct joined'; split; cbn [snd db send_calls]; try reflexivity.
  - rewrite (proj2 (proj2 (tables_update_projects _ _ _))).
    now rewrite (proj2 (proj2 (tables_incremented _ _ _ _))).
  - now rewrite (proj2 (proj2 (tables_incremented _ _ _ _))).
Qed.

Lemma qs_add_admin (project_id group_id : option Z) (username' : string)
    (user_id' first_name' : option string) (is_owner' : bool) :
  preserves quiet_step (add_admin project_id group_id username' user_id' first_name' is_owner').
Proof.
  intros w. rewrite add_admin_run.
  destruct (admin_recorded _ _ _); [apply quiet_step_refl|].
  cbv zeta. split; cbn [snd db send_calls]; [|reflexivity].
  now rewrite (proj2 (proj2 (tables_incremented _ _ _ _))).
Qed.

Lemma qs_record_admins (project_id group_id : option Z) (found : list AdminInfo) :
  preserves quiet_step (record_admins project_id group_id found).
Proof.
  unfold record_admins. destruct group_id as [g|]; [|apply qs_ret].
  destruct (Z.eqb g 0); [apply qs_ret|].
  apply qs_for_each. intros admin.
  apply qs_bind; [apply qs_add_admin | intros _; apply qs_ret].
Qed.

(** The outcome [send_dm] reports and the call it made. *)
Lemma send_dm_report (w w1 : World) (username' message : string)
    (project_name token_symbol : option string) (sent : bool) (error : option string) :
  send_dm username' message project_name token_symbol w = (Ok (sent, error), w1) ->
  db w1 = db w
  /\ (if sent
      then error = None
           /\ send_calls w1
              = (username', personalize message project_name token_symbol) :: send_calls w
      else exists reason, error = Some reason).
Proof.
  send_dm_branches w; intros Heq; try discriminate; injection Heq as <- <- <-;
    cbn [db send_calls]; split; try reflexivity;
    try (eexists; reflexivity); now split.
Qed.

(** The row [add_message] writes and what comes with it. *)
Lemma add_message_row (project_id admin_id : option Z) (text : string)
    (template_used : option string) (success : bool) (error : option string) (w : World) :
  let w' := snd (add_message project_id admin_id text template_used success error w) in
  (exists rowid, fst (add_message project_id admin_id text template_used success error w)
                 = Ok rowid)
  /\ send_calls w' = send_calls w
  /\ (exists row,
        messages (db w') = (messages (db w) ++ [row])%list
        /\ m_send_success row = success
        /\ m_project_id row = project_id
        /\ m_message_text row = text)
  /\ (success = true ->
      forall r, In r (projects (db w')) ->
                sql_eq (Some (p_id r)) project_id = true -> p_status r = contacted).
Proof.
  cbv zeta. rewrite add_message_run. cbv zeta.
  split; [eexists; reflexivity|].
  destruct success; cbn [fst snd db send_calls]; (split; [reflexivity|]); split.
  - eexists. rewrite (proj2 (proj2 (tables_update_projects _ _ _))).
    rewrite (proj2 (proj2 (tables_incremented _ _ _ _))).
    cbn [messages with_messages]. now repeat split.
  - intros _ r Hin Hid. rewrite projects_update_incremented in Hin.
    apply in_map_iff in Hin. destruct Hin as (r0 & <- & _).
    destruct (sql_eq (Some (p_id r0)) project_id) eqn:He; [reflexivity|].
    congruence.
  - eexists. rewrite (proj2 (proj2 (tables_incremented _ _ _ _))).
    cbn [messages with_messages]. now repeat split.
  - discriminate.
Qed.

(** X21.  What a result returned by [process_project] says is what
    happened.  With [dm_sent] true: the lead was joined, there is no
    error, one message was handed to the client carrying the personalised
    template, one row was added to [messages], marked as sent, and every
    row of the lead is [contacted].  With [dm_sent] false the result
    carries an error and no row marked as sent was added.  With [joined]
    false nothing was sent and the leads, the admins and the messages are
    as they were. *)
Theorem process_result_is_faithful (project : ProjectRow) (template : string)
    (w w' : World) (result : ProcessResult) :
  process_project project template w = (Ok result, w') ->
  r_project_id result = p_id project
  /\ (r_dm_sent result = true ->
      r_joined result = true
      /\ r_error result = None
      /\ (exists recipient,
            send_calls w'
            = (recipient, personalize template (p_name project) (p_symbol project))
              :: send_calls w)
      /\ (exists row,
            messages (db w') = (messages (db w) ++ [row])%list
            /\ m_send_success row = true
            /\ m_project_id row = Some (p_id project)
            /\ m_message_text row = template)
      /\ forall r, In r (projects (db w')) -> p_id r = p_id project ->
                   p_status r = contacted)
  /\ (r_dm_sent result = false ->
      (exists reason, r_error result = Some reason)
      /\ forall row, In row (messages (db w')) ->
                     In row (messages (db w)) \/ m_send_success row = false)
  /\ (r_joined result = false ->
      r_dm_sent result = false
      /\ r_admins_found result = 0
      /\ send_calls w' = send_calls w
      /\ messages (db w') = messages (db w)
      /\ admins (db w') = admins (db w)
      /\ projects (db w') = projects (db w)).
Proof.
  unfold process_project.
  destruct (p_telegram_url project) as [telegram_url|].
  2: { intros H. injection H as <- <-. cbn.
       repeat split; try discriminate; eauto. }
  destruct (negb (truthy (Some telegram_url))).
  { intros H. injection H as <- <-. cbn.
    repeat split; try discriminate; eauto. }
  unfold bind at 1.
  pose proof (qs_tg _ _ (tg_join_group telegram_url w)) as (M1 & C1).
  pose proof (tg_join_group telegram_url w) as (D1 & _ & _).
  destruct (join_group telegram_url w) as [[[joined' join_error]|ex] w1]; [|discriminate].
  cbn [snd] in M1, C1, D1.
  destruct joined'; cbn [negb].
  - unfold bind at 1.
    pose proof (qs_add_telegram_group (Some (p_id project)) telegram_url true None w1)
      as (M2 & C2).
    destruct (add_telegram_group _ _ true None w1) as [[group_id|ex] w2]; [|discriminate].
    cbn [snd] in M2, C2.
    unfold bind at 1.
    pose proof (qs_tg _ _ (tg_get_group_admins telegram_url w2)) as (M3 & C3).
    destruct (get_group_admins telegram_url w2) as [[found|ex] w3]; [|discriminate].
    cbn [snd] in M3, C3.
    destruct found as [|first rest].
    + intros H. injection H as <- <-. cbn [r_project_id r_dm_sent r_joined r_error].
      split; [reflexivity|]. split; [discriminate|]. split; [|discriminate].
      intros _. split; [eexists; reflexivity|].
      intros row Hrow. left. congruence.
    + unfold bind at 1.
      pose proof (qs_record_admins (Some (p_id project)) group_id (first :: rest) w3)
        as (M4 & C4).
      destruct (record_admins _ _ _ w3) as [[[]|ex] w4]; [|discriminate].
      cbn [snd] in M4, C4.
      unfold bind at 1.
      destruct (send_dm _ _ _ _ w4) as [[[sent dm_error]|ex] w5] eqn:Hdm; [|discriminate].
      apply send_dm_report in Hdm. destruct Hdm as (D5 & Hsent).
      unfold bind at 1. unfold get_uncontacted_admins at 1.
      unfold bind at 1, get_db, ret at 1. unfold bind at 1.
      match goal with
      | |- context [add_message ?p ?a ?t ?u ?s ?e w5] =>
          pose proof (add_message_row p a t u s e w5) as Hrow;
          destruct (add_message p a t u s e w5) as [[rowid|ex] w6]
      end; cbv zeta in Hrow; cbn [fst snd] in Hrow;
        destruct Hrow as ((rowid' & Hok) & C6 & (row & M6 & Hs & Hp & Ht) & Hst);
        [|discriminate].
      unfold ret. intros H. injection H as <- <-.
      cbn [r_project_id r_dm_sent r_joined r_error r_admins_found].
      split; [reflexivity|]. split; [|split; [|discriminate]].
      * intros ->. destruct Hsent as (-> & C5).
        split; [reflexivity|]. split; [reflexivity|]. split.
        -- exists (username (target_of first rest)). rewrite C6, C5. f_equal. congruence.
        -- split.
           ++ exists row. rewrite M6, D5. repeat split; try assumption. congruence.
           ++ intros r Hin Hid. apply (Hst eq_refl r Hin).
              cbn [sql_eq]. rewrite Hid. apply Z.eqb_refl.
      * intros ->. split; [eexists; reflexivity|].
        intros row' Hin. rewrite M6 in Hin. apply in_app_iff in Hin.
        destruct Hin as [Hin | [<- | []]]; [left | right; exact Hs].
        rewrite D5 in Hin. congruence.
  - unfold bind at 1. rewrite add_telegram_group_failed.
    destruct (group_recorded _ _ (db w1)).
    + intros H. injection H as <- <-.
      cbn [r_project_id r_dm_sent r_joined r_error r_admins_found].
      split; [reflexivity|]. split; [discriminate|]. split.
      * intros _. split; [eexists; reflexivity|]. intros row Hin. left. congruence.
      * intros _. rewrite D1. now repeat split.
    + cbv zeta. intros H. injection H as <- <-.
      cbn [r_project_id r_dm_sent r_joined r_error r_admins_found db send_calls].
      destruct (tables_incremented join_failures 1
                  (date_of (now_at (script w1) (S (tick w1))))
                  (with_telegram_groups (db w1)
                     (telegram_groups (db w1)
                      ++ [mkGroup (telegram_groups_seq (db w1) + 1) (Some (p_id project))
                            telegram_url None
                            (Some (current_timestamp_at (script w1) (tick w1)))
                            false join_error None])%list
                     (telegram_groups_seq (db w1) + 1))) as (_ & Ha & Hm).
      cbn [admins messages with_telegram_groups] in Ha, Hm.
      split; [reflexivity|]. split; [discriminate|]. split.
      * intros _. split; [eexists; reflexivity|]. intros row Hin. left.
        rewrite Hm in Hin. congruence.
      * intros _. split; [reflexivity|]. split; [reflexivity|]. split; [exact C1|].
        split; [rewrite Hm; congruence|]. split; [rewrite Ha; congruence|].
        rewrite (proj1 (projects_incremented _ _ _ _)). cbn [projects with_telegram_groups].
        congruence.
Qed.

Lemma process_result_is_faithful_witness :
  (exists recipient,
     send_calls (snd (process_project sample_lead "Hi {project_name} ({token_symbol})"
                                      stored_lead_world))
     = (recipient, personalize "Hi {project_name} ({token_symbol})"
                               (p_name sample_lead) (p_symbol sample_lead))
       :: send_calls stored_lead_world)
  /\ forall r,
       In r (projects (db (snd (process_project sample_lead
                                  "Hi {project_name} ({token_symbol})"
                                  stored_lead_world)))) ->
       p_id r = p_id sample_lead -> p_status r = contacted.
Proof.
  destruct (process_result_is_faithful sample_lead "Hi {project_name} ({token_symbol})"
              stored_lead_world
              (snd (process_project sample_lead "Hi {project_name} ({token_symbol})"
                                    stored_lead_world))
              (mkResult 1 (Some "Foo") (Some "FOO") true 2 true None))
    as (_ & Hsent & _).
  - vm_compute. reflexivity.
  - destruct (Hsent eq_refl) as (_ & _ & Hcall & _ & Hstatus).
    split; assumption.
Defined.

(** X22.  Processing one lead leaves the others alone: whatever happens in
    [process_project], also when it raises, the table of leads keeps its
    rows and their ids, and every row whose id is not the id of the
    processed lead keeps its status. *)
Theorem processing_touches_one_lead (project : ProjectRow) (template : string) (w : World) :
  let w' := snd (process_project project template w) in
  map p_id (projects (db w')) = map p_id (projects (db w))
  /\ forall n r r',
       nth_error (projects (db w)) n = Some r ->
       nth_error (projects (db w')) n = Some r' ->
       p_id r' = p_id r
       /\ (p_id r <> p_id project -> p_status r' = p_status r).
Proof.
  cbv zeta.
  destruct (st_process_project project template w) as (_ & g & Hmap & Hid & Hstatus).
  rewrite Hmap. split.
  - rewrite map_map. apply map_ext. exact Hid.
  - intros n r r' Hr Hr'. rewrite nth_error_map, Hr in Hr'. cbn in Hr'.
    injection Hr' as <-. split; [apply Hid|]. intros Hne. now apply Hstatus.
Qed.

(** ** Index checks of a cycle *)

Lemma verdict_kept_refl (b : bool) (w : World) : verdict_kept b w w.
Proof.
  split; [reflexivity|]. exists (fun r => r). split; [now rewrite map_id|].
  intros r. split; [reflexivity | now left].
Qed.

Lemma verdict_kept_trans (b : bool) (u v w : World) :
  verdict_kept b u v -> verdict_kept b v w -> verdict_kept b u w.
Proof.
  intros (S1 & g1 & M1 & H1) (S2 & g2 & M2 & H2).
  split; [congruence|]. exists (fun r => g2 (g1 r)).
  split; [rewrite M2, M1; apply map_map|].
  intros r. destruct (H1 r) as (A1 & I1), (H2 (g1 r)) as (A2 & I2).
  split; [congruence|].
  destruct I2 as [I2 | I2]; [|now right].
  destruct I1 as [I1 | I1]; [left | right]; congruence.
Qed.

Lemma get_project_by_optional_address (addr : option string) (w : World) :
  exists o,
    get_project None addr w = (Ok o, w)
    /\ (forall p, o = Some p ->
          In p (projects (db w)) /\ addr = Some (p_contract_address p))
    /\ (forall a, addr = Some a -> a <> "" -> o = find (has_address a) (projects (db w))).
Proof.
  unfold get_project, bind, get_db, ret, truthy.
  destruct addr as [a|].
  - destruct (String.eqb_spec a "") as [->|Hne]; cbn [negb].
    + eexists. split; [reflexivity|]. split; [discriminate | congruence].
    + eexists. split; [reflexivity|]. split.
      * intros p Hp. apply find_some in Hp. destruct Hp as (Hin & Ha).
        split; [exact Hin|]. apply has_address_eq in Ha. congruence.
      * intros a' Ha' _. injection Ha' as <-. reflexivity.
  - eexists. split; [reflexivity|]. split; discriminate.
Qed.

Lemma update_index_status_script (project_id : option Z) (is_indexed : bool) (w : World) :
  fst (update_index_status project_id is_indexed w) = Ok tt
  /\ script (snd (update_index_status project_id is_indexed w)) = script w.
Proof. rewrite update_index_status_run. cbv zeta. destruct is_indexed; now split. Qed.

Lemma index_check_run (token : Token) (w : World) :
  let w1 := mkWorld (script w) (S (tick w)) (db w) (automator w) (slept w)
                    (send_calls w) in
  exists o,
    index_check token w
    = match o with
      | None => (Ok tt, w)
      | Some p =>
          match check_indexed_at (script w) (tick w) with
          | Some is_indexed => update_index_status (Some (p_id p)) is_indexed w1
          | None => (Ok tt, w1)
          end
      end
    /\ (forall p, o = Some p ->
          In p (projects (db w)) /\ address token = Some (p_contract_address p))
    /\ (forall a, address token = Some a -> a <> "" ->
          o = find (has_address a) (projects (db w))).
Proof.
  cbv zeta.
  destruct (get_project_by_optional_address (address token) w) as (o & Hrun & Hsome & Hfind).
  exists o. split; [|now split].
  unfold index_check, bind. rewrite Hrun.
  destruct o as [p|]; [|reflexivity].
  unfold next. destruct (check_indexed_at (script w) (tick w)); reflexivity.
Qed.

Lemma index_check_verdict (b : bool) (token : Token) (w : World) :
  (forall n, check_indexed_at (script w) n = Some b) ->
  fst (index_check token w) = Ok tt
  /\ verdict_kept b w (snd (index_check token w))
  /\ forall a, address token = Some a -> a <> "" -> stored a (db w) ->
       exists r', In r' (projects (db (snd (index_check token w))))
                  /\ p_contract_address r' = a
                  /\ p_is_indexed r' = Some b.
Proof.
  intros Hb.
  destruct (index_check_run token w) as (o & -> & Hsome & Hfind).
  destruct o as [p|].
  - destruct (Hsome p eq_refl) as (Hin & Haddr). rewrite Hb.
    set (w1 := mkWorld (script w) (S (tick w)) (db w) (automator w) (slept w) (send_calls w)).
    destruct (update_index_status_script (Some (p_id p)) b w1) as (Hok & Hscript).
    pose proof (update_index_status_projects (Some (p_id p)) b w1) as Hrows.
    cbn [db w1] in Hrows.
    split; [exact Hok|]. split.
    + split; [exact Hscript|]. eexists. split; [exact Hrows|].
      intros r. cbv beta. destruct (sql_eq (Some (p_id r)) (Some (p_id p)));
        (split; [reflexivity|]); [now right | now left].
    + intros a Ha Hne _. rewrite Hrows.
      eexists. split; [apply in_map; exact Hin|].
      cbn [sql_eq]. rewrite Z.eqb_refl. cbn [set_is_indexed p_contract_address p_is_indexed].
      split; [congruence | reflexivity].
  - cbn [fst snd]. split; [reflexivity|]. split; [apply verdict_kept_refl|].
    intros a Ha Hne (r & Hin & Hr). exfalso.
    specialize (Hfind a Ha Hne). symmetry in Hfind.
    apply (find_none _ _ Hfind r) in Hin. unfold has_address in Hin.
    rewrite Hr, String.eqb_refl in Hin. discriminate.
Qed.

Lemma stored_kept (b : bool) (a : string) (w w' : World) :
  verdict_kept b w w' -> stored a (db w) -> stored a (db w').
Proof.
  intros (_ & g & Hmap & Hg) (r & Hin & Hr). exists (g r). rewrite Hmap.
  split; [now apply in_map|]. rewrite <- Hr. apply Hg.
Qed.

Lemma index_checks_verdict (b : bool) (l : list Token) :
  forall w,
    (forall n, check_indexed_at (script w) n = Some b) ->
    verdict_kept b w (snd (for_each l index_check w))
    /\ forall t a, In t l -> address t = Some a -> a <> "" -> stored a (db w) ->
         exists r', In r' (projects (db (snd (for_each l index_check w))))
                    /\ p_contract_address r' = a
                    /\ p_is_indexed r' = Some b.
Proof.
  induction l as [|token l IH]; intros w Hb; cbn [for_each].
  - split; [apply verdict_kept_refl | intros t a []].
  - destruct (index_check_verdict b token w Hb) as (Hok & Hkept & Hthis).
    unfold bind. destruct (index_check token w) as [[[]|e] w1]; [|discriminate].
    cbn [fst snd] in *.
    assert (Hb1 : forall n, check_indexed_at (script w1) n = Some b).
    { intros n. rewrite (proj1 Hkept). apply Hb. }
    destruct (IH w1 Hb1) as (Hkept' & Hrest).
    split; [exact (verdict_kept_trans b _ _ _ Hkept Hkept')|].
    intros t a [<- | Hin] Ha Hne Hst.
    + destruct (Hthis a Ha Hne Hst) as (r1 & Hin1 & Ha1 & Hi1).
      destruct Hkept' as (_ & g & Hmap & Hg). exists (g r1). rewrite Hmap.
      split; [now apply in_map|]. destruct (Hg r1) as (Hga & Hgi).
      split; [congruence|]. destruct Hgi; congruence.
    + apply (Hrest t a Hin Ha Hne). exact (stored_kept b a w w1 Hkept Hst).
Qed.

Lemma index_checks_no_verdict (l : list Token) :
  forall w,
    (forall n, check_indexed_at (script w) n = None) ->
    db (snd (for_each l index_check w)) = db w.
Proof.
  induction l as [|token l IH]; intros w Hnone; cbn [for_each]; [reflexivity|].
  unfold bind.
  destruct (index_check_run token w) as (o & -> & _ & _).
  destruct o as [p|].
  - rewrite Hnone.
    exact (IH (mkWorld (script w) (S (tick w)) (db w) (automator w) (slept w)
                       (send_calls w)) Hnone).
  - exact (IH w Hnone).
Qed.

(** X23.  [_check_indexes] probes only tokens that have a website: without
    any, it returns at once and leaves the world as it is.  When the
    checker gives no verdict, the database is left unchanged.  When the
    checker's verdict is [b] throughout, then after the call every token of
    the list with a website and a non-empty address whose lead is stored
    has a lead with that address whose index status is [b].  In no case
    does the call change the status of a lead. *)
Theorem index_verdicts_are_stored (tokens : list Token) (w : World) :
  let w' := snd (_check_indexes tokens w) in
  (filter (fun t => truthy (website t)) tokens = [] ->
   _check_indexes tokens w = (Ok tt, w))
  /\ ((forall n, check_indexed_at (script w) n = None) -> db w' = db w)
  /\ (forall b, (forall n, check_indexed_at (script w) n = Some b) ->
        forall t a,
          In t tokens -> truthy (website t) = true ->
          address t = Some a -> a <> "" -> stored a (db w) ->
          exists r', In r' (projects (db w'))
                     /\ p_contract_address r' = a
                     /\ p_is_indexed r' = Some b)
  /\ map p_status (projects (db w')) = map p_status (projects (db w)).
Proof.
  cbv zeta.
  change (_check_indexes tokens)
    with (for_each (filter (fun t => truthy (website t)) tokens) index_check).
  split; [|split; [|split]].
  - intros ->. reflexivity.
  - apply index_checks_no_verdict.
  - intros b Hb t a Hin Hweb Ha Hne Hst.
    apply (proj2 (index_checks_verdict b _ w Hb) t a); try assumption.
    apply filter_In. now split.
  - change (for_each (filter (fun t => truthy (website t)) tokens) index_check)
      with (_check_indexes tokens).
    destruct (st_check_indexes (fun _ => False) tokens w) as (_ & g & Hmap & _ & Hstatus).
    rewrite Hmap, map_map. apply map_ext. intros r. apply Hstatus. tauto.
Qed.

(* ====================================================================== *)
(** * The statuses between the calls of a run *)
(* ====================================================================== *)

Lemma last_cons {A : Type} (l : list A) : forall x d, last (x :: l) d = last l x.
Proof.
  induction l as [|y l IH]; intros x d; [reflexivity|].
  change (last (x :: y :: l) d) with (last (y :: l) d).
  now rewrite (IH y d), (IH y x).
Qed.

Lemma last_app_end {A : Type} (l1 l2 : list A) :
  forall d, last (l1 ++ l2) d = last l2 (last l1 d).
Proof.
  induction l1 as [|x l1 IH]; intros d; [reflexivity|].
  change ((x :: l1) ++ l2)%list with (x :: (l1 ++ l2))%list.
  now rewrite !last_cons, IH.
Qed.

Lemma linked_weaken (R R' : World -> World -> Prop) (l : list World) :
  (forall u v, R u v -> R' u v) -> forall w, linked R w l -> linked R' w l.
Proof.
  intros H. induction l as [|v l IH]; intros w; cbn [linked]; [auto|].
  intros [Hv Hl]. split; [now apply H | now apply IH].
Qed.

Lemma linked_app (R : World -> World -> Prop) (l1 l2 : list World) :
  forall w, linked R w l1 -> linked R (last l1 w) l2 -> linked R w (l1 ++ l2).
Proof.
  induction l1 as [|v l1 IH]; intros w; cbn [linked app]; [auto|].
  intros [Hv Hl] H2. split; [exact Hv|]. apply IH; [exact Hl|].
  now rewrite last_cons in H2.
Qed.

Lemma for_each_stages_last {A : Type} (body : A -> M unit) (l : list A) :
  forall w, last (for_each_stages l body w) w = snd (for_each l body w).
Proof.
  induction l as [|x l IH]; intros w; cbn [for_each_stages for_each]; [reflexivity|].
  unfold bind. destruct (body x w) as [[u|e] w1]; [|reflexivity].
  rewrite last_cons. apply IH.
Qed.

Lemma for_each_stages_linked {A : Type} (R : World -> World -> Prop)
    (body : A -> M unit) (l : list A) :
  (forall x, preserves R (body x)) ->
  forall w, linked R w (for_each_stages l body w).
Proof.
  intros Hb. induction l as [|x l IH]; intros w; cbn [for_each_stages linked]; [exact I|].
  specialize (Hb x w). destruct (body x w) as [[u|e] w1]; cbn [snd linked] in *.
  - split; [exact Hb | apply IH].
  - split; [exact Hb | exact I].
Qed.

(** *** One stage *)

Lemma moved_forward (w w' : World) : moved w w' -> forward w w'.
Proof.
  intros (Hseq & g & Hmap & Hg) (Hnd & Hle). split.
  - unfold leads_ok. rewrite Hmap, Hseq. split.
    + rewrite map_map. erewrite map_ext_in; [exact Hnd|]. intros r Hr. now apply Hg.
    + apply Forall_forall. intros r' Hin. apply in_map_iff in Hin.
      destruct Hin as (r & <- & Hin). rewrite (proj1 (Hg r Hin)).
      rewrite Forall_forall in Hle. now apply Hle.
  - intros r Hr. exists (g r). rewrite Hmap.
    split; [now apply in_map | now apply Hg].
Qed.

(** A stage that changes no status. *)
Lemma kept_moved (i k : Z) (w w' : World) :
  steady (fun _ => False) w w' ->
  moved w w' /\ (at_most i k w -> at_most i k w').
Proof.
  intros (Hseq & g & Hmap & Hid & Hst).
  assert (Hsame : forall r, p_status (g r) = p_status r)
    by (intros r; apply Hst; tauto).
  split.
  - split; [exact Hseq|]. exists g. split; [exact Hmap|].
    intros r _. split; [apply Hid | rewrite Hsame; lia].
  - intros Hk r' Hin Hi. rewrite Hmap in Hin. apply in_map_iff in Hin.
    destruct Hin as (r & <- & Hin). rewrite Hsame. apply (Hk r Hin).
    now rewrite <- Hid.
Qed.

(** A stage that sets the status of the rows of lead [i] to [st], when
    these rows are at [st] or before. *)
Lemma status_set_moved (i : Z) (st : Status) (ts : timestamp) (w w' : World) :
  projects (db w')
  = map (fun r => if sql_eq (Some (p_id r)) (Some i) then set_status st ts r else r)
        (projects (db w)) ->
  projects_seq (db w') = projects_seq (db w) ->
  at_most i (rank st) w ->
  moved w w' /\ at_most i (rank st) w'.
Proof.
  intros Hmap Hseq Hk. split.
  - split; [exact Hseq|]. eexists. split; [exact Hmap|].
    intros r Hin. cbv beta.
    destruct (sql_eq (Some (p_id r)) (Some i)) eqn:He; [|split; [reflexivity | lia]].
    split; [reflexivity|]. cbn [set_status p_status].
    apply (Hk r Hin). cbn [sql_eq] in He. now apply Z.eqb_eq in He.
  - intros r' Hin Hi. rewrite Hmap in Hin. apply in_map_iff in Hin.
    destruct Hin as (r & <- & Hin).
    destruct (sql_eq (Some (p_id r)) (Some i)); [cbn [set_status p_status]; lia|].
    now apply (Hk r Hin).
Qed.

Lemma moved_refl (w : World) : moved w w.
Proof.
  split; [reflexivity|]. exists (fun r => r). split; [now rewrite map_id|].
  intros r _. split; [reflexivity | lia].
Qed.

Lemma at_most_more (i k k' : Z) (w : World) : k <= k' -> at_most i k w -> at_most i k' w.
Proof. intros Hle H r Hin Hi. specialize (H r Hin Hi). lia. Qed.

(** Recording a join: the rows of the lead go to [joined] (or nothing
    happens, when the attempt was recorded before). *)
Lemma join_recorded_moved (i : Z) (telegram_url : string) (w : World) :
  at_most i 1 w ->
  moved w (snd (add_telegram_group (Some i) telegram_url true None w))
  /\ at_most i 1 (snd (add_telegram_group (Some i) telegram_url true None w)).
Proof.
  intros Hk. rewrite add_telegram_group_run.
  destruct (group_recorded (Some i) telegram_url (db w)).
  - split; [apply moved_refl | exact Hk].
  - cbv zeta. cbn [snd].
    apply (status_set_moved i joined
             (current_timestamp_at (script w) (S (S (tick w))))); [| |exact Hk].
    + cbn [db]. now rewrite projects_update_incremented.
    + cbn [db update_projects_where_id projects_seq with_projects].
      now rewrite (proj2 (projects_incremented _ _ _ _)).
Qed.

(** Recording a failed join changes no lead. *)
Lemma join_failure_kept (project_id : option Z) (telegram_url : string)
    (error : option string) (w : World) :
  steady (fun _ => False) w (snd (add_telegram_group project_id telegram_url false error w)).
Proof.
  rewrite add_telegram_group_failed.
  destruct (group_recorded project_id telegram_url (db w)); [apply steady_refl|].
  cbv zeta. apply steady_same; cbn [snd db].
  - now rewrite (proj1 (projects_incremented _ _ _ _)).
  - now rewrite (proj2 (projects_incremented _ _ _ _)).
Qed.

(** Recording a message: sent, the rows of the lead go to [contacted];
    failed, no lead changes. *)
Lemma message_recorded_moved (i : Z) (admin_id : option Z) (text : string)
    (template_used : option string) (success : bool) (error : option string) (w : World) :
  at_most i 2 w ->
  moved w (snd (add_message (Some i) admin_id text template_used success error w)).
Proof.
  intros Hk. rewrite add_message_run. cbv zeta. destruct success; cbn [snd].
  - apply (status_set_moved i contacted
             (current_timestamp_at (script w) (S (S (tick w))))); [| |exact Hk].
    + cbn [db]. now rewrite projects_update_incremented.
    + cbn [db update_projects_where_id projects_seq with_projects].
      now rewrite (proj2 (projects_incremented _ _ _ _)).
  - apply (kept_moved i 2). apply steady_same; cbn [db].
    + now rewrite (proj1 (projects_incremented _ _ _ _)).
    + now rewrite (proj2 (projects_incremented _ _ _ _)).
Qed.

(** *** The stages of [process_project] *)

(** The last stage is the world [process_project] ends in. *)
Lemma process_stages_last (project : ProjectRow) (template : string) (w : World) :
  last (process_stages project template w) w = snd (process_project project template w).
Proof.
  unfold process_stages, process_project.
  destruct (p_telegram_url project) as [telegram_url|]; [|reflexivity].
  destruct (negb (truthy (Some telegram_url))); [reflexivity|].
  unfold get_uncontacted_admins, bind, get_db, ret. cbv beta iota zeta.
  destruct (join_group telegram_url w) as [[[joined' join_error]|ex] w1];
    cbv beta iota zeta; [|reflexivity].
  destruct joined'; cbn [negb]; cbv beta iota zeta.
  - destruct (add_telegram_group _ _ true None w1) as [[group_id|ex] w2];
      cbv beta iota zeta; [|reflexivity].
    destruct (get_group_admins telegram_url w2) as [[[|first rest]|ex] w3];
      cbv beta iota zeta; try reflexivity.
    destruct (record_admins _ _ _ w3) as [[[]|ex] w4]; cbv beta iota zeta; [|reflexivity].
    destruct (send_dm _ _ _ _ w4) as [[[sent dm_error]|ex] w5];
      cbv beta iota zeta; [|reflexivity].
    cbn [last fst snd].
    destruct (add_message _ _ _ _ _ _ w5) as [[rowid|ex] w6]; reflexivity.
  - cbn [last].
    destruct (add_telegram_group _ _ false join_error w1) as [[group_id|ex] w2]; reflexivity.
Qed.

(** Closes a goal [linked R w l] whose links are all at hand. *)
Ltac linked_done := repeat (split; [assumption|]); exact I.

(** From a lead that is [discovered] or [joined], every stage of
    [process_project] leaves each status where it was or moves it
    forward. *)
Lemma process_stages_moved (project : ProjectRow) (template : string) (w : World) :
  at_most (p_id project) 1 w ->
  linked moved w (process_stages project template w).
Proof.
  intros Hk. unfold process_stages.
  destruct (p_telegram_url project) as [telegram_url|]; [|exact I].
  destruct (negb (truthy (Some telegram_url))); [exact I|].
  pose proof (kept_moved (p_id project) 1 _ _ (st_join_group (fun _ => False) telegram_url w))
    as (M1 & K1). specialize (K1 Hk).
  destruct (join_group telegram_url w) as [[[joined' join_error]|ex] w1];
    cbn [snd linked] in M1, K1 |- *; [|linked_done].
  destruct joined'; cbn [negb].
  - destruct (join_recorded_moved (p_id project) telegram_url w1 K1) as (M2 & K2).
    destruct (add_telegram_group _ _ true None w1) as [[group_id|ex] w2];
      cbn [snd linked] in M2, K2 |- *; [|linked_done].
    pose proof (kept_moved (p_id project) 1 _ _
                  (st_get_group_admins (fun _ => False) telegram_url w2)) as (M3 & K3).
    specialize (K3 K2).
    destruct (get_group_admins telegram_url w2) as [[[|first rest]|ex] w3];
      cbn [snd linked] in M3, K3 |- *; try linked_done.
    pose proof (kept_moved (p_id project) 1 _ _
                  (st_record_admins (fun _ => False) (Some (p_id project)) group_id
                     (first :: rest) w3)) as (M4 & K4).
    specialize (K4 K3).
    destruct (record_admins _ _ _ w3) as [[[]|ex] w4];
      cbn [snd linked] in M4, K4 |- *; [|linked_done].
    pose proof (kept_moved (p_id project) 1 _ _
                  (st_send_dm (fun _ => False) (username (target_of first rest)) template
                     (p_name project) (p_symbol project) w4)) as (M5 & K5).
    specialize (K5 K4).
    destruct (send_dm _ _ _ _ w4) as [[[sent dm_error]|ex] w5];
      cbn [snd linked] in M5, K5 |- *; [|linked_done].
    repeat (split; [assumption|]). split; [|exact I].
    unfold get_uncontacted_admins, bind, get_db, ret.
    apply message_recorded_moved. now apply (at_most_more _ 1).
  - cbn [linked]. split; [exact M1|]. split; [|exact I].
    apply (kept_moved (p_id project) 1), join_failure_kept.
Qed.

(** *** The loop over the leads to process *)

Lemma forward_linked_last (l : list World) :
  forall w, leads_ok (db w) -> linked forward w l ->
            leads_ok (db (last l w)) /\ advanced (db w) (db (last l w)).
Proof.
  induction l as [|v l IH]; intros w Hok; cbn [linked].
  - intros _. split; [exact Hok | apply advanced_refl].
  - intros [Hv Hl]. destruct (Hv Hok) as [Hokv Hadv]. rewrite last_cons.
    destruct (IH v Hokv Hl) as [Hok' Hadv'].
    split; [exact Hok' | exact (advanced_trans _ _ _ Hadv Hadv')].
Qed.

Lemma process_all_stages_forward (config : Config) (batch : list ProjectRow) :
  forall w,
    leads_ok (db w) ->
    NoDup (map p_id batch) ->
    (forall q r, In q batch -> In r (projects (db w)) -> p_id r = p_id q ->
       p_status r = discovered) ->
    linked forward w (process_all_stages config batch w)
    /\ last (process_all_stages config batch w) w = snd (process_all config batch w).
Proof.
  induction batch as [|p batch IH]; intros w Hok Hnd Hdisc.
  - split; [exact I | reflexivity].
  - assert (Hk : at_most (p_id p) 1 w).
    { intros r Hin Hi. rewrite (Hdisc p r (or_introl eq_refl) Hin Hi). cbn. lia. }
    pose proof (linked_weaken _ _ _ moved_forward w
                  (process_stages_moved p (message_template config) w Hk)) as Hstages.
    pose proof (process_stages_last p (message_template config) w) as Hlast.
    pose proof (st_process_step config p w) as Hstep.
    change (process_all config (p :: batch) w)
      with (bind (bind (process_project p (message_template config)) (cooldown config))
                 (fun _ => process_all config batch) w).
    change (snd ((result <- process_project p (message_template config) ;;
                  if r_dm_sent result
                  then asyncio_sleep (cooldown_after_dm_minutes config * 60)
                  else if r_joined result
                       then asyncio_sleep (cooldown_after_join_minutes config * 60)
                       else ret tt) w))
      with (snd (bind (process_project p (message_template config)) (cooldown config) w))
      in Hstep.
    cbn [process_all_stages]. unfold bind in Hstep |- *.
    destruct (process_project p (message_template config) w) as [[result|ex] w1];
      cbn [snd] in Hlast, Hstep.
    + assert (Hcool : steady (fun _ => False) w1 (snd (cooldown config result w1))).
      { unfold cooldown. destruct (r_dm_sent result); [apply st_sleep|].
        destruct (r_joined result); [apply st_sleep | apply st_ret]. }
      assert (Hnever : exists u, cooldown config result w1
                                 = (Ok u, snd (cooldown config result w1))).
      { unfold cooldown. destruct (r_dm_sent result); [eexists; reflexivity|].
        destruct (r_joined result); eexists; reflexivity. }
      destruct Hnever as (u & Hrun). rewrite Hrun in Hstep |- *. cbn [snd] in Hstep.
      set (w2 := snd (cooldown config result w1)) in *.
      destruct (forward_linked_last _ w Hok Hstages) as [Hok1 _]. rewrite Hlast in Hok1.
      assert (Hf12 : forward w1 w2) by now apply steady_none_forward.
      destruct (Hf12 Hok1) as [Hok2 _].
      cbn [map] in Hnd. apply NoDup_cons_iff in Hnd. destruct Hnd as [Hp Hrest].
      destruct (IH w2 Hok2 Hrest) as [Hlinked2 Hlast2].
      { intros q r2 Hq Hr2 He.
        destruct Hstep as [_ (g & Hproj & Hid & Hst)].
        rewrite Hproj in Hr2. apply in_map_iff in Hr2. destruct Hr2 as (r & <- & Hr).
        rewrite Hid in He. rewrite Hst.
        - apply (Hdisc q r); [now right | exact Hr | exact He].
        - intros Heq. apply Hp. rewrite <- Heq, He. now apply in_map. }
      split.
      * apply linked_app; [exact Hstages|]. rewrite Hlast. cbn [linked].
        split; [exact Hf12 | exact Hlinked2].
      * rewrite last_app_end, last_cons. exact Hlast2.
    + split; [now rewrite app_nil_r | now rewrite app_nil_r].
Qed.

(** *** A whole cycle *)

Lemma forward_add_project (token : Token) :
  preserves forward (add_project token ;; ret tt).
Proof.
  intros w. apply grown_forward.
  apply (preserves_bind grown grown_trans); [apply grown_add_project|].
  intros _. apply preserves_ret, grown_refl.
Qed.

Lemma forward_index_check (token : Token) : preserves forward (index_check token).
Proof.
  intros w. apply steady_none_forward.
  assert (H : preserves (steady (fun _ => False)) (index_check token))
    by (unfold index_check; steady_go).
  apply H.
Qed.

Lemma bind_run {A B : Type} (c : M A) (k : A -> M B) (w : World) :
  bind c k w = match c w with
               | (Ok a, w') => k a w'
               | (Raise e, w') => (Raise e, w')
               end.
Proof. reflexivity. Qed.

Lemma cycle_stages_forward (config : Config) (w : World) :
  leads_ok (db w) ->
  linked forward w (cycle_stages config w)
  /\ last (cycle_stages config w) w = snd (_scrape_cycle config w).
Proof.
  intros Hok. unfold cycle_stages, _scrape_cycle.
  destruct (urls_to_monitor config) as [|url urls]; [split; [exact I | reflexivity]|].
  rewrite bind_run.
  pose proof (steady_none_forward _ _ (st_scrape_new_tokens (fun _ => False) config w))
    as H1.
  destruct (scrape_new_tokens config w) as [[[|token tokens]|ex] w1]; cbn [snd] in H1;
    try (split; [split; [exact H1 | exact I] | reflexivity]).
  cbv zeta. destruct (H1 Hok) as [Hok1 _].
  set (new_tokens := token :: tokens).
  set (add := fun token : Token => add_project token ;; ret tt).
  set (checked := if google_index_enabled config
                  then filter (fun t => truthy (website t)) new_tokens else []).
  assert (Hchecks : (if google_index_enabled config
                     then _check_indexes new_tokens else ret tt)
                    = for_each checked index_check).
  { subst checked. destruct (google_index_enabled config); reflexivity. }
  rewrite Hchecks.
  pose proof (for_each_stages_linked forward add new_tokens forward_add_project w1) as HA.
  pose proof (for_each_stages_last add new_tokens w1) as HAlast.
  destruct (forward_linked_last _ w1 Hok1 HA) as [Hok2 _]. rewrite HAlast in Hok2.
  rewrite bind_run.
  destruct (for_each new_tokens add w1) as [[u|ex] w2]; cbn [snd] in HAlast, Hok2.
  2: { rewrite app_nil_r, last_cons. split; [split; [exact H1 | exact HA] | exact HAlast]. }
  pose proof (for_each_stages_linked forward index_check checked forward_index_check w2)
    as HB.
  pose proof (for_each_stages_last index_check checked w2) as HBlast.
  destruct (forward_linked_last _ w2 Hok2 HB) as [Hok3 _]. rewrite HBlast in Hok3.
  rewrite bind_run.
  destruct (for_each checked index_check w2) as [[u3|ex] w3]; cbn [snd] in HBlast, Hok3.
  2: { rewrite app_nil_r, last_cons, last_app_end, HAlast. split; [|exact HBlast].
       split; [exact H1|]. apply linked_app; [exact HA | now rewrite HAlast]. }
  rewrite bind_run.
  assert (Hlist : get_uncontacted_projects 20 (only_target_unindexed config) w3
                  = (Ok (sql_limit 20
                           (order_by_discovered_at_desc
                              (filter (uncontacted (only_target_unindexed config))
                                      (projects (db w3))))), w3))
    by reflexivity.
  rewrite Hlist.
  destruct (to_process_discovered 20 (only_target_unindexed config) (db w3) Hok3)
    as [Hnd Hdisc].
  destruct (process_all_stages_forward config _ w3 Hok3 Hnd Hdisc) as [HC HClast].
  split.
  - split; [exact H1|]. apply linked_app; [exact HA|]. rewrite HAlast.
    apply linked_app; [exact HB | now rewrite HBlast].
  - now rewrite last_cons, !last_app_end, HAlast, HBlast.
Qed.

(** *** A run *)

Lemma run_trace_forward (w w' : World) (t : list World) :
  run_trace w t w' ->
  leads_ok (db w) ->
  linked forward w t /\ last t w = w' /\ runs w w'.
Proof.
  induction 1 as [w | config w w' t _ IH | error_type error_message context w w' t _ IH];
    intros Hok.
  - split; [exact I|]. split; [reflexivity | apply runs_here].
  - destruct (cycle_stages_forward config w Hok) as [Hlinked Hlast].
    destruct (forward_linked_last _ w Hok Hlinked) as [Hok1 _]. rewrite Hlast in Hok1.
    destruct (IH Hok1) as (Hrest & Hend & Hruns).
    split; [apply linked_app; [exact Hlinked | now rewrite Hlast]|].
    split; [now rewrite last_app_end, Hlast|].
    eapply runs_on; [apply cycle_step | exact Hruns].
  - assert (Hf : forward w (snd (log_error error_type error_message context w)))
      by apply steady_none_forward, st_log_error.
    destruct (Hf Hok) as [Hok1 _]. destruct (IH Hok1) as (Hrest & Hend & Hruns).
    split; [split; [exact Hf | exact Hrest]|].
    split; [now rewrite last_cons|].
    eapply runs_on; [apply error_step | exact Hruns].
Qed.

Lemma forward_linked_sorted (l : list World) :
  forall w, leads_ok (db w) -> linked forward w l ->
            Forall (fun v => leads_ok (db v)) l
            /\ StronglySorted (fun u v => advanced (db u) (db v)) (w :: l).
Proof.
  induction l as [|v l IH]; intros w Hok; cbn [linked].
  - intros _. split; constructor; constructor.
  - intros [Hv Hl]. destruct (Hv Hok) as [Hokv Hadv].
    destruct (IH v Hokv Hl) as [Hall Hsorted].
    split; [now constructor|].
    constructor; [exact Hsorted|].
    constructor; [exact Hadv|].
    inversion Hsorted as [|? ? _ Hfrom]; subst.
    eapply Forall_impl; [|exact Hfrom].
    intros x Hx. exact (advanced_trans _ _ _ Hadv Hx).
Qed.

(** Every run has such a list of states: a cycle contributes its stages, a
    logged error the state after the log entry. *)
Lemma runs_have_stages (w w' : World) : runs w w' -> exists t, run_trace w t w'.
Proof.
  induction 1 as [w|w w1 w2 Hstep _ [t IH]].
  - exists []. constructor.
  - destruct Hstep as [config w | error_type error_message context w].
    + exists (cycle_stages config w ++ t)%list. now constructor.
    + eexists. apply trace_error. exact IH.
Qed.

(** C3.  Take any run of the pipeline from a well-keyed table of leads, and
    the states it passes through: the state after each call the cycle makes
    (discovery, each [add_project], each index check with its
    [update_index_status], and for each lead processed the states after
    [join_group], [add_telegram_group], [get_group_admins], the [add_admin]
    calls, [send_dm], [add_message] and the cool-down), and the state after
    each logged error.  The list ends in the state the run ends in; in each
    of these states the table is well keyed; and between ANY two of them, in
    the order of the run, every lead of the earlier state is a lead of the
    later one whose status is at the same stage of
    [discovered -> joined -> contacted -> {responded, converted}] or at a
    later one.  So no store call made by the pipeline, and no sequence of
    them, makes a status regress.  (A stage may be skipped: a lead whose
    join is not recorded but whose message is goes from [discovered] to
    [contacted].) *)
Theorem lead_status_never_regresses (w w' : World) (t : list World) :
  leads_ok (db w) ->
  run_trace w t w' ->
  runs w w'
  /\ last t w = w'
  /\ Forall (fun v => leads_ok (db v)) t
  /\ StronglySorted
       (fun u v => forall r, In r (projects (db u)) ->
                     exists r', In r' (projects (db v))
                                /\ p_id r' = p_id r
                                /\ rank (p_status r) <= rank (p_status r'))
       (w :: t)
  /\ leads_ok (db w')
  /\ forall r, In r (projects (db w)) ->
       exists r', In r' (projects (db w'))
                  /\ p_id r' = p_id r
                  /\ rank (p_status r) <= rank (p_status r').
Proof.
  intros Hok Htrace.
  destruct (run_trace_forward w w' t Htrace Hok) as (Hlinked & Hlast & Hruns).
  destruct (forward_linked_sorted t w Hok Hlinked) as [Hall Hsorted].
  destruct (forward_linked_last t w Hok Hlinked) as [Hok' Hadv]. rewrite Hlast in Hok', Hadv.
  repeat (split; [assumption|]). exact Hadv.
Qed.

Lemma lead_status_never_regresses_witness :
  let t := (cycle_stages sample_config stored_lead_world ++ [])%list in
  let w' := snd (_scrape_cycle sample_config stored_lead_world) in
  runs stored_lead_world w'
  /\ last t stored_lead_world = w'
  /\ Forall (fun v => leads_ok (db v)) t
  /\ StronglySorted
       (fun u v => forall r, In r (projects (db u)) ->
                     exists r', In r' (projects (db v))
                                /\ p_id r' = p_id r
                                /\ rank (p_status r) <= rank (p_status r'))
       (stored_lead_world :: t)
  /\ leads_ok (db w')
  /\ forall r, In r (projects (db stored_lead_world)) ->
       exists r', In r' (projects (db w'))
                  /\ p_id r' = p_id r
                  /\ rank (p_status r) <= rank (p_status r').
Proof.
  apply (lead_status_never_regresses stored_lead_world).
  - split; [repeat constructor; intros [] | repeat constructor; cbn; lia].
  - apply trace_cycle, trace_end.
Defined.

(** The statuses in the states of that cycle: the stored lead is
    [discovered] until its join is recorded, [joined] until its message is
    recorded, [contacted] from then on; the lead discovered in the cycle is
    appended as [discovered]. *)
Example stored_lead_stages :
  map (fun v => map p_status (projects (db v)))
      (stored_lead_world :: cycle_stages sample_config stored_lead_world)
  = [[discovered]; [discovered];
     [discovered; discovered]; [discovered; discovered]; [discovered; discovered];
     [joined; discovered]; [joined; discovered]; [joined; discovered]; [joined; discovered];
     [contacted; discovered]; [contacted; discovered]].
Proof. vm_compute. reflexivity. Qed.
